(** * The Salesforce CLI command layer (utils/sfCommand.ts, shared/connection.js)

    A shallow embedding of the command execution layer of the MCP server:
    executable discovery ([findSfPath]), project validation
    ([validateProjectPath]), command assembly ([buildSfCommand]) and the four
    process invokers ([executeSfCommand], [executeSfCommandRaw],
    [executeSfCommandInProject], [executeSfCommandInProjectRaw]).

    JavaScript strings are modelled as [string], a sequence of code units
    below 256; white space is the part of the ECMAScript WhiteSpace and
    LineTerminator classes in that range ([is_space]).  Strings with higher
    code units are outside the model.  The Node.js runtime the code
    calls into (the file system probes, [child_process.exec], [path.resolve],
    [path.join], [JSON.parse], number formatting) is a parameter of the
    development; every theorem holds for any behaviour of it. *)

From Stdlib Require Import ZArith Ascii String List Bool Lia DecimalString.
From stdpp Require Import base option list strings gmap.

(** ** JavaScript strings *)

Module JsString.

Definition dquote : string := String "034"%char "".
Definition newline : string := String "010"%char "".

(** What [\s] matches and [trim] removes: tab, line feed, vertical tab, form
    feed, carriage return, space and no-break space. *)
Definition is_space (c : ascii) : bool :=
  Ascii.is_space c || Ascii.eqb c "160".

(** [s.includes(pat)] *)
Fixpoint includes (s pat : string) : bool :=
  String.prefix pat s
  || match s with
     | "" => false
     | String _ s' => includes s' pat
     end.

(** Number of positions of [s] at which [pat] occurs. *)
Fixpoint occurrences (pat s : string) : nat :=
  match s with
  | "" => 0
  | String _ s' =>
      (if String.prefix pat s then 1 else 0) + occurrences pat s'
  end.

Fixpoint all_space (s : string) : bool :=
  match s with
  | "" => true
  | String c s' => is_space c && all_space s'
  end.

Fixpoint trimStart (s : string) : string :=
  match s with
  | "" => ""
  | String c s' => if is_space c then trimStart s' else s
  end.

(** [s.trim()] *)
Definition trim (s : string) : string :=
  String.rev (trimStart (String.rev (trimStart s))).

(** A string is truthy when it is not empty. *)
Definition truthy (s : string) : bool :=
  match s with "" => false | _ => true end.

(** [l.join(sep)] on strings. *)
Fixpoint join (sep : string) (l : list string) : string :=
  match l with
  | [] => ""
  | [x] => x
  | x :: rest => x +:+ sep +:+ join sep rest
  end.

(** The chars of [s] as a list, for membership statements. *)
Fixpoint chars (s : string) : list ascii :=
  match s with
  | "" => []
  | String c s' => c :: chars s'
  end.

End JsString.

Import JsString.

(** ** Errors, results and values *)

(** The error [child_process.exec] hands to its callback. *)
Record ExecException := {
  ex_message : string;
  ex_code : option Z;
}.

Inductive JsError :=
  | Error (message : string)        (* [new Error(message)], also fs errors *)
  | TypeError (message : string)    (* raised by the language itself *)
  | SyntaxError (message : string)  (* raised by [JSON.parse] *)
  | ExecError (e : ExecException).  (* the exec error object, passed on as is *)

(** [error.message] *)
Definition error_message (e : JsError) : string :=
  match e with
  | Error m => m
  | TypeError m => m
  | SyntaxError m => m
  | ExecError x => ex_message x
  end.

Inductive result (A : Type) :=
  | Ok (a : A)
  | Throw (e : JsError).
Arguments Ok {A} a.
Arguments Throw {A} e.

(** A settled promise. *)
Inductive Promise (A : Type) :=
  | Resolved (a : A)
  | Rejected (e : JsError).
Arguments Resolved {A} a.
Arguments Rejected {A} e.

#[local] Set Warnings "-register-all".

(** What [JSON.parse] can return; [N] is the type of JavaScript numbers. *)
Inductive JsValue (N : Type) :=
  | JNull
  | JBool (b : bool)
  | JNumber (n : N)
  | JString (s : string)
  | JArray (items : list (JsValue N))
  | JObject (props : list (string * JsValue N)).
Arguments JNull {N}.
Arguments JBool {N} b.
Arguments JNumber {N} n.
Arguments JString {N} s.
Arguments JArray {N} items.
Arguments JObject {N} props.

Inductive Platform :=
  | aix | android | cygwin | darwin | freebsd | haiku | linux | netbsd
  | openbsd | sunos | win32.

Record Stats := { isDirectory : bool }.

Record ExecResult := {
  exec_error : option ExecException;
  exec_stdout : string;
  exec_stderr : string;
}.

(** The part of Node.js that is fixed for the life of the process. *)
Class Runtime := {
  number : Type;
  Number_toString : number → string;
  Number_truthy : number → bool;
  Number_is_1 : number → bool;            (* [n === 1] *)
  JSON_parse : string → option (JsValue number);  (* [None]: SyntaxError *)
  path_resolve : string → string;
  path_join : list string → string;
  os_platform : Platform;
  env_HOME : option string;
  env_LOCALAPPDATA : option string;
}.

(** The part that can change between two calls: the file system and what a
    shell command does. *)
Record World := {
  fs_existsSync : string → bool;
  fs_statSync : string → result Stats;
  fs_readFileSync : string → result string;
  child_exec : string → ExecResult;
}.

(** What a call did to the outside, in order. *)
Inductive Event :=
  | EvExists (path : string)
  | EvStat (path : string)
  | EvRead (path : string)
  | EvExec (command : string).

(** The module state: the executable cache, and the events so far. *)
Record State := {
  cachedSfPath : option string;
  trace : list Event;
}.

(** ** The monad of module functions: state and exceptions *)

Definition M (A : Type) : Type := State → result A * State.

Definition ret {A} (a : A) : M A := λ st, (Ok a, st).
Definition throw {A} (e : JsError) : M A := λ st, (Throw e, st).
Definition bind {A B} (m : M A) (k : A → M B) : M B :=
  λ st, match m st with
        | (Ok a, st') => k a st'
        | (Throw e, st') => (Throw e, st')
        end.
(** [try { m } catch (error) { h error }] *)
Definition try_catch {A} (m : M A) (h : JsError → M A) : M A :=
  λ st, match m st with
        | (Ok a, st') => (Ok a, st')
        | (Throw e, st') => h e st'
        end.
Definition lift {A} (r : result A) : M A := λ st, (r, st).
(** [st] after event [e] *)
Definition logged (st : State) (e : Event) : State :=
  {| cachedSfPath := cachedSfPath st; trace := trace st ++ [e] |}.
Definition emit (e : Event) : M unit := λ st, (Ok (), logged st e).
Definition get_cache : M (option string) := λ st, (Ok (cachedSfPath st), st).
Definition set_cache (p : string) : M unit :=
  λ st, (Ok (), {| cachedSfPath := Some p; trace := trace st |}).

Notation "'let*' x ':=' m 'in' k" := (bind m (λ x, k))
  (at level 10, x name, m at level 100, k at level 200, only parsing).

(** The exec commands among the events. *)
Definition executed (t : list Event) : list string :=
  omap (λ e, match e with EvExec c => Some c | _ => None end) t.

(** ** JavaScript operations on parsed values *)

Section Values.
Context `{rt : Runtime}.

(** A JavaScript value that may be [undefined] ([None]). *)
Definition Value : Type := option (JsValue number).

(** ToBoolean *)
Definition truthy_value (v : Value) : bool :=
  match v with
  | None | Some JNull => false
  | Some (JBool b) => b
  | Some (JNumber n) => Number_truthy n
  | Some (JString s) => truthy s
  | Some (JArray _) | Some (JObject _) => true
  end.

Fixpoint lookup_prop (key : string) (props : list (string * JsValue number))
  : Value :=
  match props with
  | [] => None
  | (k, v) :: rest => if String.eqb k key then Some v else lookup_prop key rest
  end.

(** [v.key], for a [key] that no built-in prototype defines (message,
    actions, stack, name, status, exitCode, defaultusername): an own
    property of an object, [undefined] on other values, a TypeError on
    [null]. *)
Definition get_field (v : JsValue number) (key : string) : result Value :=
  match v with
  | JNull =>
      Throw (TypeError ("Cannot read properties of null (reading '" +:+ key +:+ "')"))
  | JObject props => Ok (lookup_prop key props)
  | _ => Ok None
  end.

(** Joins already converted items, passing on the first exception. *)
Fixpoint join_results (sep : string) (l : list (result string)) : result string :=
  match l with
  | [] => Ok ""
  | [r] => r
  | r :: rest =>
      match r, join_results sep rest with
      | Ok x, Ok y => Ok (x +:+ sep +:+ y)
      | Throw e, _ => Throw e
      | _, Throw e => Throw e
      end
  end.

(** ToString of a parsed value.  An array is joined with commas, [null]
    items giving the empty string; a plain object gives "[object Object]",
    unless an own property shadows [toString], which no parsed value can
    make callable. *)
Fixpoint ToString_value (v : JsValue number) : result string :=
  match v with
  | JNull => Ok "null"
  | JBool b => Ok (if b then "true" else "false")
  | JNumber n => Ok (Number_toString n)
  | JString s => Ok s
  | JArray items =>
      join_results ","
        ((fix each (l : list (JsValue number)) : list (result string) :=
            match l with
            | [] => []
            | JNull :: rest => Ok "" :: each rest
            | x :: rest => ToString_value x :: each rest
            end) items)
  | JObject props =>
      match lookup_prop "toString" props with
      | Some _ => Throw (TypeError "Cannot convert object to primitive value")
      | None => Ok "[object Object]"
      end
  end.

(** The items of an array as [join] converts them. *)
Definition join_items (items : list (JsValue number)) : list (result string) :=
  map (λ x, match x with JNull => Ok "" | _ => ToString_value x end) items.

(** ToString of a value or [undefined], as a template literal does it. *)
Definition ToString (v : Value) : result string :=
  match v with
  | None => Ok "undefined"
  | Some x => ToString_value x
  end.

(** [v.join(sep)] for a truthy [v] written [expr] in the source: only
    arrays have the method. *)
Definition call_join (expr : string) (v : Value) (sep : string) : result string :=
  match v with
  | Some (JArray items) => join_results sep (join_items items)
  | _ => Throw (TypeError (expr +:+ ".join is not a function"))
  end.

(** [v.trim()] for a truthy [v] written [expr] in the source: only strings
    have the method. *)
Definition call_trim (expr : string) (v : Value) : result string :=
  match v with
  | Some (JString s) => Ok (trim s)
  | _ => Throw (TypeError (expr +:+ ".trim is not a function"))
  end.

(** [v === 1] *)
Definition is_one (v : Value) : bool :=
  match v with
  | Some (JNumber n) => Number_is_1 n
  | _ => false
  end.

End Values.

(** Sequencing of pure steps that may throw. *)
Definition bind_result {A B} (r : result A) (k : A → result B) : result B :=
  match r with
  | Ok a => k a
  | Throw e => Throw e
  end.
Notation "'let?' x ':=' r 'in' k" := (bind_result r (λ x, k))
  (at level 10, x name, r at level 100, k at level 200, only parsing).

(** ** utils/sfCommand.ts *)

Section SfCommand.
Context `{rt : Runtime}.

(** [process.env.X + suffix]: an unset variable reads "undefined". *)
Definition env_concat (v : option string) (suffix : string) : string :=
  default "undefined" v +:+ suffix.

Definition COMMON_SF_PATHS (p : Platform) : option (list string) :=
  match p with
  | darwin => Some [
      "/usr/local/bin/sf";
      "/opt/homebrew/bin/sf";
      "/usr/bin/sf";
      env_concat env_HOME "/.local/bin/sf" ]
  | linux => Some [
      "/usr/local/bin/sf";
      "/usr/bin/sf";
      "/opt/salesforce/cli/bin/sf";
      env_concat env_HOME "/.local/bin/sf" ]
  | win32 => Some [
      "C:\Program Files\sf\bin\sf.cmd";
      "C:\Program Files\sf\bin\sf.exe";
      "C:\Program Files (x86)\sf\bin\sf.cmd";
      "C:\Program Files (x86)\sf\bin\sf.exe";
      env_concat env_LOCALAPPDATA "\sf\bin\sf.cmd";
      env_concat env_LOCALAPPDATA "\sf\bin\sf.exe" ]
  | _ => None
  end.

(** [COMMON_SF_PATHS[currentPlatform] || COMMON_SF_PATHS.linux] *)
Definition pathsToCheck : list string :=
  match COMMON_SF_PATHS os_platform with
  | Some l => l
  | None => default [] (COMMON_SF_PATHS linux)
  end.

Definition existsSync (w : World) (path : string) : M bool :=
  let* _ := emit (EvExists path) in ret (fs_existsSync w path).
Definition statSync (w : World) (path : string) : M Stats :=
  let* _ := emit (EvStat path) in lift (fs_statSync w path).
Definition readFileSync (w : World) (path : string) : M string :=
  let* _ := emit (EvRead path) in lift (fs_readFileSync w path).
Definition exec (w : World) (command : string) : M ExecResult :=
  let* _ := emit (EvExec command) in ret (child_exec w command).

(** The [for] loop of [findSfPath]; [None] when it runs to its end. *)
Fixpoint findSfPath_loop (w : World) (paths : list string) : M (option string) :=
  match paths with
  | [] => ret None
  | path :: rest =>
      if truthy path then
        let* found := existsSync w path in
        if found then (let* _ := set_cache path in ret (Some path))
        else findSfPath_loop w rest
      else findSfPath_loop w rest
  end.

Definition findSfPath (w : World) : M string :=
  let* cached := get_cache in
  match cached with
  | Some (String _ _ as p) => ret p
  | _ =>
      let* found := findSfPath_loop w pathsToCheck in
      match found with
      | Some path => ret path
      | None => let* _ := set_cache "sf" in ret "sf"
      end
  end.

(** *** [command.replace(/^sf\s+/, replacement)] *)

(** The leading white space of a string, and what follows it. *)
Fixpoint span_space (s : string) : string * string :=
  match s with
  | "" => ("", "")
  | String c s' =>
      if is_space c
      then let '(ws, rest) := span_space s' in (String c ws, rest)
      else ("", s)
  end.

(** The match of [/^sf\s+/] on [command]: the matched text and the text
    after it.  [\s+] is greedy and needs one white space at least. *)
Definition match_sf_prefix (command : string) : option (string * string) :=
  match command with
  | String a (String b tail) =>
      if Ascii.eqb a "s" && Ascii.eqb b "f" then
        match span_space tail with
        | ("", _) => None
        | (ws, rest) => Some (String a (String b ws), rest)
        end
      else None
  | _ => None
  end.

(** GetSubstitution for a pattern without capture groups, matched at the
    start of the string: [$$] is a dollar sign, [$&] the matched text,
    [$`] the (empty) text before the match, [$'] the text after it; any
    other dollar sign stands for itself. *)
Fixpoint GetSubstitution (replacement matched after : string) : string :=
  match replacement with
  | "" => ""
  | String c r =>
      if Ascii.eqb c "$" then
        match r with
        | "" => String c ""
        | String d r' =>
            if Ascii.eqb d "$" then String "$" (GetSubstitution r' matched after)
            else if Ascii.eqb d "&" then matched +:+ GetSubstitution r' matched after
            else if Ascii.eqb d "`" then GetSubstitution r' matched after
            else if Ascii.eqb d "'" then after +:+ GetSubstitution r' matched after
            else String c (GetSubstitution r matched after)
        end
      else String c (GetSubstitution r matched after)
  end.

(** [command.replace(/^sf\s+/, `"${sfPath}" `)] *)
Definition replace_sf (sfPath command : string) : string :=
  match match_sf_prefix command with
  | Some (matched, after) =>
      GetSubstitution (dquote +:+ sfPath +:+ dquote +:+ " ") matched after +:+ after
  | None => command
  end.

(** *** The callbacks of [exec] *)

Definition SF_NOT_FOUND : string :=
  "Salesforce CLI (sf) not found. Please ensure it is installed and accessible. "
  +:+ "Visit https://developer.salesforce.com/tools/salesforcecli for installation instructions.".

Definition NO_OUTPUT : string := "No output received from command".

(** [error.message.includes("command not found") ||
     error.message.includes("is not recognized")] *)
Definition is_not_found (error : ExecException) : bool :=
  includes (ex_message error) "command not found"
  || includes (ex_message error) "is not recognized".

(** The message built from parsed error details:
    [`Error: ${d.message}\n` + (d.actions ? `Actions: ${d.actions.join("\n")}\n` : "")
     + (d.stack ? `Stack: ${d.stack}` : "")] *)
Definition detailedMessage (errorDetails : JsValue number) : result string :=
  let? message := get_field errorDetails "message" in
  let? head := ToString message in
  let? actions := get_field errorDetails "actions" in
  let? middle :=
    if truthy_value actions then
      let? joined := call_join "errorDetails.actions" actions newline in
      Ok ("Actions: " +:+ joined +:+ newline)
    else Ok "" in
  let? stack := get_field errorDetails "stack" in
  let? tail :=
    if truthy_value stack then
      let? text := ToString stack in Ok ("Stack: " +:+ text)
    else Ok "" in
  Ok ("Error: " +:+ head +:+ newline +:+ middle +:+ tail).

(** [try { JSON.parse(stderr) ...; reject(new Error(detailedMessage)) }
     catch { reject(fallback) }] *)
Definition reject_with_details {A} (stderr : string) (fallback : JsError) : Promise A :=
  match JSON_parse stderr with
  | Some errorDetails =>
      match detailedMessage errorDetails with
      | Ok message => Rejected (Error message)
      | Throw _ => Rejected fallback
      end
  | None => Rejected fallback
  end.

(** [if (stdout) { try { resolve(JSON.parse(stdout)); return } catch {} }]:
    the parsed output when this returns. *)
Definition parsed_stdout (stdout : string) : option (JsValue number) :=
  if truthy stdout then JSON_parse stdout else None.

Definition executeSfCommand_callback (r : ExecResult) : Promise (JsValue number) :=
  match parsed_stdout (exec_stdout r) with
  | Some result => Resolved result
  | None =>
      match exec_error r with
      | Some error =>
          if is_not_found error then Rejected (Error SF_NOT_FOUND)
          else reject_with_details (exec_stderr r) (ExecError error)
      | None =>
          if truthy (exec_stderr r) && negb (includes (exec_stderr r) "Warning")
          then reject_with_details (exec_stderr r) (Error (exec_stderr r))
          else Rejected (Error NO_OUTPUT)
      end
  end.

(** [stdout && (command.includes("scanner") || command.includes("code-analyzer"))] *)
Definition scanner_output (command stdout : string) : bool :=
  truthy stdout && (includes command "scanner" || includes command "code-analyzer").

Definition executeSfCommandRaw_callback (command : string) (r : ExecResult)
  : Promise string :=
  match exec_error r with
  | Some error =>
      if is_not_found error then Rejected (Error SF_NOT_FOUND)
      else if scanner_output command (exec_stdout r) then Resolved (exec_stdout r)
      else Rejected (ExecError error)
  | None => Resolved (exec_stdout r)
  end.

Definition executeSfCommandInProject_callback (r : ExecResult)
  : Promise (JsValue number) :=
  match parsed_stdout (exec_stdout r) with
  | Some result => Resolved result
  | None =>
      match exec_error r with
      | Some error =>
          if is_not_found error then Rejected (Error SF_NOT_FOUND)
          else Rejected (ExecError error)
      | None =>
          if truthy (exec_stderr r) && negb (includes (exec_stderr r) "Warning")
          then Rejected (Error (exec_stderr r))
          else Rejected (Error NO_OUTPUT)
      end
  end.

(** [a || b] on values *)
Definition or_value (a b : Value) : Value := if truthy_value a then a else b.

(** The body of the [try] of [executeSfCommandInProjectRaw]: [Ok (Some m)]
    when it rejects with message [m], [Ok None] when the status test fails. *)
Definition json_failure (jsonResult : JsValue number) : result (option string) :=
  let? status := get_field jsonResult "status" in
  let? exitCode := get_field jsonResult "exitCode" in
  if is_one status || is_one exitCode then
    let? message := get_field jsonResult "message" in
    let? name := get_field jsonResult "name" in
    let errorMessage := or_value message (or_value name (Some (JString "Command failed"))) in
    let? actionsField := get_field jsonResult "actions" in
    let? actions :=
      if truthy_value actionsField then
        let? joined := call_join "jsonResult.actions" actionsField newline in
        Ok (newline +:+ "Suggested actions:" +:+ newline +:+ joined)
      else Ok "" in
    let? stackField := get_field jsonResult "stack" in
    let? stack :=
      if truthy_value stackField then
        let? text := ToString stackField in
        Ok (newline +:+ "Stack trace:" +:+ newline +:+ text)
      else Ok "" in
    let? head := ToString errorMessage in
    Ok (Some (head +:+ actions +:+ stack))
  else Ok None.

Definition executeSfCommandInProjectRaw_callback (command : string) (r : ExecResult)
  : Promise string :=
  match exec_error r with
  | Some error =>
      if is_not_found error then Rejected (Error SF_NOT_FOUND)
      else if scanner_output command (exec_stdout r) then Resolved (exec_stdout r)
      else
        let fallback := Rejected (ExecError error) in
        if truthy (exec_stdout r) && includes command "--json" then
          match JSON_parse (exec_stdout r) with
          | Some jsonResult =>
              match json_failure jsonResult with
              | Ok (Some message) => Rejected (Error message)
              | _ => fallback
              end
          | None => fallback
          end
        else fallback
  | None => Resolved (exec_stdout r)
  end.

(** *** The exported functions *)

Definition executeSfCommand (w : World) (command : string)
  : M (Promise (JsValue number)) :=
  let* sfPath := findSfPath w in
  let fullCommand := replace_sf sfPath command in
  let* r := exec w fullCommand in
  ret (executeSfCommand_callback r).

Definition executeSfCommandRaw (w : World) (command : string)
  : M (Promise string) :=
  let* sfPath := findSfPath w in
  let fullCommand := replace_sf sfPath command in
  let* r := exec w fullCommand in
  ret (executeSfCommandRaw_callback command r).

(** [JSON.parse(text)] as a step that throws. *)
Definition JSON_parse_or_throw (text : string) : result (JsValue number) :=
  match JSON_parse text with
  | Some v => Ok v
  | None => Throw (SyntaxError "Unexpected token in JSON")
  end.

Definition getDefaultUsername (w : World) (projectPath : string) : M Value :=
  try_catch
    (let resolvedPath := path_resolve projectPath in
     let configPath := path_join [resolvedPath; ".sfdx"; "sfdx-config.json"] in
     let* found := existsSync w configPath in
     if negb found then ret None
     else
       let* configContent := readFileSync w configPath in
       let* config := lift (JSON_parse_or_throw configContent) in
       lift (get_field config "defaultusername"))
    (λ _, ret None).

Definition validateProjectPath (w : World) (projectPath : string) : M unit :=
  if negb (truthy projectPath) || String.eqb (trim projectPath) "" then
    throw (Error "Project path cannot be empty")
  else
    let resolvedPath := path_resolve projectPath in
    let* found := existsSync w resolvedPath in
    if negb found then
      throw (Error ("Project path does not exist: " +:+ resolvedPath))
    else
      let* _ :=
        try_catch
          (let* stats := statSync w resolvedPath in
           if negb (isDirectory stats) then
             throw (Error ("Project path is not a directory: " +:+ resolvedPath))
           else ret ())
          (λ error,
             throw (Error ("Cannot access project path: " +:+ error_message error))) in
      let sfConfigPath := path_join [resolvedPath; ".sf"] in
      let* marker := existsSync w sfConfigPath in
      if negb marker then
        throw (Error ("Project path does not contain .sf directory. "
                      +:+ "Please ensure this is a valid Salesforce DX project: "
                      +:+ resolvedPath))
      else ret ().

(** [platform() === "win32" ? `cd /d "${resolvedPath}" && ${sfCommand}`
                            : `cd "${resolvedPath}" && ${sfCommand}`] *)
Definition in_directory (resolvedPath sfCommand : string) : string :=
  match os_platform with
  | win32 => "cd /d " +:+ dquote +:+ resolvedPath +:+ dquote +:+ " && " +:+ sfCommand
  | _ => "cd " +:+ dquote +:+ resolvedPath +:+ dquote +:+ " && " +:+ sfCommand
  end.

Definition executeSfCommandInProject (w : World) (command projectPath : string)
  : M (Promise (JsValue number)) :=
  let* _ := validateProjectPath w projectPath in
  let* sfPath := findSfPath w in
  let resolvedPath := path_resolve projectPath in
  let sfCommand := replace_sf sfPath command in
  let fullCommand := in_directory resolvedPath sfCommand in
  let* r := exec w fullCommand in
  ret (executeSfCommandInProject_callback r).

Definition executeSfCommandInProjectRaw (w : World) (command projectPath : string)
  : M (Promise string) :=
  let* _ := validateProjectPath w projectPath in
  let* sfPath := findSfPath w in
  let resolvedPath := path_resolve projectPath in
  let sfCommand := replace_sf sfPath command in
  let fullCommand := in_directory resolvedPath sfCommand in
  let* r := exec w fullCommand in
  ret (executeSfCommandInProjectRaw_callback command r).

End SfCommand.

(** ** shared/connection.js *)

Section Connection.
Context `{rt : Runtime}.

(** [!orgToUse || !orgToUse.trim()] for the optional string argument *)
Definition no_target (targetOrg : option string) : bool :=
  match targetOrg with
  | None => true
  | Some s => negb (truthy s) || negb (truthy (trim s))
  end.

(** [orgToUse] after
    [if ((!orgToUse || !orgToUse.trim()) && sourcePath)
       orgToUse = getDefaultUsername(sourcePath)] *)
Definition select_org (w : World) (targetOrg sourcePath : option string) : M Value :=
  match sourcePath with
  | Some (String _ _ as path) =>
      if no_target targetOrg then getDefaultUsername w path
      else ret (JString <$> targetOrg)
  | _ => ret (JString <$> targetOrg)
  end.

Definition buildSfCommand (w : World) (baseCommand : string)
    (targetOrg sourcePath : option string) : M string :=
  let command := baseCommand in
  let* orgToUse := select_org w targetOrg sourcePath in
  let* command :=
    if truthy_value orgToUse then
      let* trimmed := lift (call_trim "orgToUse" orgToUse) in
      if truthy trimmed then
        let* text := lift (ToString orgToUse) in
        ret (command +:+ " --target-org " +:+ text)
      else ret command
    else ret command in
  if negb (includes command "--json") then ret (command +:+ " --json")
  else ret command.

End Connection.

(** ** The vocabulary of the statements *)

Section Vocabulary.
Context `{rt : Runtime}.

(** The command begins with the bare name [sf] followed by white space. *)
Definition begins_with_sf_space (command : string) : Prop :=
  ∃ c rest, command = String "s" (String "f" (String c rest))
            ∧ is_space c = true.

(** The child process of [executeSfCommand w command] (or of its raw
    sibling) called in state [st] reports [r]. *)
Definition child_reports (w : World) (st : State) (command : string)
    (r : ExecResult) : Prop :=
  ∃ sfPath st1, findSfPath w st = (Ok sfPath, st1)
    ∧ child_exec w (replace_sf sfPath command) = r.

(** The project path passes validation, and the child process of
    [executeSfCommandInProject w command projectPath] (or of its raw
    sibling) called in state [st] reports [r]. *)
Definition project_child_reports (w : World) (st : State)
    (command projectPath : string) (r : ExecResult) : Prop :=
  ∃ st0 sfPath st1, validateProjectPath w projectPath st = (Ok (), st0)
    ∧ findSfPath w st0 = (Ok sfPath, st1)
    ∧ child_exec w (in_directory (path_resolve projectPath) (replace_sf sfPath command)) = r.

(** The primary channel carries nothing that parses. *)
Definition no_parseable_output (r : ExecResult) : Prop :=
  exec_stdout r = "" ∨ JSON_parse (exec_stdout r) = None.

(** The command names an analysis subcommand. *)
Definition analysis_command (command : string) : Prop :=
  includes command "scanner" = true ∨ includes command "code-analyzer" = true.

(** Error details all of whose fields, when present, have the expected
    type: [message] and [stack] strings, [actions] an array of strings. *)
Definition optional_string (v : Value) : Prop :=
  v = None ∨ ∃ s, v = Some (JString s).
Definition optional_strings (v : Value) : Prop :=
  v = None ∨ ∃ l : list string, v = Some (JArray (map JString l)).
Definition plain_details (props : list (string * JsValue number)) : Prop :=
  optional_string (lookup_prop "message" props)
  ∧ optional_strings (lookup_prop "actions" props)
  ∧ optional_string (lookup_prop "stack" props).

(** The project's local configuration cannot be used: the file is absent,
    cannot be read, or does not parse. *)
Definition config_unavailable (w : World) (projectPath : string) : Prop :=
  let configPath := path_join [path_resolve projectPath; ".sfdx"; "sfdx-config.json"] in
  fs_existsSync w configPath = false
  ∨ (∃ e, fs_readFileSync w configPath = Throw e)
  ∨ (∃ content, fs_readFileSync w configPath = Ok content ∧ JSON_parse content = None).

(** The default org that the project's local configuration gives: the
    [defaultusername] field of the parsed file, and nothing when the file
    is absent, cannot be read, does not parse, or holds [null]. *)
Definition configured_default (w : World) (projectPath : string) : Value :=
  let configPath := path_join [path_resolve projectPath; ".sfdx"; "sfdx-config.json"] in
  if fs_existsSync w configPath then
    match fs_readFileSync w configPath with
    | Ok content =>
        match JSON_parse content with
        | Some (JObject props) => lookup_prop "defaultusername" props
        | _ => None
        end
    | Throw _ => None
    end
  else None.

End Vocabulary.

(** ** A concrete runtime, for the examples

    A reader for the part of JSON that the examples need (integers of at most
    fifteen digits, no [\u] escapes: it gives [None] outside that part),
    an in-memory file system, and POSIX paths. *)

Module Example.

Definition is_digit (c : ascii) : bool :=
  ((48 <=? nat_of_ascii c) && (nat_of_ascii c <=? 57))%nat.

Definition is_json_space (c : ascii) : bool :=
  match nat_of_ascii c with
  | 9%nat | 10%nat | 13%nat | 32%nat => true
  | _ => false
  end.

Fixpoint skip_ws (s : string) : string :=
  match s with
  | String c r => if is_json_space c then skip_ws r else s
  | "" => ""
  end.

(** The text of a string literal after its opening quote: the decoded
    string and what follows the closing quote. *)
Fixpoint read_string (s : string) : option (string * string) :=
  match s with
  | "" => None
  | String c r =>
      if Ascii.eqb c "034" then Some ("", r)
      else if Ascii.eqb c "\" then
        match r with
        | "" => None
        | String e r' =>
            let decoded :=
              if Ascii.eqb e "034" then Some "034"%char
              else if Ascii.eqb e "\" then Some "\"%char
              else if Ascii.eqb e "/" then Some "/"%char
              else if Ascii.eqb e "b" then Some "008"%char
              else if Ascii.eqb e "f" then Some "012"%char
              else if Ascii.eqb e "n" then Some "010"%char
              else if Ascii.eqb e "r" then Some "013"%char
              else if Ascii.eqb e "t" then Some "009"%char
              else None in
            match decoded, read_string r' with
            | Some d, Some (text, rest) => Some (String d text, rest)
            | _, _ => None
            end
        end
      else if (nat_of_ascii c <? 32)%nat then None
      else
        match read_string r with
        | Some (text, rest) => Some (String c text, rest)
        | None => None
        end
  end.

Fixpoint span_digits (s : string) : string * string :=
  match s with
  | String c r =>
      if is_digit c then let '(ds, rest) := span_digits r in (String c ds, rest)
      else ("", s)
  | "" => ("", "")
  end.

Fixpoint digits_value (acc : Z) (ds : string) : Z :=
  match ds with
  | "" => acc
  | String c r => digits_value (10 * acc + Z.of_nat (nat_of_ascii c - 48))%Z r
  end.

(** An integer literal without fraction or exponent. *)
Definition read_number (s : string) : option (Z * string) :=
  let '(negative, body) :=
    match s with
    | String c r => if Ascii.eqb c "-" then (true, r) else (false, s)
    | "" => (false, s)
    end in
  let '(ds, rest) := span_digits body in
  let leading_zero :=
    match ds with
    | String c (String _ _) => Ascii.eqb c "0"
    | _ => false
    end in
  let continues :=
    match rest with
    | String c _ => Ascii.eqb c "." || Ascii.eqb c "e" || Ascii.eqb c "E"
    | "" => false
    end in
  if truthy ds && negb leading_zero && negb continues && (String.length ds <=? 15)%nat
  then Some (if negative then (- digits_value 0 ds)%Z else digits_value 0 ds, rest)
  else None.

(** A later member of the same name replaces the earlier one. *)
Fixpoint set_prop (key : string) (v : JsValue Z) (props : list (string * JsValue Z))
  : list (string * JsValue Z) :=
  match props with
  | [] => [(key, v)]
  | (k, x) :: rest =>
      if String.eqb k key then (k, v) :: rest else (k, x) :: set_prop key v rest
  end.

Fixpoint drop (n : nat) (s : string) : string :=
  match n, s with
  | S n', String _ r => drop n' r
  | _, _ => s
  end.

Definition expect (c : ascii) (s : string) : option string :=
  match s with
  | String d r => if Ascii.eqb c d then Some r else None
  | "" => None
  end.

Fixpoint read_value (fuel : nat) (s : string) : option (JsValue Z * string) :=
  match fuel with
  | O => None
  | S fuel =>
      match skip_ws s with
      | "" => None
      | String c r as text =>
          if Ascii.eqb c "034" then
            match read_string r with
            | Some (str, rest) => Some (JString str, rest)
            | None => None
            end
          else if Ascii.eqb c "[" then
            match skip_ws r with
            | String d r' =>
                if Ascii.eqb d "]" then Some (JArray [], r')
                else
                  match read_items fuel r with
                  | Some (items, rest) => Some (JArray items, rest)
                  | None => None
                  end
            | "" => None
            end
          else if Ascii.eqb c "{" then
            match skip_ws r with
            | String d r' =>
                if Ascii.eqb d "}" then Some (JObject [], r')
                else
                  match read_members fuel [] r with
                  | Some (props, rest) => Some (JObject props, rest)
                  | None => None
                  end
            | "" => None
            end
          else if String.prefix "null" text then Some (JNull, drop 4 text)
          else if String.prefix "true" text then Some (JBool true, drop 4 text)
          else if String.prefix "false" text then Some (JBool false, drop 5 text)
          else
            match read_number text with
            | Some (n, rest) => Some (JNumber n, rest)
            | None => None
            end
      end
  end
(** The items of an array up to and including its closing bracket. *)
with read_items (fuel : nat) (s : string) : option (list (JsValue Z) * string) :=
  match fuel with
  | O => None
  | S fuel =>
      match read_value fuel s with
      | Some (v, rest) =>
          match skip_ws rest with
          | String d r =>
              if Ascii.eqb d "]" then Some ([v], r)
              else if Ascii.eqb d "," then
                match read_items fuel r with
                | Some (vs, rest') => Some (v :: vs, rest')
                | None => None
                end
              else None
          | "" => None
          end
      | None => None
      end
  end
(** The members of an object up to and including its closing brace. *)
with read_members (fuel : nat) (acc : list (string * JsValue Z)) (s : string)
  : option (list (string * JsValue Z) * string) :=
  match fuel with
  | O => None
  | S fuel =>
      match expect "034" (skip_ws s) with
      | Some r =>
          match read_string r with
          | Some (key, rest) =>
              match expect ":" (skip_ws rest) with
              | Some rest1 =>
                  match read_value fuel rest1 with
                  | Some (v, rest2) =>
                      let acc' := set_prop key v acc in
                      match skip_ws rest2 with
                      | String d r' =>
                          if Ascii.eqb d "}" then Some (acc', r')
                          else if Ascii.eqb d "," then read_members fuel acc' r'
                          else None
                      | "" => None
                      end
                  | None => None
                  end
              | None => None
              end
          | None => None
          end
      | None => None
      end
  end.

(** [JSON.parse]: one value, with only white space around it. *)
Definition parse (text : string) : option (JsValue Z) :=
  match read_value (S (String.length text)) text with
  | Some (v, rest) => match skip_ws rest with "" => Some v | _ => None end
  | None => None
  end.

End Example.

Module ExampleWorld.
Import Example.

(** Decimal text of an integer, as [String(n)] gives it for a safe integer. *)
Definition Z_toString (n : Z) : string :=
  DecimalString.NilZero.string_of_int (Z.to_int n).

(** Absolute, normalised POSIX paths without a trailing slash resolve to
    themselves and join with a slash; the examples use no other paths. *)
Definition posix_resolve (p : string) : string := p.
Definition posix_join (parts : list string) : string := join "/" parts.

Definition node (p : Platform) (home localappdata : option string) : Runtime := {|
  number := Z;
  Number_toString := Z_toString;
  Number_truthy n := negb (Z.eqb n 0);
  Number_is_1 n := Z.eqb n 1;
  JSON_parse := parse;
  path_resolve := posix_resolve;
  path_join := posix_join;
  os_platform := p;
  env_HOME := home;
  env_LOCALAPPDATA := localappdata;
|}.

Inductive Entry :=
  | File (content : string)
  | Directory.

(** A world over an in-memory file system, where every command does [run]. *)
Definition world (fs : gmap string Entry) (run : string → ExecResult) : World := {|
  fs_existsSync p := bool_decide (is_Some (fs !! p));
  fs_statSync p :=
    match fs !! p with
    | Some Directory => Ok {| isDirectory := true |}
    | Some (File _) => Ok {| isDirectory := false |}
    | None => Throw (Error ("ENOENT: no such file or directory, stat '" +:+ p +:+ "'"))
    end;
  fs_readFileSync p :=
    match fs !! p with
    | Some (File content) => Ok content
    | Some Directory => Throw (Error "EISDIR: illegal operation on a directory, read")
    | None => Throw (Error ("ENOENT: no such file or directory, open '" +:+ p +:+ "'"))
    end;
  child_exec := run;
|}.

Definition fresh : State := {| cachedSfPath := None; trace := [] |}.

(** A string literal of JSON or of the shell. *)
Definition q (s : string) : string := dquote +:+ s +:+ dquote.

(** What [exec] reports for a command that exits with [code]. *)
Definition failed (command stderr : string) (code : Z) : ExecException := {|
  ex_message := "Command failed: " +:+ command +:+ newline +:+ stderr;
  ex_code := Some code;
|}.

Definition linux_node : Runtime := node linux (Some "/home/dev") None.

(** A project directory with its marker directory, and the CLI installed. *)
Definition project_fs : gmap string Entry :=
  {[ "/usr/bin/sf" := File "";
     "/proj" := Directory;
     "/proj/.sf" := Directory ]}.

(** The same project where [.sf] is a regular file. *)
Definition marker_file_fs : gmap string Entry :=
  {[ "/proj" := Directory;
     "/proj/.sf" := File "" ]}.

(** A child process that fails, with the given channels. *)
Definition failing (stdout stderr : string) (command : string) : ExecResult :=
  {| exec_error := Some (failed command stderr 1);
     exec_stdout := stdout;
     exec_stderr := stderr |}.

(** A child process that exits cleanly, with the given channels. *)
Definition exiting (stdout stderr : string) (command : string) : ExecResult :=
  {| exec_error := None; exec_stdout := stdout; exec_stderr := stderr |}.

(** [{"message":"Deploy failed\nSee the log","actions":["Retry"],"stack":"at deploy"}],
    the message holding an escaped line feed. *)
Definition details_text : string :=
  "{" +:+ q "message" +:+ ":" +:+ q "Deploy failed\nSee the log" +:+ ","
      +:+ q "actions" +:+ ":[" +:+ q "Retry" +:+ "],"
      +:+ q "stack" +:+ ":" +:+ q "at deploy" +:+ "}".

Definition details_message : string := "Deploy failed" +:+ newline +:+ "See the log".

Definition details_props : list (string * JsValue Z) :=
  [("message", JString details_message);
   ("actions", JArray (map JString ["Retry"]));
   ("stack", JString "at deploy")].

(** [{"message":"plugin: command not found\nreinstall it"}] *)
Definition not_found_text : string :=
  "{" +:+ q "message" +:+ ":" +:+ q "plugin: command not found\nreinstall it" +:+ "}".

(** [{"message":"Deploy failed\nSee the log","actions":"Retry"}]: the
    actions are not an array. *)
Definition odd_actions_text : string :=
  "{" +:+ q "message" +:+ ":" +:+ q "Deploy failed\nSee the log" +:+ ","
      +:+ q "actions" +:+ ":" +:+ q "Retry" +:+ "}".

End ExampleWorld.

(** ** The tool functions that call the command layer *)

Section Tools.
Context `{rt : Runtime}.

(** [await p] in an async function: a rejection is thrown at that point. *)
Definition await {A} (m : M (Promise A)) : M A :=
  let* p := m in
  match p with
  | Resolved a => ret a
  | Rejected e => throw e
  end.

(** An async function: what the body throws rejects the promise. *)
Definition async {A} (body : M A) : M (Promise A) :=
  λ st, match body st with
        | (Ok a, st') => (Ok (Resolved a), st')
        | (Throw e, st') => (Ok (Rejected e), st')
        end.

(** [v.key] for a [v] that may be [undefined], with [key] as for [get_field]. *)
Definition get_member (v : Value) (key : string) : result Value :=
  match v with
  | None =>
      Throw (TypeError ("Cannot read properties of undefined (reading '" +:+ key +:+ "')"))
  | Some x => get_field x key
  end.

(** [if (c) command += text] *)
Definition append_when (c : bool) (text command : string) : string :=
  if c then command +:+ text else command.

(** [o] is a non-empty string. *)
Definition given (o : option string) : bool :=
  match o with
  | Some s => truthy s
  | None => false
  end.

(** [l && l.length > 0] *)
Definition some_items (o : option (list string)) : bool :=
  match o with
  | Some (_ :: _) => true
  | _ => false
  end.

(** A flag that is [undefined] or a boolean. *)
Definition flag (o : option bool) : bool := default false o.

(** The string an optional argument contributes to a template. *)
Definition text_of (o : option string) : string := default "undefined" o.
Definition items_of (o : option (list string)) : list string := default [] o.

(** [l.forEach((x) => { command += ` --flag "${x}"` })] *)
Definition append_each (flag : string) (l : list string) (command : string) : string :=
  fold_left (λ c x, c +:+ flag +:+ dquote +:+ x +:+ dquote) l command.

(** *** tools/scanner.js *)

(** The command line [runScanner] assembles. *)
Definition runScanner_command
    (target category engine : option (list string))
    (eslintConfig pmdConfig tsConfig format outfile : option string)
    (severityThreshold : option number) (normalizeSeverity : option bool)
    (projectDir : option (list string)) (verbose verboseViolations : option bool) : string :=
  let command := "sf scanner run" in
  let command := append_when (some_items target)
    (" --target " +:+ dquote +:+ join "," (items_of target) +:+ dquote) command in
  let command := append_when (some_items category)
    (" --category " +:+ dquote +:+ join "," (items_of category) +:+ dquote) command in
  let command := append_when (some_items engine)
    (" --engine " +:+ dquote +:+ join "," (items_of engine) +:+ dquote) command in
  let command := append_when (given eslintConfig)
    (" --eslintconfig " +:+ dquote +:+ text_of eslintConfig +:+ dquote) command in
  let command := append_when (given pmdConfig)
    (" --pmdconfig " +:+ dquote +:+ text_of pmdConfig +:+ dquote) command in
  let command := append_when (given tsConfig)
    (" --tsconfig " +:+ dquote +:+ text_of tsConfig +:+ dquote) command in
  let command := append_when (given format) (" --format " +:+ text_of format) command in
  let command := append_when (given outfile)
    (" --outfile " +:+ dquote +:+ text_of outfile +:+ dquote) command in
  let command :=
    match severityThreshold with
    | Some n => command +:+ " --severity-threshold " +:+ Number_toString n
    | None => command
    end in
  let command := append_when (flag normalizeSeverity) " --normalize-severity" command in
  let command := append_when (some_items projectDir)
    (" --projectdir " +:+ dquote +:+ join "," (items_of projectDir) +:+ dquote) command in
  let command := append_when (flag verbose) " --verbose" command in
  append_when (flag verboseViolations) " --verbose-violations" command.

Definition runScanner (w : World) (sourcePath : string)
    (target category engine : option (list string))
    (eslintConfig pmdConfig tsConfig format outfile : option string)
    (severityThreshold : option number) (normalizeSeverity : option bool)
    (projectDir : option (list string)) (verbose verboseViolations : option bool)
  : M (Promise string) :=
  async (
    let command := runScanner_command target category engine eslintConfig pmdConfig
                     tsConfig format outfile severityThreshold normalizeSeverity
                     projectDir verbose verboseViolations in
    await (executeSfCommandInProjectRaw w command sourcePath)).

(** The command line [runScannerDfa] assembles. *)
Definition runScannerDfa_command
    (target projectDir category : option (list string))
    (format outfile : option string) (severityThreshold : option number)
    (normalizeSeverity withPilot verbose : option bool)
    (ruleThreadCount ruleThreadTimeout : option number)
    (ruleDisableWarningViolation : option bool) (sfgeJvmArgs : option string)
    (pathExpLimit : option number) : string :=
  let number_flag flag (o : option number) command :=
    match o with
    | Some n => command +:+ flag +:+ Number_toString n
    | None => command
    end in
  let command := "sf scanner run dfa" in
  let command := append_when (some_items target)
    (" --target " +:+ dquote +:+ join "," (items_of target) +:+ dquote) command in
  let command := append_when (some_items projectDir)
    (" --projectdir " +:+ dquote +:+ join "," (items_of projectDir) +:+ dquote) command in
  let command := append_when (some_items category)
    (" --category " +:+ dquote +:+ join "," (items_of category) +:+ dquote) command in
  let command := append_when (given format) (" --format " +:+ text_of format) command in
  let command := append_when (given outfile)
    (" --outfile " +:+ dquote +:+ text_of outfile +:+ dquote) command in
  let command := number_flag " --severity-threshold " severityThreshold command in
  let command := append_when (flag normalizeSeverity) " --normalize-severity" command in
  let command := append_when (flag withPilot) " --with-pilot" command in
  let command := append_when (flag verbose) " --verbose" command in
  let command := number_flag " --rule-thread-count " ruleThreadCount command in
  let command := number_flag " --rule-thread-timeout " ruleThreadTimeout command in
  let command := append_when (flag ruleDisableWarningViolation)
    " --rule-disable-warning-violation" command in
  let command := append_when (given sfgeJvmArgs)
    (" --sfgejvmargs " +:+ dquote +:+ text_of sfgeJvmArgs +:+ dquote) command in
  number_flag " --pathexplimit " pathExpLimit command.

Definition runScannerDfa (w : World) (sourcePath : string)
    (target projectDir category : option (list string))
    (format outfile : option string) (severityThreshold : option number)
    (normalizeSeverity withPilot verbose : option bool)
    (ruleThreadCount ruleThreadTimeout : option number)
    (ruleDisableWarningViolation : option bool) (sfgeJvmArgs : option string)
    (pathExpLimit : option number) : M (Promise string) :=
  async (
    let command := runScannerDfa_command target projectDir category format outfile
                     severityThreshold normalizeSeverity withPilot verbose
                     ruleThreadCount ruleThreadTimeout ruleDisableWarningViolation
                     sfgeJvmArgs pathExpLimit in
    await (executeSfCommandInProjectRaw w command sourcePath)).

(** *** tools/code-analyzer.js *)

Definition runCodeAnalyzer_command
    (workspace target : option (list string)) (outputFile : option string)
    (ruleSelector : option (list string)) (severity configFile : option string) : string :=
  let command := "sf code-analyzer run" in
  let command :=
    if some_items workspace then append_each " --workspace " (items_of workspace) command
    else command in
  let command :=
    if some_items target then append_each " --target " (items_of target) command
    else command in
  let command := append_when (given outputFile)
    (" --output-file " +:+ dquote +:+ text_of outputFile +:+ dquote) command in
  let command :=
    if some_items ruleSelector
    then append_each " --rule-selector " (items_of ruleSelector) command
    else command in
  let command := append_when (given severity)
    (" --severity-threshold " +:+ text_of severity) command in
  append_when (given configFile)
    (" --config-file " +:+ dquote +:+ text_of configFile +:+ dquote) command.

Definition runCodeAnalyzer (w : World) (sourcePath : string)
    (workspace target : option (list string)) (outputFile : option string)
    (ruleSelector : option (list string)) (severity configFile : option string)
  : M (Promise string) :=
  async (
    let command := runCodeAnalyzer_command workspace target outputFile ruleSelector
                     severity configFile in
    await (executeSfCommandInProjectRaw w command sourcePath)).

Definition listCodeAnalyzerRules_command
    (workspace target : option (list string)) (configFile : option string)
    (ruleSelector : option (list string)) (view : option string) : string :=
  let command := "sf code-analyzer rules" in
  let command :=
    if some_items workspace then append_each " --workspace " (items_of workspace) command
    else command in
  let command :=
    if some_items target then append_each " --target " (items_of target) command
    else command in
  let command := append_when (given configFile)
    (" --config-file " +:+ dquote +:+ text_of configFile +:+ dquote) command in
  let command :=
    if some_items ruleSelector
    then append_each " --rule-selector " (items_of ruleSelector) command
    else command in
  append_when (given view) (" --view " +:+ text_of view) command.

Definition listCodeAnalyzerRules (w : World) (sourcePath : string)
    (workspace target : option (list string)) (configFile : option string)
    (ruleSelector : option (list string)) (view : option string)
  : M (Promise string) :=
  async (
    let command := listCodeAnalyzerRules_command workspace target configFile
                     ruleSelector view in
    await (executeSfCommandInProjectRaw w command sourcePath)).

(** *** tools/query.js *)

(** The query text [executeSoqlQuery] assembles. *)
Definition soql_query (sObject selectClause : string) (where_ : option string)
    (limit : option number) (orderBy : option string) : string :=
  let query := "SELECT " +:+ selectClause +:+ " FROM " +:+ sObject in
  let query := append_when (given where_) (" WHERE " +:+ text_of where_) query in
  let query := append_when (given orderBy) (" ORDER BY " +:+ text_of orderBy) query in
  match limit with
  | Some n => if Number_truthy n then query +:+ " LIMIT " +:+ Number_toString n else query
  | None => query
  end.

(** [result.result.records || []] *)
Definition records_of (cliResult : JsValue number) : result Value :=
  let? inner := get_field cliResult "result" in
  let? records := get_member inner "records" in
  Ok (or_value records (Some (JArray []))).

Definition executeSoqlQuery (w : World) (sourcePath sObject selectClause : string)
    (targetOrg where_ : option string) (limit : option number)
    (orderBy : option string) : M (Promise Value) :=
  async (
    let query := soql_query sObject selectClause where_ limit orderBy in
    let* sfCommand :=
      buildSfCommand w ("sf data query --query " +:+ dquote +:+ query +:+ dquote)
        targetOrg (Some sourcePath) in
    try_catch
      (let* result := await (executeSfCommandInProject w sfCommand sourcePath) in
       lift (records_of result))
      (λ error, throw error)).

Definition executeSoqlQueryRaw (w : World) (sourcePath query : string)
    (targetOrg : option string) : M (Promise Value) :=
  async (
    if negb (truthy query) || String.eqb (trim query) "" then
      throw (Error "Query cannot be empty")
    else
      let* sfCommand :=
        buildSfCommand w ("sf data query --query " +:+ dquote +:+ query +:+ dquote)
          targetOrg (Some sourcePath) in
      try_catch
        (let* result := await (executeSfCommandInProject w sfCommand sourcePath) in
         lift (records_of result))
        (λ error, throw error)).

(** *** tools/search.ts *)

Definition executeSoslQuery (w : World) (sourcePath : string)
    (targetOrg query file : option string) : M (Promise (JsValue number)) :=
  async (
    let* sfCommand :=
      if given query then
        buildSfCommand w ("sf data search --query " +:+ dquote +:+ text_of query +:+ dquote)
          targetOrg (Some sourcePath)
      else if given file then
        buildSfCommand w ("sf data search --file " +:+ dquote +:+ text_of file +:+ dquote)
          targetOrg (Some sourcePath)
      else throw (Error "Either query or file must be provided") in
    try_catch
      (let* result := await (executeSfCommandInProjectRaw w sfCommand sourcePath) in
       match JSON_parse result with
       | Some parsed => ret parsed
       | None => ret (JObject [("searchRecords", JArray []); ("rawOutput", JString result)])
       end)
      (λ error, throw error)).

(** *** tools/schema.ts *)


End Tools.

(** ** shared/connection.js: the authenticated orgs *)

Module Orgs.

(** An error object, as far as the code looks at it: [name] and [message]. *)
Record NamedError := {
  name : string;
  message : string;
}.

(** [new Error(message)] *)
Definition new_Error (message : string) : NamedError :=
  {| name := "Error"; message := message |}.

(** What an async call of the library settles to. *)
Inductive outcome (A : Type) :=
  | Returns (a : A)
  | Raises (e : NamedError).
Arguments Returns {A} a.
Arguments Raises {A} e.

Definition and_then {A B} (o : outcome A) (k : A → outcome B) : outcome B :=
  match o with
  | Returns a => k a
  | Raises e => Raises e
  end.

(** [try { o } catch (error) { h error }] *)
Definition catching {A} (o : outcome A) (h : NamedError → outcome A) : outcome A :=
  match o with
  | Returns a => Returns a
  | Raises e => h e
  end.

(** The fields of an [OrgAuthorization] that the code reads; [None] is
    [null] or [undefined]. *)
Record OrgAuthorization := {
  username : string;
  aliases : option (list string);
  orgId : string;
  instanceUrl : option string;
  isDevHub : option bool;
}.

Record Connection := {
  version : string;
  accessToken : option string;
}.

(** @salesforce/core, as the code calls it. *)
Record SfCore := {
  AuthInfo : Type;
  listAllAuthorizations : outcome (list OrgAuthorization);
  AuthInfo_create : string → outcome AuthInfo;
  Connection_create : AuthInfo → outcome Connection;
}.

(** An entry of the list [listAllOrgs] returns; the fields [targetOrg] and
    [apiVersion] are absent ([None]) when no connection could be made. *)
Record OrgInfo := {
  org_username : string;
  org_aliases : option (list string);
  org_targetOrg : option string;
  org_orgId : string;
  org_instanceUrl : option string;
  org_isDevHub : option bool;
  org_apiVersion : option string;
}.

(** The callback of [allAuthorizations.map]. *)
Definition describe (sf : SfCore) (auth : OrgAuthorization) : OrgInfo :=
  match and_then (AuthInfo_create sf (username auth)) (Connection_create sf) with
  | Returns connection =>
      {| org_username := username auth;
         org_aliases := aliases auth;
         org_targetOrg :=
           match aliases auth with
           | Some (first :: _) => Some first
           | _ => None
           end;
         org_orgId := orgId auth;
         org_instanceUrl := instanceUrl auth;
         org_isDevHub := isDevHub auth;
         org_apiVersion := Some (version connection) |}
  | Raises _ =>
      {| org_username := username auth;
         org_aliases := aliases auth;
         org_targetOrg := None;
         org_orgId := orgId auth;
         org_instanceUrl := instanceUrl auth;
         org_isDevHub := isDevHub auth;
         org_apiVersion := None |}
  end.

Definition listAllOrgs (sf : SfCore) : outcome (list OrgInfo) :=
  catching
    (and_then (listAllAuthorizations sf) (λ allAuthorizations,
       Returns (map (describe sf) allAuthorizations)))
    (λ error,
       if String.eqb (name error) "NoAuthInfoFound" then Returns []
       else Raises error).

(** [l.includes(x)] on an array of strings *)
Definition array_includes (l : list string) (x : string) : bool :=
  existsb (String.eqb x) l.

(** [org.username === targetOrg || (org.aliases && org.aliases.includes(targetOrg))] *)
Definition names_org (targetOrg : string) (org : OrgInfo) : bool :=
  String.eqb (org_username org) targetOrg
  || match org_aliases org with
     | Some l => array_includes l targetOrg
     | None => false
     end.

(** The same test on an authorization. *)
Definition names_auth (targetOrg : string) (auth : OrgAuthorization) : bool :=
  String.eqb (username auth) targetOrg
  || match aliases auth with
     | Some l => array_includes l targetOrg
     | None => false
     end.

Definition isOrgAuthenticated (sf : SfCore) (targetOrg : string) : outcome bool :=
  catching
    (and_then (listAllOrgs sf) (λ allOrgs,
       Returns (existsb (names_org targetOrg) allOrgs)))
    (λ _, Returns false).

(** [null] is [None]. *)
Definition getOrgInfo (sf : SfCore) (targetOrg : string) : outcome (option OrgInfo) :=
  catching
    (and_then (listAllOrgs sf) (λ allOrgs,
       Returns (List.find (names_org targetOrg) allOrgs)))
    (λ _, Returns None).

Definition getOrgAccessToken (sf : SfCore) (targetOrg : string) : outcome string :=
  catching
    (and_then (listAllAuthorizations sf) (λ allAuthorizations,
       match List.find (names_auth targetOrg) allAuthorizations with
       | None =>
           Raises (new_Error ("No authenticated org found for '" +:+ targetOrg +:+ "'. "
                              +:+ "Please run 'sf org login' or 'sf org create' first."))
       | Some foundOrg =>
           and_then (AuthInfo_create sf (username foundOrg)) (λ authInfo,
           and_then (Connection_create sf authInfo) (λ connection,
             Returns (match accessToken connection with
                      | Some (String _ _ as token) => token
                      | _ => ""
                      end)))
       end))
    (λ error,
       if String.eqb (name error) "NoAuthInfoFound" then
         Raises (new_Error ("No authenticated orgs found. Please run "
                            +:+ dquote +:+ "sf org login" +:+ dquote
                            +:+ " to authenticate."))
       else Raises error).

(** *** tools/orgs.js: [listConnectedSalesforceOrgs] *)

Definition is_hub (org : OrgInfo) : bool := default false (org_isDevHub org).

(** [org.instanceUrl?.includes(part)], [undefined] counting as false *)
Definition url_includes (org : OrgInfo) (part : string) : bool :=
  match org_instanceUrl org with
  | Some url => includes url part
  | None => false
  end.

Definition is_scratch (org : OrgInfo) : bool :=
  negb (is_hub org) && truthy (org_orgId org).
Definition is_sandbox (org : OrgInfo) : bool :=
  negb (is_hub org) && url_includes org ".sandbox.".
Definition is_production (org : OrgInfo) : bool :=
  negb (is_hub org) && negb (url_includes org ".sandbox.")
  && url_includes org ".salesforce.com".

(** The value of the [result] field. *)
Record OrgSummary := {
  devHubOrgs : list OrgInfo;
  production : list OrgInfo;
  sandboxes : list OrgInfo;
  scratchOrgs : list OrgInfo;
  totalOrgs : nat;
}.

Definition listConnectedSalesforceOrgs (sf : SfCore) : outcome OrgSummary :=
  and_then (listAllOrgs sf) (λ orgs,
    Returns {| devHubOrgs := List.filter is_hub orgs;
               production := List.filter is_production orgs;
               sandboxes := List.filter is_sandbox orgs;
               scratchOrgs := List.filter is_scratch orgs;
               totalOrgs := length orgs |}).

End Orgs.

(** A concrete library for the examples: three authorizations, the second
    of which cannot be connected to. *)
Module ExampleOrgs.
Import Orgs.

Definition hub : OrgAuthorization :=
  {| username := "admin@hub.example"; aliases := Some ["hub"; "main"];
     orgId := "00D1"; instanceUrl := Some "https://hub.my.salesforce.com";
     isDevHub := Some true |}.
Definition sandbox : OrgAuthorization :=
  {| username := "dev@corp.example"; aliases := None;
     orgId := "00D2"; instanceUrl := Some "https://corp--dev.sandbox.my.salesforce.com";
     isDevHub := Some false |}.
Definition prod : OrgAuthorization :=
  {| username := "ops@corp.example"; aliases := Some [];
     orgId := "00D3"; instanceUrl := Some "https://corp.my.salesforce.com";
     isDevHub := None |}.

Definition core (listing : outcome (list OrgAuthorization)) : SfCore :=
  {| AuthInfo := string;
     listAllAuthorizations := listing;
     AuthInfo_create u :=
       if String.eqb u "dev@corp.example"
       then Raises {| name := "NamedOrgNotFound"; message := "No authorization information found" |}
       else Returns u;
     Connection_create u :=
       Returns {| version := "61.0";
                  accessToken := if String.eqb u "admin@hub.example" then Some "token-1" else None |} |}.

Definition three : SfCore := core (Returns [hub; sandbox; prod]).

End ExampleOrgs.

(** More of the example world: a project without the CLI installed, a
    project with a local configuration, and a file system that refuses
    [stat]. *)
Module ExampleProjects.
Import ExampleWorld.

Definition bare_fs : gmap string Entry :=
  {[ "/proj" := Directory;
     "/proj/.sf" := Directory ]}.

(** [{"defaultusername":"dev@corp.example"}] *)
Definition config_text : string :=
  "{" +:+ q "defaultusername" +:+ ":" +:+ q "dev@corp.example" +:+ "}".

Definition configured_fs : gmap string Entry :=
  {[ "/usr/bin/sf" := File "";
     "/proj" := Directory;
     "/proj/.sf" := Directory;
     "/proj/.sfdx/sfdx-config.json" := File config_text ]}.

(** Every path exists, and none may be inspected or read. *)
Definition locked (run : string → ExecResult) : World := {|
  fs_existsSync p := true;
  fs_statSync p := Throw (Error ("EACCES: permission denied, stat '" +:+ p +:+ "'"));
  fs_readFileSync p := Throw (Error ("EACCES: permission denied, open '" +:+ p +:+ "'"));
  child_exec := run;
|}.

(** [{"status":1,"name":"NoOrgFound","message":"No org found","actions":["Run sf org login"]}],
    what the CLI prints with --json when it fails. *)
Definition failure_text : string :=
  "{" +:+ q "status" +:+ ":1," +:+ q "name" +:+ ":" +:+ q "NoOrgFound" +:+ ","
      +:+ q "message" +:+ ":" +:+ q "No org found" +:+ ","
      +:+ q "actions" +:+ ":[" +:+ q "Run sf org login" +:+ "]}".

Definition failure_props : list (string * JsValue Z) :=
  [("status", JNumber 1%Z);
   ("name", JString "NoOrgFound");
   ("message", JString "No org found");
   ("actions", JArray (map JString ["Run sf org login"]))].

End ExampleProjects.

(** ** Strings *)

Section StringFacts.

Lemma append_cons (c : ascii) (s t : string) : String c s +:+ t = String c (s +:+ t).
Proof. reflexivity. Qed.

Lemma append_empty_l (s : string) : "" +:+ s = s.
Proof. reflexivity. Qed.

Lemma append_empty_r (s : string) : s +:+ "" = s.
Proof. induction s as [|c s IH]; [reflexivity|]. rewrite append_cons, IH. reflexivity. Qed.

Lemma append_assoc (a b c : string) : (a +:+ b) +:+ c = a +:+ b +:+ c.
Proof.
  induction a as [|x a IH]; [reflexivity|].
  rewrite !append_cons, IH. reflexivity.
Qed.

Lemma prefix_app (x y : string) : String.prefix x (x +:+ y) = true.
Proof.
  induction x as [|c x IH]; simpl.
  - destruct y; reflexivity.
  - destruct (ascii_dec c c); [exact IH | congruence].
Qed.

Lemma prefix_app_l (x a b : string) :
  String.prefix x a = true → String.prefix x (a +:+ b) = true.
Proof.
  revert a. induction x as [|c x IH]; intros a H.
  - destruct (a +:+ b); reflexivity.
  - destruct a as [|d a]; [discriminate|].
    rewrite append_cons. simpl in *.
    destruct (ascii_dec c d); [auto | discriminate].
Qed.

Lemma includes_prefix (s x : string) : String.prefix x s = true → includes s x = true.
Proof. intros H. destruct s; simpl in *; rewrite H; reflexivity. Qed.

Lemma includes_app_l (a b x : string) :
  includes a x = true → includes (a +:+ b) x = true.
Proof.
  induction a as [|c a IH]; intros H.
  - simpl in H. rewrite orb_false_r in H.
    apply includes_prefix. rewrite append_empty_l.
    destruct x; [destruct b; reflexivity | discriminate].
  - rewrite append_cons. simpl in *.
    apply orb_true_iff in H as [H|H].
    + apply (prefix_app_l _ (String c a) b) in H. rewrite append_cons in H.
      simpl in H. rewrite H. reflexivity.
    + rewrite (IH H). apply orb_true_r.
Qed.

Lemma includes_app_r (a b x : string) :
  includes b x = true → includes (a +:+ b) x = true.
Proof.
  intros H. induction a as [|c a IH]; [exact H|].
  rewrite append_cons. simpl. rewrite IH. apply orb_true_r.
Qed.

Lemma includes_refl (x : string) : includes x x = true.
Proof.
  apply includes_prefix. rewrite <- (append_empty_r x) at 2. apply prefix_app.
Qed.

(** The text between two others is included in the whole. *)
Lemma includes_middle (a x b : string) : includes (a +:+ x +:+ b) x = true.
Proof. apply includes_app_r, includes_app_l, includes_refl. Qed.

Lemma includes_join (sep x : string) (l : list string) :
  In x l → includes (join sep l) x = true.
Proof.
  induction l as [|y l IH]; intros Hin; [destruct Hin|].
  destruct Hin as [->|Hin].
  - destruct l; [apply includes_refl | apply includes_app_l, includes_refl].
  - destruct l as [|z l]; [destruct Hin|].
    change (join sep (y :: z :: l)) with (y +:+ sep +:+ join sep (z :: l)).
    apply includes_app_r, includes_app_r, IH, Hin.
Qed.

End StringFacts.

(** ** The executable resolver *)

Section Resolver.
Context `{rt : Runtime}.

Lemma executed_app (a b : list Event) : executed (a ++ b) = executed a ++ executed b.
Proof. unfold executed. apply omap_app. Qed.

Lemma existsSync_run (w : World) (p : string) (st : State) :
  existsSync w p st = (Ok (fs_existsSync w p), logged st (EvExists p)).
Proof. reflexivity. Qed.

Lemma exec_run (w : World) (c : string) (st : State) :
  exec w c st = (Ok (child_exec w c), logged st (EvExec c)).
Proof. reflexivity. Qed.

Lemma executed_logged_probe (st : State) (p : string) :
  executed (trace (logged st (EvExists p))) = executed (trace st).
Proof. simpl. rewrite executed_app. simpl. apply app_nil_r. Qed.

(** The loop never throws and runs no command; it stops at the first
    truthy candidate that exists, caching it. *)
Lemma findSfPath_loop_spec (w : World) (paths : list string) (st : State) :
  ∃ r st', findSfPath_loop w paths st = (Ok r, st')
    ∧ executed (trace st') = executed (trace st)
    ∧ match r with
      | Some p =>
          truthy p = true ∧ cachedSfPath st' = Some p
          ∧ ∃ before after, paths = before ++ p :: after
              ∧ fs_existsSync w p = true
              ∧ Forall (λ x, truthy x = true → fs_existsSync w x = false) before
      | None =>
          cachedSfPath st' = cachedSfPath st
          ∧ Forall (λ x, truthy x = true → fs_existsSync w x = false) paths
      end.
Proof.
  revert st. induction paths as [|path rest IH]; intros st.
  - exists None, st. repeat split; auto.
  - simpl. destruct (truthy path) eqn:Hpath.
    + unfold bind at 1. rewrite existsSync_run.
      destruct (fs_existsSync w path) eqn:Hex.
      * exists (Some path). eexists. split; [reflexivity|].
        split; [apply executed_logged_probe|].
        repeat split; auto.
        exists [], rest. repeat split; auto.
      * destruct (IH (logged st (EvExists path))) as (r & st' & Hrun & Hexec & Hr).
        exists r, st'. split; [exact Hrun|].
        split; [rewrite Hexec; apply executed_logged_probe|].
        destruct r as [p|].
        -- destruct Hr as (Hp & Hc & before & after & -> & Hpe & Hbefore).
           repeat split; auto.
           exists (path :: before), after. repeat split; auto.
        -- destruct Hr as [Hc Hall]. split; auto.
    + destruct (IH st) as (r & st' & Hrun & Hexec & Hr).
      exists r, st'. repeat split; auto.
      destruct r as [p|].
      * destruct Hr as (Hp & Hc & before & after & -> & Hpe & Hbefore).
        repeat split; auto.
        exists (path :: before), after. repeat split; auto.
        constructor; auto. congruence.
      * destruct Hr as [Hc Hall]. split; auto.
        constructor; auto. congruence.
Qed.

(** [findSfPath] never throws, runs no command, and leaves a truthy path
    in the cache. *)
Lemma findSfPath_spec (w : World) (st : State) :
  ∃ p st', findSfPath w st = (Ok p, st')
    ∧ executed (trace st') = executed (trace st)
    ∧ truthy p = true
    ∧ cachedSfPath st' = Some p.
Proof.
  unfold findSfPath. unfold bind at 1. unfold get_cache.
  destruct (cachedSfPath st) as [[|c p]|] eqn:Hc.
  - destruct (findSfPath_loop_spec w pathsToCheck st) as (r & st' & Hrun & Hexec & Hr).
    unfold bind. rewrite Hrun. destruct r as [p|].
    + exists p, st'. destruct Hr as (Hp & Hcache & _). auto.
    + eexists _, _. split; [reflexivity|]. auto.
  - exists (String c p), st. auto.
  - destruct (findSfPath_loop_spec w pathsToCheck st) as (r & st' & Hrun & Hexec & Hr).
    unfold bind. rewrite Hrun. destruct r as [p|].
    + exists p, st'. destruct Hr as (Hp & Hcache & _). auto.
    + eexists _, _. split; [reflexivity|]. auto.
Qed.

(** Once a truthy path is cached, [findSfPath] returns it and does nothing. *)
Lemma findSfPath_cached (w : World) (st : State) (p : string) :
  cachedSfPath st = Some p → truthy p = true → findSfPath w st = (Ok p, st).
Proof.
  intros Hc Hp. unfold findSfPath, bind, get_cache. rewrite Hc.
  destruct p; [discriminate | reflexivity].
Qed.

Lemma env_concat_truthy (v : option string) (suffix : string) :
  truthy suffix = true → truthy (env_concat v suffix) = true.
Proof.
  unfold env_concat. intros H.
  destruct (default "undefined" v); [exact H | reflexivity].
Qed.

(** Every candidate of every family is a non-empty string. *)
Lemma COMMON_SF_PATHS_truthy (p : Platform) (candidates : list string) :
  COMMON_SF_PATHS p = Some candidates → Forall (λ x, truthy x = true) candidates.
Proof.
  destruct p; simpl; intros [= <-];
    repeat (constructor; [first [reflexivity | apply env_concat_truthy; reflexivity]|]);
    constructor.
Qed.

(** The other families are probed with the list of linux. *)
Lemma pathsToCheck_fallback :
  COMMON_SF_PATHS os_platform = None →
  COMMON_SF_PATHS linux = Some pathsToCheck.
Proof. unfold pathsToCheck. intros ->. reflexivity. Qed.

(** C5: for every supported operating-system family, the first resolution
    (empty cache) returns the first candidate of that family's ordered list
    that exists on the file system, and the bare name "sf" when none does. *)
Theorem findSfPath_first_existing_candidate
    (w : World) (st : State) (candidates : list string) :
  COMMON_SF_PATHS os_platform = Some candidates →
  cachedSfPath st = None →
  ∃ p st', findSfPath w st = (Ok p, st')
    ∧ ((∃ before after, candidates = before ++ p :: after
          ∧ fs_existsSync w p = true
          ∧ Forall (λ x, fs_existsSync w x = false) before)
       ∨ (Forall (λ x, fs_existsSync w x = false) candidates ∧ p = "sf")).
Proof.
  intros Hfamily Hcache.
  pose proof (COMMON_SF_PATHS_truthy _ _ Hfamily) as Htruthy.
  unfold findSfPath. unfold bind at 1. unfold get_cache. rewrite Hcache.
  unfold pathsToCheck. rewrite Hfamily.
  destruct (findSfPath_loop_spec w candidates st) as (r & st' & Hrun & _ & Hr).
  unfold bind. rewrite Hrun. destruct r as [p|].
  - exists p, st'. split; [reflexivity|]. left.
    destruct Hr as (_ & _ & before & after & -> & Hex & Hbefore).
    exists before, after. repeat split; auto.
    apply Forall_app in Htruthy as [Htruthy _].
    rewrite Forall_forall in *. auto.
  - eexists _, _. split; [reflexivity|]. right.
    destruct Hr as [_ Hall]. split; [|reflexivity].
    rewrite Forall_forall in *. auto.
Qed.

(** C6: the cache is never invalidated.  Whatever the file system is at the
    first call ([w1]) and at the second ([w2]), and whatever the state
    before, the second call returns the value of the first and leaves the
    state as it was: no probe is made, the cache is not written. *)
Theorem findSfPath_cache_never_invalidated (w1 w2 : World) (st : State) :
  ∃ p st1, findSfPath w1 st = (Ok p, st1) ∧ findSfPath w2 st1 = (Ok p, st1).
Proof.
  destruct (findSfPath_spec w1 st) as (p & st1 & Hrun & _ & Hp & Hc).
  exists p, st1. split; [exact Hrun|].
  apply findSfPath_cached; assumption.
Qed.

End Resolver.

(** ** The precondition validator *)

Section Validator.
Context `{rt : Runtime}.

Lemma all_space_rev_app (s acc : string) :
  all_space (String.rev_app s acc) = all_space s && all_space acc.
Proof.
  revert acc. induction s as [|c s IH]; intros acc; simpl; [reflexivity|].
  rewrite IH. simpl. destruct (is_space c), (all_space s); reflexivity.
Qed.

Lemma all_space_rev (s : string) : all_space (String.rev s) = all_space s.
Proof. unfold String.rev. rewrite all_space_rev_app. simpl. apply andb_true_r. Qed.

Lemma trimStart_empty (s : string) : trimStart s = "" ↔ all_space s = true.
Proof.
  induction s as [|c s IH]; simpl; [tauto|].
  destruct (is_space c); simpl; [exact IH|]. split; discriminate.
Qed.

Lemma all_space_trimStart (s : string) :
  all_space s = false → all_space (trimStart s) = false.
Proof.
  induction s as [|c s IH]; simpl; [discriminate|].
  destruct (is_space c) eqn:Hc; simpl; [exact IH|].
  intros _. rewrite Hc. reflexivity.
Qed.

Lemma rev_empty (s : string) : String.rev s = "" ↔ s = "".
Proof.
  split; [|intros ->; reflexivity].
  intros H. apply (f_equal all_space) in H as Hs.
  destruct s as [|c s]; [reflexivity|]. exfalso.
  unfold String.rev in H. simpl in H.
  assert (Hlen : ∀ t acc, String.length (String.rev_app t acc)
                          = (String.length t + String.length acc)%nat).
  { clear. induction t as [|d t IH]; intros acc; simpl; [reflexivity|].
    rewrite IH. simpl. lia. }
  apply (f_equal String.length) in H. rewrite Hlen in H. simpl in H. lia.
Qed.

(** [s.trim() === ""] exactly when [s] is empty or white space only. *)
Lemma trim_empty (s : string) : trim s = "" ↔ all_space s = true.
Proof.
  unfold trim. rewrite rev_empty, trimStart_empty, all_space_rev.
  split.
  - intros H. destruct (all_space s) eqn:Hs; [reflexivity|].
    apply all_space_trimStart in Hs. congruence.
  - intros H. apply trimStart_empty in H. rewrite H. reflexivity.
Qed.

(** The first test of [validateProjectPath]. *)
Lemma blank_path (s : string) :
  negb (truthy s) || String.eqb (trim s) "" = all_space s.
Proof.
  destruct (all_space s) eqn:Hs.
  - apply trim_empty in Hs. rewrite Hs. apply orb_true_r.
  - destruct s as [|c s]; [discriminate|]. simpl negb.
    destruct (String.eqb (trim (String c s)) "") eqn:He; [|reflexivity].
    apply String.eqb_eq, trim_empty in He. congruence.
Qed.

(** What [validateProjectPath] does, check by check. *)
Lemma validateProjectPath_run (w : World) (projectPath : string) (st : State) :
  let resolvedPath := path_resolve projectPath in
  let st1 := logged st (EvExists resolvedPath) in
  let st2 := logged st1 (EvStat resolvedPath) in
  let st3 := logged st2 (EvExists (path_join [resolvedPath; ".sf"])) in
  validateProjectPath w projectPath st =
    if all_space projectPath then
      (Throw (Error "Project path cannot be empty"), st)
    else if negb (fs_existsSync w resolvedPath) then
      (Throw (Error ("Project path does not exist: " +:+ resolvedPath)), st1)
    else
      match fs_statSync w resolvedPath with
      | Throw e =>
          (Throw (Error ("Cannot access project path: " +:+ error_message e)), st2)
      | Ok stats =>
          if negb (isDirectory stats) then
            (Throw (Error ("Cannot access project path: "
                           +:+ "Project path is not a directory: " +:+ resolvedPath)), st2)
          else if negb (fs_existsSync w (path_join [resolvedPath; ".sf"])) then
            (Throw (Error ("Project path does not contain .sf directory. "
                           +:+ "Please ensure this is a valid Salesforce DX project: "
                           +:+ resolvedPath)), st3)
          else (Ok (), st3)
      end.
Proof.
  intros resolvedPath st1 st2 st3.
  unfold validateProjectPath. rewrite blank_path.
  destruct (all_space projectPath); [reflexivity|].
  fold resolvedPath. unfold bind at 1. rewrite existsSync_run. fold st1.
  destruct (fs_existsSync w resolvedPath); simpl; [|reflexivity].
  unfold bind at 1. unfold try_catch, statSync. unfold bind at 1.
  unfold emit, lift. fold st2.
  destruct (fs_statSync w resolvedPath) as [stats|e]; [|reflexivity].
  unfold bind at 1. simpl.
  destruct (isDirectory stats); simpl.
  - unfold bind, ret, existsSync, emit. simpl.
    destruct (fs_existsSync w (path_join [resolvedPath; ".sf"])); reflexivity.
  - reflexivity.
Qed.

(** Validation runs no command and does not touch the cache. *)
Lemma validateProjectPath_quiet (w : World) (projectPath : string)
    (st st' : State) (r : result unit) :
  validateProjectPath w projectPath st = (r, st') →
  executed (trace st') = executed (trace st) ∧ cachedSfPath st' = cachedSfPath st.
Proof.
  rewrite validateProjectPath_run.
  repeat match goal with
         | |- context [if ?b then _ else _] => destruct b
         | |- context [match ?x with Ok _ => _ | Throw _ => _ end] => destruct x
         end;
    intros [= <- <-]; simpl; rewrite ?executed_app; simpl;
    rewrite ?app_nil_r; auto.
Qed.

End Validator.

(** ** The process invokers *)

Section Invokers.
Context `{rt : Runtime}.

(** Without the prefix the pattern does not match. *)
Lemma match_sf_prefix_None (command : string) :
  ¬ begins_with_sf_space command → match_sf_prefix command = None.
Proof.
  intros Hno. unfold match_sf_prefix.
  destruct command as [|a [|b tail]]; try reflexivity.
  destruct (Ascii.eqb a "s" && Ascii.eqb b "f") eqn:Hab; [|reflexivity].
  apply andb_true_iff in Hab as [Ha Hb].
  apply Ascii.eqb_eq in Ha, Hb. subst a b.
  destruct tail as [|c rest]; [reflexivity|]. simpl.
  destruct (is_space c) eqn:Hc; [|reflexivity].
  exfalso. apply Hno. exists c, rest. auto.
Qed.

(** With the prefix it does. *)
Lemma match_sf_prefix_Some (command : string) :
  begins_with_sf_space command → ∃ matched after,
    match_sf_prefix command = Some (matched, after)
    ∧ command = matched +:+ after.
Proof.
  intros (c & rest & -> & Hc). unfold match_sf_prefix. simpl. rewrite Hc.
  assert (Hspan : ∀ s, s = (span_space s).1 +:+ (span_space s).2).
  { clear. induction s as [|d s IH]; [reflexivity|]. simpl.
    destruct (is_space d); [|reflexivity].
    destruct (span_space s) as [ws after]. simpl in *.
    rewrite append_cons. congruence. }
  specialize (Hspan rest). destruct (span_space rest) as [ws after].
  eexists _, _. split; [reflexivity|]. simpl in *.
  rewrite !append_cons. congruence.
Qed.

Lemma replace_sf_unchanged (sfPath command : string) :
  ¬ begins_with_sf_space command → replace_sf sfPath command = command.
Proof. intros H. unfold replace_sf. rewrite match_sf_prefix_None; auto. Qed.

(** *** Each invoker runs one command and hands its result to the callback *)

Lemma executeSfCommand_run (w : World) (command : string) (st : State) :
  ∃ sfPath st1, findSfPath w st = (Ok sfPath, st1)
    ∧ executed (trace st1) = executed (trace st)
    ∧ executeSfCommand w command st =
        (Ok (executeSfCommand_callback (child_exec w (replace_sf sfPath command))),
         logged st1 (EvExec (replace_sf sfPath command))).
Proof.
  destruct (findSfPath_spec w st) as (sfPath & st1 & Hfind & Hexec & _).
  exists sfPath, st1. repeat split; auto.
  unfold executeSfCommand, bind. rewrite Hfind, exec_run. reflexivity.
Qed.

Lemma executeSfCommandRaw_run (w : World) (command : string) (st : State) :
  ∃ sfPath st1, findSfPath w st = (Ok sfPath, st1)
    ∧ executed (trace st1) = executed (trace st)
    ∧ executeSfCommandRaw w command st =
        (Ok (executeSfCommandRaw_callback command
               (child_exec w (replace_sf sfPath command))),
         logged st1 (EvExec (replace_sf sfPath command))).
Proof.
  destruct (findSfPath_spec w st) as (sfPath & st1 & Hfind & Hexec & _).
  exists sfPath, st1. repeat split; auto.
  unfold executeSfCommandRaw, bind. rewrite Hfind, exec_run. reflexivity.
Qed.

Lemma executeSfCommandInProject_run (w : World) (command projectPath : string)
    (st st0 : State) :
  validateProjectPath w projectPath st = (Ok (), st0) →
  let full sfPath := in_directory (path_resolve projectPath) (replace_sf sfPath command) in
  ∃ sfPath st1, findSfPath w st0 = (Ok sfPath, st1)
    ∧ executed (trace st1) = executed (trace st)
    ∧ executeSfCommandInProject w command projectPath st =
        (Ok (executeSfCommandInProject_callback (child_exec w (full sfPath))),
         logged st1 (EvExec (full sfPath))).
Proof.
  intros Hvalid full.
  destruct (validateProjectPath_quiet _ _ _ _ _ Hvalid) as [Hq _].
  destruct (findSfPath_spec w st0) as (sfPath & st1 & Hfind & Hexec & _).
  exists sfPath, st1. repeat split; [auto | congruence |].
  unfold executeSfCommandInProject, bind. rewrite Hvalid, Hfind, exec_run. reflexivity.
Qed.

Lemma executeSfCommandInProjectRaw_run (w : World) (command projectPath : string)
    (st st0 : State) :
  validateProjectPath w projectPath st = (Ok (), st0) →
  let full sfPath := in_directory (path_resolve projectPath) (replace_sf sfPath command) in
  ∃ sfPath st1, findSfPath w st0 = (Ok sfPath, st1)
    ∧ executed (trace st1) = executed (trace st)
    ∧ executeSfCommandInProjectRaw w command projectPath st =
        (Ok (executeSfCommandInProjectRaw_callback command (child_exec w (full sfPath))),
         logged st1 (EvExec (full sfPath))).
Proof.
  intros Hvalid full.
  destruct (validateProjectPath_quiet _ _ _ _ _ Hvalid) as [Hq _].
  destruct (findSfPath_spec w st0) as (sfPath & st1 & Hfind & Hexec & _).
  exists sfPath, st1. repeat split; [auto | congruence |].
  unfold executeSfCommandInProjectRaw, bind. rewrite Hvalid, Hfind, exec_run. reflexivity.
Qed.

(** A failed validation is thrown before anything runs. *)
Lemma executeSfCommandInProject_invalid (w : World) (command projectPath : string)
    (st st0 : State) (e : JsError) :
  validateProjectPath w projectPath st = (Throw e, st0) →
  executeSfCommandInProject w command projectPath st = (Throw e, st0)
  ∧ executeSfCommandInProjectRaw w command projectPath st = (Throw e, st0).
Proof.
  intros H. unfold executeSfCommandInProject, executeSfCommandInProjectRaw, bind.
  rewrite H. auto.
Qed.

(** *** The promise is the callback of the child's report *)

Lemma executeSfCommand_outcome (w : World) (st : State) (command : string)
    (r : ExecResult) :
  child_reports w st command r →
  (executeSfCommand w command st).1 = Ok (executeSfCommand_callback r).
Proof.
  intros (sfPath & st1 & Hfind & <-).
  unfold executeSfCommand, bind. rewrite Hfind, exec_run. reflexivity.
Qed.

Lemma executeSfCommandRaw_outcome (w : World) (st : State) (command : string)
    (r : ExecResult) :
  child_reports w st command r →
  (executeSfCommandRaw w command st).1 = Ok (executeSfCommandRaw_callback command r).
Proof.
  intros (sfPath & st1 & Hfind & <-).
  unfold executeSfCommandRaw, bind. rewrite Hfind, exec_run. reflexivity.
Qed.

Lemma executeSfCommandInProject_outcome (w : World) (st : State)
    (command projectPath : string) (r : ExecResult) :
  project_child_reports w st command projectPath r →
  (executeSfCommandInProject w command projectPath st).1
    = Ok (executeSfCommandInProject_callback r).
Proof.
  intros (st0 & sfPath & st1 & Hvalid & Hfind & <-).
  unfold executeSfCommandInProject, bind. rewrite Hvalid, Hfind, exec_run. reflexivity.
Qed.

Lemma executeSfCommandInProjectRaw_outcome (w : World) (st : State)
    (command projectPath : string) (r : ExecResult) :
  project_child_reports w st command projectPath r →
  (executeSfCommandInProjectRaw w command projectPath st).1
    = Ok (executeSfCommandInProjectRaw_callback command r).
Proof.
  intros (st0 & sfPath & st1 & Hvalid & Hfind & <-).
  unfold executeSfCommandInProjectRaw, bind. rewrite Hvalid, Hfind, exec_run. reflexivity.
Qed.

(** Every call has a child report: the premise [child_reports] only names it. *)
Lemma child_reports_total (w : World) (st : State) (command : string) :
  ∃ r, child_reports w st command r.
Proof.
  destruct (findSfPath_spec w st) as (sfPath & st1 & Hfind & _).
  eexists. exists sfPath, st1. split; [exact Hfind | reflexivity].
Qed.

Lemma project_child_reports_total (w : World) (st st0 : State)
    (command projectPath : string) :
  validateProjectPath w projectPath st = (Ok (), st0) →
  ∃ r, project_child_reports w st command projectPath r.
Proof.
  intros Hvalid.
  destruct (findSfPath_spec w st0) as (sfPath & st1 & Hfind & _).
  eexists. exists st0, sfPath, st1. repeat split; eauto.
Qed.

Lemma truthy_nonempty (s : string) : s ≠ "" → truthy s = true.
Proof. destruct s; [congruence | reflexivity]. Qed.

End Invokers.

Section InvokerTheorems.
Context `{rt : Runtime}.

(** The directory change is a prefix of the command line. *)
Lemma in_directory_prefix (resolvedPath sfCommand : string) :
  ∃ cd, (cd = "cd " +:+ dquote +:+ resolvedPath +:+ dquote +:+ " && "
         ∨ cd = "cd /d " +:+ dquote +:+ resolvedPath +:+ dquote +:+ " && ")
    ∧ in_directory resolvedPath sfCommand = cd +:+ sfCommand.
Proof.
  unfold in_directory.
  destruct os_platform;
    [eexists; split; [left; reflexivity | rewrite !append_assoc; reflexivity]..
    |eexists; split; [right; reflexivity | rewrite !append_assoc; reflexivity]].
Qed.

(** C9: the resolved executable path is substituted only for a leading
    [sf] followed by white space.  For any other command every invoker runs
    exactly one command, the text it was given: as it is for the two
    plain invokers, behind the [cd] prefix of the validated project
    directory for the two project invokers. *)
Theorem command_unchanged_without_sf_prefix
    (w : World) (st : State) (command projectPath : string) :
  ¬ begins_with_sf_space command →
  executed (trace (executeSfCommand w command st).2)
    = executed (trace st) ++ [command]
  ∧ executed (trace (executeSfCommandRaw w command st).2)
    = executed (trace st) ++ [command]
  ∧ (∀ st0, validateProjectPath w projectPath st = (Ok (), st0) →
       ∃ cd, (cd = "cd " +:+ dquote +:+ path_resolve projectPath +:+ dquote +:+ " && "
              ∨ cd = "cd /d " +:+ dquote +:+ path_resolve projectPath +:+ dquote +:+ " && ")
         ∧ executed (trace (executeSfCommandInProject w command projectPath st).2)
           = executed (trace st) ++ [cd +:+ command]
         ∧ executed (trace (executeSfCommandInProjectRaw w command projectPath st).2)
           = executed (trace st) ++ [cd +:+ command]).
Proof.
  intros Hno.
  assert (Hlog : ∀ st1 c, executed (trace st1) = executed (trace st) →
            executed (trace (logged st1 (EvExec c))) = executed (trace st) ++ [c]).
  { intros st1 c H. simpl. rewrite executed_app, H. reflexivity. }
  split; [|split].
  - destruct (executeSfCommand_run w command st) as (sfPath & st1 & _ & Hexec & ->).
    rewrite replace_sf_unchanged by assumption. simpl snd. auto.
  - destruct (executeSfCommandRaw_run w command st) as (sfPath & st1 & _ & Hexec & ->).
    rewrite replace_sf_unchanged by assumption. simpl snd. auto.
  - intros st0 Hvalid.
    destruct (executeSfCommandInProject_run w command projectPath st st0 Hvalid)
      as (sfPath & st1 & Hfind & Hexec & ->).
    destruct (executeSfCommandInProjectRaw_run w command projectPath st st0 Hvalid)
      as (sfPath' & st1' & Hfind' & _ & ->).
    rewrite Hfind in Hfind'. injection Hfind' as <- <-.
    rewrite replace_sf_unchanged by assumption. simpl snd.
    destruct (in_directory_prefix (path_resolve projectPath) command)
      as (cd & Hcd & ->).
    exists cd. auto.
Qed.

Lemma parsed_stdout_Some (stdout : string) (payload : JsValue number) :
  stdout ≠ "" → JSON_parse stdout = Some payload →
  parsed_stdout stdout = Some payload.
Proof. intros Hne Hp. unfold parsed_stdout. rewrite truthy_nonempty; auto. Qed.

Lemma parsed_stdout_None (r : ExecResult) :
  no_parseable_output r → parsed_stdout (exec_stdout r) = None.
Proof.
  unfold parsed_stdout. intros [-> | H]; [reflexivity|].
  destruct (truthy (exec_stdout r)); auto.
Qed.

(** C1: in the two structured-output invokers, a non-empty primary channel
    that parses is the outcome: the promise resolves with the parsed
    payload, whatever error the child process reported and whatever it
    wrote to its error channel. *)
Theorem parsed_stdout_is_the_outcome
    (w : World) (st : State) (command projectPath : string)
    (r : ExecResult) (payload : JsValue number) :
  exec_stdout r ≠ "" →
  JSON_parse (exec_stdout r) = Some payload →
  (child_reports w st command r →
     (executeSfCommand w command st).1 = Ok (Resolved payload))
  ∧ (project_child_reports w st command projectPath r →
     (executeSfCommandInProject w command projectPath st).1 = Ok (Resolved payload)).
Proof.
  intros Hne Hparse. split; intros Hr.
  - rewrite (executeSfCommand_outcome _ _ _ _ Hr).
    unfold executeSfCommand_callback.
    rewrite (parsed_stdout_Some _ _ Hne Hparse). reflexivity.
  - rewrite (executeSfCommandInProject_outcome _ _ _ _ _ Hr).
    unfold executeSfCommandInProject_callback.
    rewrite (parsed_stdout_Some _ _ Hne Hparse). reflexivity.
Qed.

(** C10: in the two structured-output invokers, when the child process
    reports no error and no parseable primary output, an error channel
    that contains "Warning" anywhere is ignored as a whole: the promise is
    rejected with "No output received from command", not with the error
    channel's text. *)
Theorem warning_on_stderr_gives_no_output
    (w : World) (st : State) (command projectPath : string) (r : ExecResult) :
  exec_error r = None →
  no_parseable_output r →
  includes (exec_stderr r) "Warning" = true →
  (child_reports w st command r →
     (executeSfCommand w command st).1
       = Ok (Rejected (Error "No output received from command")))
  ∧ (project_child_reports w st command projectPath r →
     (executeSfCommandInProject w command projectPath st).1
       = Ok (Rejected (Error "No output received from command"))).
Proof.
  intros Herr Hout Hwarn. apply parsed_stdout_None in Hout. split; intros Hr.
  - rewrite (executeSfCommand_outcome _ _ _ _ Hr).
    unfold executeSfCommand_callback. rewrite Hout, Herr, Hwarn.
    rewrite andb_false_r. reflexivity.
  - rewrite (executeSfCommandInProject_outcome _ _ _ _ _ Hr).
    unfold executeSfCommandInProject_callback. rewrite Hout, Herr, Hwarn.
    rewrite andb_false_r. reflexivity.
Qed.

Lemma scanner_output_true (command stdout : string) :
  analysis_command command → stdout ≠ "" → scanner_output command stdout = true.
Proof.
  intros Hc Hne. unfold scanner_output. rewrite truthy_nonempty by assumption.
  destruct Hc as [-> | ->]; simpl; auto using orb_true_r.
Qed.

(** C3, amended: in the two raw-output invokers, for a command that
    contains "scanner" or "code-analyzer", a child process that fails with
    a non-empty primary channel gives a success carrying that text
    verbatim, provided the failure message contains neither
    "command not found" nor "is not recognized". *)
Theorem analysis_output_is_success
    (w : World) (st : State) (command projectPath : string)
    (r : ExecResult) (error : ExecException) :
  analysis_command command →
  exec_error r = Some error →
  is_not_found error = false →
  exec_stdout r ≠ "" →
  (child_reports w st command r →
     (executeSfCommandRaw w command st).1 = Ok (Resolved (exec_stdout r)))
  ∧ (project_child_reports w st command projectPath r →
     (executeSfCommandInProjectRaw w command projectPath st).1
       = Ok (Resolved (exec_stdout r))).
Proof.
  intros Hcmd Herr Hfound Hout.
  pose proof (scanner_output_true _ _ Hcmd Hout) as Hscan.
  split; intros Hr.
  - rewrite (executeSfCommandRaw_outcome _ _ _ _ Hr).
    unfold executeSfCommandRaw_callback. rewrite Herr, Hfound, Hscan. reflexivity.
  - rewrite (executeSfCommandInProjectRaw_outcome _ _ _ _ _ Hr).
    unfold executeSfCommandInProjectRaw_callback.
    rewrite Herr, Hfound, Hscan. reflexivity.
Qed.

End InvokerTheorems.

Section ErrorDetails.
Context `{rt : Runtime}.

Lemma join_items_strings (sep : string) (l : list string) :
  join_results sep (join_items (map JString l)) = Ok (join sep l).
Proof.
  induction l as [|x [|y l] IH]; try reflexivity.
  change (join_items (map JString (x :: y :: l)))
    with (Ok x :: join_items (map JString (y :: l))).
  change (join sep (x :: y :: l)) with (x +:+ sep +:+ join sep (y :: l)).
  remember (y :: l) as rest. simpl.
  destruct (join_items (map JString rest)) eqn:Hitems.
  - subst rest. discriminate.
  - rewrite IH. reflexivity.
Qed.

Lemma includes_empty (s : string) : includes s "" = true.
Proof. apply includes_prefix. destruct s; reflexivity. Qed.

Lemma JString_map_inj (l l' : list string) :
  map (@JString number) l = map JString l' → l = l'.
Proof.
  revert l'. induction l as [|x l IH]; intros [|y l'] H; try discriminate; auto.
  injection H as -> H. f_equal. auto.
Qed.

(** The layout of the message built from plain details. *)
Lemma detailedMessage_plain (props : list (string * JsValue number)) :
  plain_details props →
  ∃ head middle tail,
    detailedMessage (JObject props)
      = Ok ("Error: " +:+ head +:+ newline +:+ middle +:+ tail)
    ∧ (∀ m, lookup_prop "message" props = Some (JString m) → head = m)
    ∧ (∀ l, lookup_prop "actions" props = Some (JArray (map JString l)) →
            middle = "Actions: " +:+ join newline l +:+ newline)
    ∧ (∀ s, lookup_prop "stack" props = Some (JString s) →
            tail = if truthy s then "Stack: " +:+ s else "").
Proof.
  intros (Hm & Ha & Hs). unfold detailedMessage, get_field, bind_result.
  destruct Hm as [Hm | [m Hm]], Ha as [Ha | [l Ha]], Hs as [Hs | [s Hs]];
    rewrite Hm, Ha, Hs; simpl; rewrite ?join_items_strings;
    try (destruct (truthy s) eqn:Hts; simpl);
    (eexists _, _, _; split; [reflexivity|]);
    (split; [|split]); intros; simplify_eq; try reflexivity.
  all: try (match goal with H : map JString _ = map JString _ |- _ =>
              apply JString_map_inj in H; subst end); try reflexivity.
  all: try (rewrite Hts; reflexivity).
Qed.

(** C2, amended: in [executeSfCommand], given no primary-channel output, a
    process-level failure whose message contains neither
    "command not found" nor "is not recognized", and an error channel that
    parses to an object whose [message] and [stack] are strings and whose
    [actions] is an array of strings when they are present, the promise is
    rejected with a new error whose message is "Error: " and the payload's
    message ("undefined" when there is none) on one line, then "Actions: "
    and the actions joined by line feeds on the next lines when [actions]
    is present, then "Stack: " and the stack when it is not empty.  So the
    message includes the payload's message, each of its actions and its
    stack. *)
Theorem stderr_details_reach_the_error
    (w : World) (st : State) (command : string) (r : ExecResult)
    (error : ExecException) (props : list (string * JsValue number))
    (message : option string) (actions : option (list string))
    (stack : option string) :
  child_reports w st command r →
  exec_stdout r = "" →
  exec_error r = Some error →
  is_not_found error = false →
  JSON_parse (exec_stderr r) = Some (JObject props) →
  lookup_prop "message" props = JString <$> message →
  lookup_prop "actions" props = (λ l, JArray (map JString l)) <$> actions →
  lookup_prop "stack" props = JString <$> stack →
  let msg :=
    "Error: " +:+ default "undefined" message +:+ newline
    +:+ match actions with
        | Some l => "Actions: " +:+ join newline l +:+ newline
        | None => ""
        end
    +:+ match stack with
        | Some s => if truthy s then "Stack: " +:+ s else ""
        | None => ""
        end in
  (executeSfCommand w command st).1 = Ok (Rejected (Error msg))
  ∧ (∀ m, message = Some m → includes msg m = true)
  ∧ (∀ l a, actions = Some l → In a l → includes msg a = true)
  ∧ (∀ s, stack = Some s → includes msg s = true).
Proof.
  intros Hr Hout Herr Hfound Hparse Hm Ha Hs msg.
  split; [|split; [|split]].
  - rewrite (executeSfCommand_outcome _ _ _ _ Hr).
    unfold executeSfCommand_callback, parsed_stdout.
    rewrite Hout, Herr, Hfound. simpl.
    unfold reject_with_details. rewrite Hparse.
    unfold detailedMessage, get_field, bind_result. rewrite Hm, Ha, Hs.
    unfold msg.
    destruct message as [m|], actions as [l|], stack as [s|]; simpl;
      rewrite ?join_items_strings; try destruct (truthy s); reflexivity.
  - intros m ->. unfold msg. apply includes_middle.
  - intros l a -> Hin. unfold msg.
    do 3 apply includes_app_r. apply includes_app_l.
    apply includes_app_r, includes_app_l, includes_join, Hin.
  - intros s ->. unfold msg. do 4 apply includes_app_r.
    destruct (truthy s) eqn:Hts.
    + apply includes_app_r, includes_refl.
    + destruct s; [apply includes_empty | discriminate].
Qed.

End ErrorDetails.

(** ** The command builder *)

Section Builder.
Context `{rt : Runtime}.

Lemma prefix_app_stop (pat a b : string) (c : ascii) :
  pat ≠ "" → Forall (λ x, x ≠ c) (chars pat) →
  String.prefix pat (a +:+ String c b) = String.prefix pat a.
Proof.
  revert pat. induction a as [|x a IH]; intros [|p ps] Hne Hc; try congruence.
  - rewrite append_empty_l. simpl. inversion Hc; subst.
    destruct (ascii_dec p c); [congruence | reflexivity].
  - rewrite append_cons. simpl. destruct (ascii_dec p x); [|reflexivity].
    destruct ps as [|q ps].
    + destruct (a +:+ String c b), a; reflexivity.
    + apply IH; [discriminate|]. inversion Hc; assumption.
Qed.

(** A pattern cannot straddle a character it does not contain. *)
Lemma occurrences_app_stop (pat a b : string) (c : ascii) :
  pat ≠ "" → Forall (λ x, x ≠ c) (chars pat) →
  occurrences pat (a +:+ String c b)
    = (occurrences pat a + occurrences pat (String c b))%nat.
Proof.
  intros Hne Hc. induction a as [|x a IH]; [reflexivity|].
  pose proof (prefix_app_stop pat (String x a) b c Hne Hc) as Hp.
  rewrite append_cons in *.
  change (occurrences pat (String x (a +:+ String c b)))
    with ((if String.prefix pat (String x (a +:+ String c b)) then 1 else 0)
          + occurrences pat (a +:+ String c b))%nat.
  change (occurrences pat (String x a))
    with ((if String.prefix pat (String x a) then 1 else 0) + occurrences pat a)%nat.
  rewrite Hp, IH. lia.
Qed.

Lemma includes_occurrences (pat s : string) :
  pat ≠ "" → includes s pat = false ↔ occurrences pat s = 0%nat.
Proof.
  intros Hne. induction s as [|c s IH].
  - destruct pat; [congruence|]. simpl. tauto.
  - change (includes (String c s) pat)
      with (String.prefix pat (String c s) || includes s pat).
    change (occurrences pat (String c s))
      with ((if String.prefix pat (String c s) then 1 else 0) + occurrences pat s)%nat.
    destruct (String.prefix pat (String c s)); simpl.
    + split; [discriminate | lia].
    + exact IH.
Qed.

Lemma getDefaultUsername_total (w : World) (projectPath : string) (st : State) :
  ∃ v st', getDefaultUsername w projectPath st = (Ok v, st').
Proof.
  unfold getDefaultUsername, try_catch, bind. rewrite existsSync_run.
  destruct (fs_existsSync w _); simpl; [|eauto].
  unfold readFileSync, bind, emit, lift, ret.
  destruct (fs_readFileSync w _); [|eauto].
  destruct (JSON_parse_or_throw _); [|eauto].
  destruct (get_field _ _); eauto.
Qed.

Lemma getDefaultUsername_unavailable (w : World) (projectPath : string) (st : State) :
  config_unavailable w projectPath →
  ∃ st', getDefaultUsername w projectPath st = (Ok None, st').
Proof.
  unfold config_unavailable, getDefaultUsername, try_catch, bind.
  rewrite existsSync_run.
  intros [Habsent | [[e Hread] | (content & Hread & Hparse)]].
  - rewrite Habsent. simpl. eauto.
  - destruct (fs_existsSync w _); simpl; [|eauto].
    unfold readFileSync, bind, emit, lift, ret. rewrite Hread. eauto.
  - destruct (fs_existsSync w _); simpl; [|eauto].
    unfold readFileSync, bind, emit, lift, ret. rewrite Hread.
    unfold JSON_parse_or_throw. rewrite Hparse. eauto.
Qed.

(** The reader returns the configured default, whatever the state. *)
Lemma getDefaultUsername_configured_default (w : World) (projectPath : string)
    (st : State) :
  (getDefaultUsername w projectPath st).1 = Ok (configured_default w projectPath).
Proof.
  unfold getDefaultUsername, configured_default, try_catch, bind.
  rewrite existsSync_run.
  destruct (fs_existsSync w _); simpl; [|reflexivity].
  unfold readFileSync, bind, emit, lift, ret.
  destruct (fs_readFileSync w _) as [content|e]; [|reflexivity].
  unfold JSON_parse_or_throw.
  destruct (JSON_parse content) as [[| b | n | t | items | props]|]; reflexivity.
Qed.

End Builder.

Section BuilderTheorems.
Context `{rt : Runtime}.

(** What [buildSfCommand] returns, from the target it settles on. *)
Lemma buildSfCommand_cases (w : World) (st : State) (baseCommand : string)
    (targetOrg sourcePath : option string) :
  let finish c := if negb (includes c "--json") then c +:+ " --json" else c in
  ∃ (orgToUse : Value) (st' : State),
    select_org w targetOrg sourcePath st = (Ok orgToUse, st')
    ∧ (buildSfCommand w baseCommand targetOrg sourcePath st).1 =
      (if truthy_value orgToUse then
         match orgToUse with
         | Some (JString s) =>
             if truthy (trim s)
             then Ok (finish (baseCommand +:+ " --target-org " +:+ s))
             else Ok (finish baseCommand)
         | _ => Throw (TypeError "orgToUse.trim is not a function")
         end
       else Ok (finish baseCommand)).
Proof.
  intros finish.
  assert (Hsel : ∃ orgToUse st', select_org w targetOrg sourcePath st = (Ok orgToUse, st')).
  { unfold select_org. destruct sourcePath as [[|c path]|]; [eexists _, _; reflexivity| |eexists _, _; reflexivity].
    destruct (no_target targetOrg); [apply getDefaultUsername_total | eexists _, _; reflexivity]. }
  destruct Hsel as (orgToUse & st' & Hsel). exists orgToUse, st'.
  split; [exact Hsel|].
  unfold buildSfCommand. unfold bind at 1. rewrite Hsel. unfold finish.
  destruct orgToUse as [[| b | n | s | items | props]|]; simpl;
    unfold bind, lift, ret; simpl;
    repeat match goal with
           | |- context [if ?b then _ else _] => destruct b eqn:?; simpl
           end; reflexivity.
Qed.

(** Without a target and without a usable configuration nothing is selected
    that could be appended. *)
Lemma select_org_nothing (w : World) (st : State) (projectPath : string)
    (targetOrg : option string) :
  no_target targetOrg = true →
  config_unavailable w projectPath →
  ∃ (orgToUse : Value) st',
    select_org w targetOrg (Some projectPath) st = (Ok orgToUse, st')
    ∧ (truthy_value orgToUse = false
       ∨ ∃ s, orgToUse = Some (JString s) ∧ truthy (trim s) = false).
Proof.
  intros Hno Hconfig. unfold select_org. destruct projectPath as [|c path].
  - exists (JString <$> targetOrg), st. split; [reflexivity|].
    destruct targetOrg as [s|]; [|left; reflexivity]. simpl in *.
    destruct (truthy s) eqn:Hs; [|left; reflexivity].
    right. exists s. split; [reflexivity|].
    simpl in Hno. destruct (truthy (trim s)); [discriminate | reflexivity].
  - rewrite Hno.
    destruct (getDefaultUsername_unavailable w _ st Hconfig) as (st' & ->).
    exists None, st'. split; [reflexivity | left; reflexivity].
Qed.

(** C7: without an explicit target identifier (none, empty or white space
    only) and with a project whose local configuration file is absent,
    unreadable or unparseable, [buildSfCommand] returns the base command
    with no target flag added, and with [--json] appended exactly when the
    base command does not contain it. *)
Theorem buildSfCommand_without_target
    (w : World) (st : State) (baseCommand projectPath : string)
    (targetOrg : option string) :
  no_target targetOrg = true →
  config_unavailable w projectPath →
  ∃ command,
    (buildSfCommand w baseCommand targetOrg (Some projectPath) st).1 = Ok command
    ∧ command = (if includes baseCommand "--json" then baseCommand
                 else baseCommand +:+ " --json")
    ∧ occurrences "--target-org" command = occurrences "--target-org" baseCommand
    ∧ (includes baseCommand "--target-org" = false →
       includes command "--target-org" = false).
Proof.
  intros Hno Hconfig.
  assert (Hcount : occurrences "--target-org"
                     (if includes baseCommand "--json" then baseCommand
                      else baseCommand +:+ " --json")
                   = occurrences "--target-org" baseCommand).
  { destruct (includes baseCommand "--json"); [reflexivity|].
    change " --json" with (String " " "--json").
    rewrite occurrences_app_stop.
    - simpl. lia.
    - discriminate.
    - repeat constructor; discriminate. }
  eexists. split; [|split; [reflexivity|split; [exact Hcount|]]].
  - destruct (buildSfCommand_cases w st baseCommand targetOrg (Some projectPath))
      as (orgToUse & st' & Hsel & ->).
    destruct (select_org_nothing w st projectPath targetOrg Hno Hconfig)
      as (orgToUse' & st'' & Hsel' & Horg).
    rewrite Hsel in Hsel'. injection Hsel' as <- <-.
    destruct Horg as [-> | (s & -> & ->)].
    + destruct (includes baseCommand "--json"); reflexivity.
    + simpl truthy_value.
      destruct (truthy s), (includes baseCommand "--json"); reflexivity.
  - intros Hnone.
    apply includes_occurrences; [discriminate|]. rewrite Hcount.
    apply includes_occurrences; [discriminate | exact Hnone].
Qed.

(** C8: for a base command that already contains [--json],
    [buildSfCommand] appends no second one: what it returns is fixed by
    its arguments and the project's configuration.  With an explicit
    target it returns the base command followed by [ --target-org ] and
    that target, and nothing after it.  Without one it returns the base
    command as it is, or followed by the flag of the configured default
    when the project path is not empty and that default is a string that
    is not blank; it fails only on a configured default that is truthy and
    not a string.  So [--json] occurs in the result as often as in the base
    command and in the identifier appended. *)
Theorem json_flag_not_appended_twice
    (w : World) (st : State) (baseCommand : string)
    (targetOrg sourcePath : option string) :
  includes baseCommand "--json" = true →
  let outcome := (buildSfCommand w baseCommand targetOrg sourcePath st).1 in
  let with_target (org : string) := baseCommand +:+ " --target-org " +:+ org in
  (∀ org, targetOrg = Some org → no_target targetOrg = false →
          outcome = Ok (with_target org))
  ∧ (no_target targetOrg = true →
     match sourcePath with
     | Some (String _ _ as path) =>
         match configured_default w path with
         | Some (JString org) =>
             outcome = Ok (if truthy (trim org) then with_target org else baseCommand)
         | configured =>
             if truthy_value configured
             then outcome = Throw (TypeError "orgToUse.trim is not a function")
             else outcome = Ok baseCommand
         end
     | _ => outcome = Ok baseCommand
     end)
  ∧ (∀ org, occurrences "--json" (with_target org)
            = (occurrences "--json" baseCommand + occurrences "--json" org)%nat).
Proof.
  intros Hjson outcome with_target.
  destruct (buildSfCommand_cases w st baseCommand targetOrg sourcePath)
    as (orgToUse & st' & Hsel & Hcases).
  fold outcome in Hcases. cbv zeta in Hcases. rewrite Hjson in Hcases.
  simpl negb in Hcases. cbv iota in Hcases.
  assert (Hwith : ∀ org, (if negb (includes (with_target org) "--json")
                          then with_target org +:+ " --json" else with_target org)
                         = with_target org).
  { intros org. unfold with_target. rewrite (includes_app_l _ _ _ Hjson). reflexivity. }
  fold (with_target) in Hcases.
  split; [|split].
  - intros org -> Hno.
    assert (Horg : orgToUse = Some (JString org)).
    { unfold select_org in Hsel. rewrite Hno in Hsel.
      destruct sourcePath as [[|c path]|]; injection Hsel as <- _; reflexivity. }
    rewrite Hcases, Horg. simpl in Hno. apply orb_false_iff in Hno as [Hs Ht].
    apply negb_false_iff in Hs, Ht. simpl. rewrite Hs, Ht. apply f_equal, Hwith.
  - intros Hno.
    assert (Hblank : ∀ v : Value, v = JString <$> targetOrg → orgToUse = v →
                     outcome = Ok baseCommand).
    { intros v -> Horg. rewrite Hcases, Horg.
      destruct targetOrg as [s|]; [|reflexivity]. simpl in *.
      destruct (truthy s); [|reflexivity].
      destruct (truthy (trim s)); [discriminate | reflexivity]. }
    unfold select_org in Hsel.
    destruct sourcePath as [[|c path]|];
      [injection Hsel as Hsel _; eapply Hblank; eauto | |
       injection Hsel as Hsel _; eapply Hblank; eauto].
    rewrite Hno in Hsel.
    pose proof (getDefaultUsername_configured_default w (String c path) st) as Hdefault.
    rewrite Hsel in Hdefault. injection Hdefault as Horg.
    rewrite <- Horg. rewrite Hcases.
    destruct orgToUse as [[| b | n | org | items | props]|]; simpl;
      try reflexivity.
    + destruct b; reflexivity.
    + destruct (Number_truthy n); reflexivity.
    + destruct (truthy org) eqn:Horg'.
      * destruct (truthy (trim org)); [apply f_equal, Hwith | reflexivity].
      * destruct org; [reflexivity | discriminate].
  - intros org. unfold with_target.
    change (" --target-org " +:+ org) with (String " " ("--target-org " +:+ org)).
    rewrite occurrences_app_stop; [|discriminate | repeat constructor; discriminate].
    f_equal.
Qed.

End BuilderTheorems.

Section ValidatorTheorems.
Context `{rt : Runtime}.

(** X1: the four checks of [validateProjectPath], in order, each on the paths
    that passed the ones before it: an empty or blank path is refused
    before any probe; then a path that does not exist; then an entry that
    is not a directory (the error is raised inside the [try] and reaches
    the caller through its [catch]); then a directory without an entry
    named [.sf]; any other path passes, after three read-only probes and
    with the cache untouched. *)
Lemma validateProjectPath_checks (w : World) (st : State) (projectPath : string) :
  let resolvedPath := path_resolve projectPath in
  let marker := path_join [resolvedPath; ".sf"] in
  (all_space projectPath = true →
     validateProjectPath w projectPath st
       = (Throw (Error "Project path cannot be empty"), st))
  ∧ (all_space projectPath = false →
     fs_existsSync w resolvedPath = false →
     validateProjectPath w projectPath st
       = (Throw (Error ("Project path does not exist: " +:+ resolvedPath)),
          logged st (EvExists resolvedPath)))
  ∧ (∀ stats, all_space projectPath = false →
     fs_existsSync w resolvedPath = true →
     fs_statSync w resolvedPath = Ok stats →
     (isDirectory stats = false →
        (validateProjectPath w projectPath st).1
          = Throw (Error ("Cannot access project path: "
                          +:+ "Project path is not a directory: " +:+ resolvedPath)))
     ∧ (isDirectory stats = true → fs_existsSync w marker = false →
        (validateProjectPath w projectPath st).1
          = Throw (Error ("Project path does not contain .sf directory. "
                          +:+ "Please ensure this is a valid Salesforce DX project: "
                          +:+ resolvedPath)))
     ∧ (isDirectory stats = true → fs_existsSync w marker = true →
        validateProjectPath w projectPath st
          = (Ok (), {| cachedSfPath := cachedSfPath st;
                       trace := trace st ++ [EvExists resolvedPath;
                                             EvStat resolvedPath;
                                             EvExists marker] |}))).
Proof.
  intros resolvedPath marker.
  pose proof (validateProjectPath_run w projectPath st) as Hrun.
  cbv zeta in Hrun. fold resolvedPath in Hrun. fold marker in Hrun.
  split; [|split].
  - intros Hblank. rewrite Hrun, Hblank. reflexivity.
  - intros Hblank Hex. rewrite Hrun, Hblank, Hex. reflexivity.
  - intros stats Hblank Hex Hstat. rewrite Hrun, Hblank, Hex, Hstat. simpl negb.
    cbv iota. split; [|split].
    + intros ->. reflexivity.
    + intros -> ->. reflexivity.
    + intros -> ->. simpl. unfold logged. simpl.
      rewrite <- !List.app_assoc. reflexivity.
Qed.

End ValidatorTheorems.

(** ** Examples on the concrete runtime *)

Module Examples.
Import ExampleWorld.
#[local] Existing Instance linux_node.

Lemma findSfPath_first_existing_candidate_witness :
  let w := world project_fs (exiting "" "") in
  let candidates := ["/usr/local/bin/sf"; "/usr/bin/sf";
                     "/opt/salesforce/cli/bin/sf"; "/home/dev/.local/bin/sf"] in
  COMMON_SF_PATHS os_platform = Some candidates
  ∧ cachedSfPath fresh = None
  ∧ ∃ p st', findSfPath w fresh = (Ok p, st')
      ∧ ((∃ before after, candidates = before ++ p :: after
            ∧ fs_existsSync w p = true
            ∧ Forall (λ x, fs_existsSync w x = false) before)
         ∨ (Forall (λ x, fs_existsSync w x = false) candidates ∧ p = "sf")).
Proof.
  intros w candidates. split; [reflexivity|]. split; [reflexivity|].
  apply (findSfPath_first_existing_candidate (rt := linux_node) w fresh candidates);
    reflexivity.
Defined.

(** On that file system the resolver finds [/usr/bin/sf], after one miss. *)
Example findSfPath_linux :
  findSfPath (world project_fs (exiting "" "")) fresh
  = (Ok "/usr/bin/sf",
     {| cachedSfPath := Some "/usr/bin/sf";
        trace := [EvExists "/usr/local/bin/sf"; EvExists "/usr/bin/sf"] |}).
Proof. vm_compute. reflexivity. Qed.

Lemma parsed_stdout_is_the_outcome_witness :
  let stdout := "{" +:+ q "status" +:+ ":1," +:+ q "message" +:+ ":" +:+ q "boom" +:+ "}" in
  let payload := JObject [("status", JNumber 1%Z); ("message", JString "boom")] in
  let w := world project_fs (failing stdout "Error: boom") in
  let command := "sf org list --json" in
  let r1 := failing stdout "Error: boom"
              (dquote +:+ "/usr/bin/sf" +:+ dquote +:+ " org list --json") in
  let r2 := failing stdout "Error: boom"
              ("cd " +:+ q "/proj" +:+ " && " +:+ q "/usr/bin/sf" +:+ " org list --json") in
  (child_reports w fresh command r1
   ∧ (executeSfCommand w command fresh).1 = Ok (Resolved payload))
  ∧ (project_child_reports w fresh command "/proj" r2
     ∧ (executeSfCommandInProject w command "/proj" fresh).1
       = Ok (Resolved payload)).
Proof.
  intros stdout payload w command r1 r2.
  assert (H1 : child_reports w fresh command r1).
  { eexists _, _. split; vm_compute; reflexivity. }
  assert (H2 : project_child_reports w fresh command "/proj" r2).
  { eexists _, _, _. split; [|split]; vm_compute; reflexivity. }
  split; (split; [assumption|]).
  - exact (proj1 (parsed_stdout_is_the_outcome (rt := linux_node)
                    w fresh command "/proj" r1 payload
                    ltac:(discriminate) eq_refl) H1).
  - exact (proj2 (parsed_stdout_is_the_outcome (rt := linux_node)
                    w fresh command "/proj" r2 payload
                    ltac:(discriminate) eq_refl) H2).
Defined.

Lemma warning_on_stderr_gives_no_output_witness :
  let stderr := "Warning: update available" +:+ newline +:+ "Error: deploy failed" in
  let w := world project_fs (exiting "" stderr) in
  let command := "sf project deploy start --json" in
  let r := exiting "" stderr "" in
  exec_error r = None
  ∧ no_parseable_output r
  ∧ includes (exec_stderr r) "Warning" = true
  ∧ (child_reports w fresh command r
     ∧ (executeSfCommand w command fresh).1
       = Ok (Rejected (Error "No output received from command")))
  ∧ (project_child_reports w fresh command "/proj" r
     ∧ (executeSfCommandInProject w command "/proj" fresh).1
       = Ok (Rejected (Error "No output received from command"))).
Proof.
  intros stderr w command r.
  assert (H1 : child_reports w fresh command r).
  { eexists _, _. split; vm_compute; reflexivity. }
  assert (H2 : project_child_reports w fresh command "/proj" r).
  { eexists _, _, _. split; [|split]; vm_compute; reflexivity. }
  assert (Hout : no_parseable_output r) by (left; reflexivity).
  split; [reflexivity|]. split; [exact Hout|]. split; [reflexivity|].
  split; (split; [assumption|]).
  - exact (proj1 (warning_on_stderr_gives_no_output (rt := linux_node)
                    w fresh command "/proj" r eq_refl Hout eq_refl) H1).
  - exact (proj2 (warning_on_stderr_gives_no_output (rt := linux_node)
                    w fresh command "/proj" r eq_refl Hout eq_refl) H2).
Defined.

Lemma analysis_output_is_success_witness :
  let command := "sf scanner run --target src" in
  let w := world project_fs (failing "2 violations found" "") in
  let r1 := failing "2 violations found" "" (q "/usr/bin/sf" +:+ " scanner run --target src") in
  let r2 := failing "2 violations found" ""
              ("cd " +:+ q "/proj" +:+ " && " +:+ q "/usr/bin/sf" +:+ " scanner run --target src") in
  analysis_command command
  ∧ (child_reports w fresh command r1
     ∧ (executeSfCommandRaw w command fresh).1 = Ok (Resolved "2 violations found"))
  ∧ (project_child_reports w fresh command "/proj" r2
     ∧ (executeSfCommandInProjectRaw w command "/proj" fresh).1
       = Ok (Resolved "2 violations found")).
Proof.
  intros command w r1 r2.
  assert (Hc : analysis_command command) by (left; reflexivity).
  assert (H1 : child_reports w fresh command r1).
  { eexists _, _. split; vm_compute; reflexivity. }
  assert (H2 : project_child_reports w fresh command "/proj" r2).
  { eexists _, _, _. split; [|split]; vm_compute; reflexivity. }
  split; [exact Hc|]. split; (split; [assumption|]).
  - exact (proj1 (analysis_output_is_success (rt := linux_node)
                    w fresh command "/proj" r1 _ Hc eq_refl eq_refl
                    ltac:(discriminate)) H1).
  - exact (proj2 (analysis_output_is_success (rt := linux_node)
                    w fresh command "/proj" r2 _ Hc eq_refl eq_refl
                    ltac:(discriminate)) H2).
Defined.

(** C3 as stated fails: a scanner run that fails with output, and whose
    error channel mentions a missing helper program, is reported as a
    missing CLI by both raw invokers; the output is dropped. *)
Lemma analysis_output_lost_to_not_found :
  let command := "sf scanner run --target src" in
  let stderr := "sh: 1: java: command not found" in
  let w := world project_fs (failing "2 violations found" stderr) in
  let r1 := failing "2 violations found" stderr
              (q "/usr/bin/sf" +:+ " scanner run --target src") in
  let r2 := failing "2 violations found" stderr
              ("cd " +:+ q "/proj" +:+ " && " +:+ q "/usr/bin/sf" +:+ " scanner run --target src") in
  analysis_command command
  ∧ child_reports w fresh command r1
  ∧ project_child_reports w fresh command "/proj" r2
  ∧ exec_error r1 ≠ None ∧ exec_error r2 ≠ None
  ∧ exec_stdout r1 = "2 violations found" ∧ exec_stdout r2 = "2 violations found"
  ∧ (executeSfCommandRaw w command fresh).1 = Ok (Rejected (Error SF_NOT_FOUND))
  ∧ (executeSfCommandInProjectRaw w command "/proj" fresh).1
    = Ok (Rejected (Error SF_NOT_FOUND))
  ∧ (executeSfCommandRaw w command fresh).1 ≠ Ok (Resolved (exec_stdout r1))
  ∧ (executeSfCommandInProjectRaw w command "/proj" fresh).1
    ≠ Ok (Resolved (exec_stdout r2)).
Proof.
  intros command stderr w r1 r2. repeat split; try discriminate.
  - left; reflexivity.
  - eexists _, _. split; vm_compute; reflexivity.
  - eexists _, _, _. split; [|split]; vm_compute; reflexivity.
Qed.

(** The error details of the examples, as the reader gives them. *)
Example details_parse : JSON_parse details_text = Some (JObject details_props).
Proof. vm_compute. reflexivity. Qed.

Lemma stderr_details_reach_the_error_witness :
  let command := "sf project deploy start --json" in
  let w := world project_fs (failing "" details_text) in
  let full := q "/usr/bin/sf" +:+ " project deploy start --json" in
  let r := failing "" details_text full in
  let msg := "Error: " +:+ details_message +:+ newline
             +:+ "Actions: Retry" +:+ newline +:+ "Stack: at deploy" in
  child_reports w fresh command r
  ∧ is_not_found (failed full details_text 1) = false
  ∧ JSON_parse (exec_stderr r) = Some (JObject details_props)
  ∧ (executeSfCommand w command fresh).1 = Ok (Rejected (Error msg))
  ∧ includes msg details_message = true
  ∧ includes msg "Retry" = true
  ∧ includes msg "at deploy" = true.
Proof.
  intros command w full r msg.
  assert (Hr : child_reports w fresh command r).
  { eexists _, _. split; vm_compute; reflexivity. }
  pose proof (stderr_details_reach_the_error (rt := linux_node)
                w fresh command r (failed full details_text 1) details_props
                (Some details_message) (Some ["Retry"]) (Some "at deploy")
                Hr eq_refl eq_refl eq_refl details_parse eq_refl eq_refl eq_refl)
    as (Houtcome & Hmessage & Hactions & Hstack).
  split; [exact Hr|]. split; [reflexivity|]. split; [exact details_parse|].
  split; [exact Houtcome|].
  split; [exact (Hmessage _ eq_refl)|].
  split; [exact (Hactions _ "Retry" eq_refl (or_introl eq_refl))
         | exact (Hstack _ eq_refl)].
Defined.

(** The message [executeSfCommand] builds from those details. *)
Example detailed_message :
  (executeSfCommand (world project_fs (failing "" details_text))
     "sf project deploy start --json" fresh).1
  = Ok (Rejected (Error ("Error: Deploy failed" +:+ newline +:+ "See the log" +:+ newline
                         +:+ "Actions: Retry" +:+ newline +:+ "Stack: at deploy"))).
Proof. vm_compute. reflexivity. Qed.

(** C2 as stated fails.  On the same failure, with no primary output and
    the same parseable error channel, the project invoker and the two raw
    invokers reject with the error of [exec] as it is, whose message holds
    the raw text of the error channel and not the payload's message (here
    a message of two lines).  In [executeSfCommand] itself the details are
    lost when the failure message contains "command not found", and when
    the payload's [actions] is not an array. *)
Lemma stderr_details_lost :
  let command := "sf project deploy start --json" in
  let plain := q "/usr/bin/sf" +:+ " project deploy start --json" in
  let scoped := "cd " +:+ q "/proj" +:+ " && " +:+ plain in
  let w := world project_fs (failing "" details_text) in
  JSON_parse details_text = Some (JObject details_props)
  ∧ lookup_prop "message" details_props = Some (JString details_message)
  ∧ child_reports w fresh command (failing "" details_text plain)
  ∧ project_child_reports w fresh command "/proj" (failing "" details_text scoped)
  ∧ (executeSfCommandInProject w command "/proj" fresh).1
    = Ok (Rejected (ExecError (failed scoped details_text 1)))
  ∧ (executeSfCommandInProjectRaw w command "/proj" fresh).1
    = Ok (Rejected (ExecError (failed scoped details_text 1)))
  ∧ (executeSfCommandRaw w command fresh).1
    = Ok (Rejected (ExecError (failed plain details_text 1)))
  ∧ includes (ex_message (failed scoped details_text 1)) details_message = false
  ∧ includes (ex_message (failed plain details_text 1)) details_message = false
  ∧ (JSON_parse not_found_text
       = Some (JObject [("message", JString ("plugin: command not found"
                                              +:+ newline +:+ "reinstall it"))])
     ∧ (executeSfCommand (world project_fs (failing "" not_found_text)) command fresh).1
       = Ok (Rejected (Error SF_NOT_FOUND))
     ∧ includes SF_NOT_FOUND
         ("plugin: command not found" +:+ newline +:+ "reinstall it") = false)
  ∧ (JSON_parse odd_actions_text
       = Some (JObject [("message", JString details_message);
                        ("actions", JString "Retry")])
     ∧ (executeSfCommand (world project_fs (failing "" odd_actions_text)) command fresh).1
       = Ok (Rejected (ExecError (failed plain odd_actions_text 1)))
     ∧ includes (ex_message (failed plain odd_actions_text 1)) details_message = false).
Proof.
  intros command plain scoped w.
  split; [exact details_parse|].
  split; [reflexivity|].
  split; [eexists _, _; split; vm_compute; reflexivity|].
  split; [eexists _, _, _; split; [|split]; vm_compute; reflexivity|].
  repeat split; vm_compute; reflexivity.
Qed.

Lemma buildSfCommand_without_target_witness :
  let w := world project_fs (exiting "" "") in
  no_target None = true
  ∧ config_unavailable w "/proj"
  ∧ ∃ command,
      (buildSfCommand w "sf data query" None (Some "/proj") fresh).1 = Ok command
      ∧ command = (if includes "sf data query" "--json" then "sf data query"
                   else "sf data query" +:+ " --json")
      ∧ occurrences "--target-org" command = occurrences "--target-org" "sf data query"
      ∧ (includes "sf data query" "--target-org" = false →
         includes command "--target-org" = false).
Proof.
  intros w.
  assert (Hconfig : config_unavailable w "/proj") by (left; reflexivity).
  split; [reflexivity|]. split; [exact Hconfig|].
  exact (buildSfCommand_without_target (rt := linux_node)
           w fresh "sf data query" "/proj" None eq_refl Hconfig).
Defined.

(** The command built there. *)
Example buildSfCommand_plain :
  (buildSfCommand (world project_fs (exiting "" "")) "sf data query" None
     (Some "/proj") fresh).1
  = Ok "sf data query --json".
Proof. vm_compute. reflexivity. Qed.

Lemma json_flag_not_appended_twice_witness :
  let w := world project_fs (exiting "" "") in
  let base := "sf data query --json" in
  includes base "--json" = true
  ∧ (∀ org, Some "dev" = Some org → no_target (Some "dev") = false →
            (buildSfCommand w base (Some "dev") (Some "/proj") fresh).1
            = Ok (base +:+ " --target-org " +:+ org))
  ∧ (buildSfCommand w base (Some "dev") (Some "/proj") fresh).1
    = Ok "sf data query --json --target-org dev"
  ∧ (buildSfCommand (world ExampleProjects.configured_fs (exiting "" "")) base
       None (Some "/proj") fresh).1
    = Ok "sf data query --json --target-org dev@corp.example"
  ∧ (∀ org, occurrences "--json" (base +:+ " --target-org " +:+ org)
            = (occurrences "--json" base + occurrences "--json" org)%nat).
Proof.
  intros w base.
  pose proof (json_flag_not_appended_twice (rt := linux_node)
                w fresh base (Some "dev") (Some "/proj") eq_refl)
    as (Hexplicit & _ & Hcount).
  pose proof (json_flag_not_appended_twice (rt := linux_node)
                (world ExampleProjects.configured_fs (exiting "" "")) fresh base
                None (Some "/proj") eq_refl)
    as (_ & Hdefault & _).
  specialize (Hdefault eq_refl). vm_compute in Hdefault.
  split; [reflexivity|]. split; [exact Hexplicit|].
  split; [exact (Hexplicit "dev" eq_refl eq_refl)|].
  split; [vm_compute; exact Hdefault | exact Hcount].
Defined.

(** The command built there: the flag stays single. *)
Example buildSfCommand_with_json :
  (buildSfCommand (world project_fs (exiting "" "")) "sf data query --json"
     (Some "dev") (Some "/proj") fresh).1
  = Ok "sf data query --json --target-org dev".
Proof. vm_compute. reflexivity. Qed.

Lemma command_unchanged_without_sf_prefix_witness :
  let w := world project_fs (exiting "{}" "") in
  let command := "sfdx force:org:list --json" in
  ¬ begins_with_sf_space command
  ∧ executed (trace (executeSfCommand w command fresh).2)
    = executed (trace fresh) ++ [command]
  ∧ executed (trace (executeSfCommandRaw w command fresh).2)
    = executed (trace fresh) ++ [command]
  ∧ (∀ st0, validateProjectPath w "/proj" fresh = (Ok (), st0) →
       ∃ cd, (cd = "cd " +:+ dquote +:+ path_resolve "/proj" +:+ dquote +:+ " && "
              ∨ cd = "cd /d " +:+ dquote +:+ path_resolve "/proj" +:+ dquote +:+ " && ")
         ∧ executed (trace (executeSfCommandInProject w command "/proj" fresh).2)
           = executed (trace fresh) ++ [cd +:+ command]
         ∧ executed (trace (executeSfCommandInProjectRaw w command "/proj" fresh).2)
           = executed (trace fresh) ++ [cd +:+ command]).
Proof.
  intros w command.
  assert (Hno : ¬ begins_with_sf_space command).
  { intros (c & rest & Heq & Hc). injection Heq as <- <-. discriminate Hc. }
  split; [exact Hno|].
  exact (command_unchanged_without_sf_prefix (rt := linux_node)
           w fresh command "/proj" Hno).
Defined.

(** A leading [sf] and the white space after it give way to the quoted
    path of the executable; an [sf] elsewhere stays. *)
Example replace_sf_examples :
  replace_sf "/usr/bin/sf" "sf   org list" = q "/usr/bin/sf" +:+ " org list"
  ∧ replace_sf "/usr/bin/sf" "echo sf org list" = "echo sf org list"
  ∧ replace_sf "/usr/bin/sf" "sf" = "sf".
Proof. repeat split. Qed.

(** C4, the input on which the code and the claim part: a project
    directory in which [.sf] is a regular file, not a directory, passes
    validation. *)
Lemma validateProjectPath_accepts_marker_file :
  let w := world marker_file_fs (exiting "" "") in
  fs_statSync w "/proj" = Ok {| isDirectory := true |}
  ∧ fs_statSync w "/proj/.sf" = Ok {| isDirectory := false |}
  ∧ validateProjectPath w "/proj" fresh
    = (Ok (), {| cachedSfPath := None;
                 trace := [EvExists "/proj"; EvStat "/proj"; EvExists "/proj/.sf"] |}).
Proof. repeat split. Qed.

(** The other outcomes of validation, on the example file system. *)
Example validateProjectPath_outcomes :
  let w := world project_fs (exiting "" "") in
  validateProjectPath w "   " fresh
    = (Throw (Error "Project path cannot be empty"), fresh)
  ∧ (validateProjectPath w "/nowhere" fresh).1
    = Throw (Error "Project path does not exist: /nowhere")
  ∧ (validateProjectPath w "/usr/bin/sf" fresh).1
    = Throw (Error "Cannot access project path: Project path is not a directory: /usr/bin/sf")
  ∧ (validateProjectPath (world {[ "/proj" := Directory ]} (exiting "" "")) "/proj" fresh).1
    = Throw (Error ("Project path does not contain .sf directory. "
                    +:+ "Please ensure this is a valid Salesforce DX project: /proj"))
  ∧ (validateProjectPath w "/proj" fresh).1 = Ok ().
Proof. repeat split. Qed.

End Examples.

(** ** More on the process invokers *)

Section MoreInvokers.
Context `{rt : Runtime}.

(** X2: a project path that fails validation stops both project invokers at
    once.  The error is thrown synchronously, not delivered as a rejected
    promise; no child process is spawned, the executable is not looked up,
    and the cache stays as it was. *)
Theorem invalid_project_path_throws_synchronously
    (w : World) (st st0 : State) (command projectPath : string) (e : JsError) :
  validateProjectPath w projectPath st = (Throw e, st0) →
  executeSfCommandInProject w command projectPath st = (Throw e, st0)
  ∧ executeSfCommandInProjectRaw w command projectPath st = (Throw e, st0)
  ∧ executed (trace st0) = executed (trace st)
  ∧ cachedSfPath st0 = cachedSfPath st.
Proof.
  intros Hinvalid.
  destruct (executeSfCommandInProject_invalid w command projectPath st st0 e Hinvalid)
    as [H1 H2].
  destruct (validateProjectPath_quiet w projectPath st st0 _ Hinvalid) as [H3 H4].
  auto.
Qed.

(** X3: every invocation spawns exactly one child process: the two plain
    invokers always, the two project invokers whenever the project path
    passes validation (and none otherwise). *)
Theorem one_child_process_per_invocation
    (w : World) (st : State) (command projectPath : string) :
  (∃ c, executed (trace (executeSfCommand w command st).2) = executed (trace st) ++ [c])
  ∧ (∃ c, executed (trace (executeSfCommandRaw w command st).2) = executed (trace st) ++ [c])
  ∧ match (validateProjectPath w projectPath st).1 with
    | Ok _ =>
        ∃ c, executed (trace (executeSfCommandInProject w command projectPath st).2)
               = executed (trace st) ++ [c]
             ∧ executed (trace (executeSfCommandInProjectRaw w command projectPath st).2)
               = executed (trace st) ++ [c]
    | Throw _ =>
        executed (trace (executeSfCommandInProject w command projectPath st).2)
          = executed (trace st)
        ∧ executed (trace (executeSfCommandInProjectRaw w command projectPath st).2)
          = executed (trace st)
    end.
Proof.
  assert (Hlog : ∀ st1 c, executed (trace st1) = executed (trace st) →
            executed (trace (logged st1 (EvExec c))) = executed (trace st) ++ [c]).
  { intros st1 c H. simpl. rewrite executed_app, H. reflexivity. }
  split; [|split].
  - destruct (executeSfCommand_run w command st) as (sfPath & st1 & _ & Hexec & ->).
    eexists. apply Hlog, Hexec.
  - destruct (executeSfCommandRaw_run w command st) as (sfPath & st1 & _ & Hexec & ->).
    eexists. apply Hlog, Hexec.
  - destruct (validateProjectPath w projectPath st) as [[[]|e] st0] eqn:Hvalid; simpl.
    + destruct (executeSfCommandInProject_run w command projectPath st st0 Hvalid)
        as (sfPath & st1 & Hfind & Hexec & ->).
      destruct (executeSfCommandInProjectRaw_run w command projectPath st st0 Hvalid)
        as (sfPath' & st1' & Hfind' & _ & ->).
      rewrite Hfind in Hfind'. injection Hfind' as <- <-.
      eexists. split; apply Hlog, Hexec.
    + destruct (executeSfCommandInProject_invalid w command projectPath st st0 e Hvalid)
        as [-> ->].
      destruct (validateProjectPath_quiet w projectPath st st0 _ Hvalid) as [H3 _].
      auto.
Qed.

(** X4: a failure whose message contains "command not found" or
    "is not recognized" is reported as a missing CLI by all four invokers:
    by the raw ones whatever the channels hold (also for a scanner command
    with output), by the structured ones unless the primary channel holds
    parseable output. *)
Theorem missing_cli_is_reported
    (w : World) (st : State) (command projectPath : string)
    (r : ExecResult) (error : ExecException) :
  exec_error r = Some error →
  is_not_found error = true →
  (child_reports w st command r →
     (executeSfCommandRaw w command st).1 = Ok (Rejected (Error SF_NOT_FOUND))
     ∧ (no_parseable_output r →
        (executeSfCommand w command st).1 = Ok (Rejected (Error SF_NOT_FOUND))))
  ∧ (project_child_reports w st command projectPath r →
     (executeSfCommandInProjectRaw w command projectPath st).1
       = Ok (Rejected (Error SF_NOT_FOUND))
     ∧ (no_parseable_output r →
        (executeSfCommandInProject w command projectPath st).1
          = Ok (Rejected (Error SF_NOT_FOUND)))).
Proof.
  intros Herr Hfound. split; intros Hr; split.
  - rewrite (executeSfCommandRaw_outcome _ _ _ _ Hr).
    unfold executeSfCommandRaw_callback. rewrite Herr, Hfound. reflexivity.
  - intros Hout. rewrite (executeSfCommand_outcome _ _ _ _ Hr).
    unfold executeSfCommand_callback.
    rewrite (parsed_stdout_None _ Hout), Herr, Hfound. reflexivity.
  - rewrite (executeSfCommandInProjectRaw_outcome _ _ _ _ _ Hr).
    unfold executeSfCommandInProjectRaw_callback. rewrite Herr, Hfound. reflexivity.
  - intros Hout. rewrite (executeSfCommandInProject_outcome _ _ _ _ _ Hr).
    unfold executeSfCommandInProject_callback.
    rewrite (parsed_stdout_None _ Hout), Herr, Hfound. reflexivity.
Qed.

Lemma structured_callbacks_resolve (r : ExecResult) (v : JsValue number) :
  (executeSfCommand_callback r = Resolved v
   ↔ exec_stdout r ≠ "" ∧ JSON_parse (exec_stdout r) = Some v)
  ∧ (executeSfCommandInProject_callback r = Resolved v
     ↔ exec_stdout r ≠ "" ∧ JSON_parse (exec_stdout r) = Some v).
Proof.
  assert (Hp : ∀ u, parsed_stdout (exec_stdout r) = Some u
                    ↔ exec_stdout r ≠ "" ∧ JSON_parse (exec_stdout r) = Some u).
  { intros u. unfold parsed_stdout. destruct (exec_stdout r) as [|c s]; simpl.
    - split; [discriminate | intros [H _]; congruence].
    - split; [intros H; split; [discriminate | exact H] | tauto]. }
  unfold executeSfCommand_callback, executeSfCommandInProject_callback,
    reject_with_details.
  destruct (parsed_stdout (exec_stdout r)) as [u|] eqn:Hparsed.
  - destruct (proj1 (Hp u) eq_refl) as [Hne Hu].
    split; (split; [intros [= ->]; auto | intros [_ H]; congruence]).
  - assert (Hno : ¬ (exec_stdout r ≠ "" ∧ JSON_parse (exec_stdout r) = Some v)).
    { intros H. apply Hp in H. discriminate. }
    split; (split; [|tauto]); intros H; exfalso;
      repeat match type of H with
             | context [match ?x with _ => _ end] => destruct x
             end; discriminate.
Qed.

(** X5: the two structured invokers resolve only with parsed output: the
    promise resolves with [v] exactly when the primary channel is not
    empty and parses to [v].  Output that is not JSON is never returned,
    also when the child process exits cleanly. *)
Theorem structured_invokers_resolve_only_parsed_stdout
    (w : World) (st : State) (command projectPath : string)
    (r : ExecResult) (v : JsValue number) :
  (child_reports w st command r →
     ((executeSfCommand w command st).1 = Ok (Resolved v)
      ↔ exec_stdout r ≠ "" ∧ JSON_parse (exec_stdout r) = Some v))
  ∧ (project_child_reports w st command projectPath r →
     ((executeSfCommandInProject w command projectPath st).1 = Ok (Resolved v)
      ↔ exec_stdout r ≠ "" ∧ JSON_parse (exec_stdout r) = Some v)).
Proof.
  destruct (structured_callbacks_resolve r v) as [H1 H2].
  split; intros Hr.
  - rewrite (executeSfCommand_outcome _ _ _ _ Hr). rewrite <- H1.
    split; [intros [= ->]; reflexivity | intros ->; reflexivity].
  - rewrite (executeSfCommandInProject_outcome _ _ _ _ _ Hr). rewrite <- H2.
    split; [intros [= ->]; reflexivity | intros ->; reflexivity].
Qed.

(** X6: when the child process reports no error, the two raw invokers
    resolve with the primary channel as it is, whatever the error channel
    holds and also when the output is empty. *)
Theorem raw_invokers_return_stdout_on_clean_exit
    (w : World) (st : State) (command projectPath : string) (r : ExecResult) :
  exec_error r = None →
  (child_reports w st command r →
     (executeSfCommandRaw w command st).1 = Ok (Resolved (exec_stdout r)))
  ∧ (project_child_reports w st command projectPath r →
     (executeSfCommandInProjectRaw w command projectPath st).1
       = Ok (Resolved (exec_stdout r))).
Proof.
  intros Herr. split; intros Hr.
  - rewrite (executeSfCommandRaw_outcome _ _ _ _ Hr).
    unfold executeSfCommandRaw_callback. rewrite Herr. reflexivity.
  - rewrite (executeSfCommandInProjectRaw_outcome _ _ _ _ _ Hr).
    unfold executeSfCommandInProjectRaw_callback. rewrite Herr. reflexivity.
Qed.

(** X7: a clean exit without parseable output and with an error channel
    that does not contain "Warning" is a failure carrying the error
    channel's text: always in the project invoker, and in [executeSfCommand]
    when that text does not parse as JSON. *)
Theorem stderr_without_warning_is_the_error
    (w : World) (st : State) (command projectPath : string) (r : ExecResult) :
  exec_error r = None →
  no_parseable_output r →
  exec_stderr r ≠ "" →
  includes (exec_stderr r) "Warning" = false →
  (project_child_reports w st command projectPath r →
     (executeSfCommandInProject w command projectPath st).1
       = Ok (Rejected (Error (exec_stderr r))))
  ∧ (child_reports w st command r →
     JSON_parse (exec_stderr r) = None →
     (executeSfCommand w command st).1 = Ok (Rejected (Error (exec_stderr r)))).
Proof.
  intros Herr Hout Hne Hwarn. apply parsed_stdout_None in Hout.
  apply truthy_nonempty in Hne. split.
  - intros Hr. rewrite (executeSfCommandInProject_outcome _ _ _ _ _ Hr).
    unfold executeSfCommandInProject_callback. rewrite Hout, Herr, Hne, Hwarn.
    reflexivity.
  - intros Hr Hparse. rewrite (executeSfCommand_outcome _ _ _ _ Hr).
    unfold executeSfCommand_callback. rewrite Hout, Herr, Hne, Hwarn. simpl.
    unfold reject_with_details. rewrite Hparse. reflexivity.
Qed.

End MoreInvokers.

(** ** More on the executable path *)

Section MoreResolver.
Context `{rt : Runtime}.

Lemma findSfPath_loop_trace (w : World) (paths : list string) (st : State) :
  Forall (λ x, truthy x = true) paths →
  ∃ r st', findSfPath_loop w paths st = (Ok r, st')
    ∧ match r with
      | Some p =>
          ∃ before after, paths = before ++ p :: after
            ∧ trace st' = trace st ++ map EvExists (before ++ [p])
      | None => trace st' = trace st ++ map EvExists paths
      end.
Proof.
  intros Hall. revert st. induction Hall as [|path rest Hpath _ IH]; intros st.
  - exists None, st. split; [reflexivity|]. simpl. symmetry. apply app_nil_r.
  - simpl. rewrite Hpath. unfold bind at 1. rewrite existsSync_run.
    destruct (fs_existsSync w path).
    + eexists (Some path), _. split; [reflexivity|].
      exists [], rest. split; reflexivity.
    + destruct (IH (logged st (EvExists path))) as (r & st' & Hrun & Hr).
      exists r, st'. split; [exact Hrun|]. destruct r as [p|].
      * destruct Hr as (before & after & -> & Htrace).
        exists (path :: before), after. split; [reflexivity|].
        rewrite Htrace. simpl. rewrite <- List.app_assoc. reflexivity.
      * rewrite Hr. simpl. rewrite <- List.app_assoc. reflexivity.
Qed.

(** X8: on a supported family and with an empty cache, [findSfPath] only
    asks whether candidates exist, in the order of the list, and stops at
    the first that does: nothing after it is probed, nothing is stat-ed,
    read or run, and the path returned is left in the cache. *)
Theorem findSfPath_probes_candidates_in_order
    (w : World) (st : State) (candidates : list string) :
  COMMON_SF_PATHS os_platform = Some candidates →
  cachedSfPath st = None →
  ∃ p st' probed, findSfPath w st = (Ok p, st')
    ∧ trace st' = trace st ++ map EvExists probed
    ∧ cachedSfPath st' = Some p
    ∧ ((∃ before after, probed = before ++ [p] ∧ candidates = probed ++ after)
       ∨ (probed = candidates ∧ p = "sf")).
Proof.
  intros Hfamily Hcache.
  pose proof (COMMON_SF_PATHS_truthy _ _ Hfamily) as Htruthy.
  destruct (findSfPath_loop_trace w candidates st Htruthy) as (r & st' & Hrun & Hr).
  destruct (findSfPath_loop_spec w candidates st) as (r' & st'' & Hrun' & _ & Hspec).
  rewrite Hrun in Hrun'. injection Hrun' as <- <-.
  unfold findSfPath. unfold bind at 1. unfold get_cache. rewrite Hcache.
  unfold pathsToCheck. rewrite Hfamily. unfold bind. rewrite Hrun.
  destruct r as [p|].
  - destruct Hr as (before & after & -> & Htrace).
    destruct Hspec as (_ & Hc & _).
    exists p, st', (before ++ [p]). repeat split; auto.
    left. exists before, after. split; [reflexivity|].
    rewrite <- List.app_assoc. reflexivity.
  - eexists _, _, candidates. repeat split; simpl; auto.
Qed.

Lemma chars_app (a b : string) : chars (a +:+ b) = chars a ++ chars b.
Proof.
  induction a as [|c a IH]; [reflexivity|].
  rewrite append_cons. simpl. rewrite IH. reflexivity.
Qed.

Lemma includes_char_false (d : ascii) (s : string) :
  includes s (String d "") = false → Forall (λ c, c ≠ d) (chars s).
Proof.
  induction s as [|c s IH]; intros H; [constructor|].
  simpl in H. destruct (ascii_dec d c) as [<-|Hc].
  - destruct s; discriminate.
  - constructor; [congruence | apply IH]. exact H.
Qed.

Lemma no_dollar_chars (s : string) :
  includes s "$" = false → Forall (λ c, c ≠ "$"%char) (chars s).
Proof. apply includes_char_false. Qed.

(** Without a dollar sign the replacement text stands for itself. *)
Lemma GetSubstitution_plain (replacement matched after : string) :
  Forall (λ c, c ≠ "$"%char) (chars replacement) →
  GetSubstitution replacement matched after = replacement.
Proof.
  induction replacement as [|c r IH]; intros H; [reflexivity|].
  inversion H as [|? ? Hc Hr]; subst. simpl.
  destruct (Ascii.eqb c "$") eqn:He.
  - apply Ascii.eqb_eq in He. congruence.
  - rewrite (IH Hr). reflexivity.
Qed.

Lemma span_space_app (ws rest : string) :
  all_space ws = true →
  span_space (ws +:+ rest) = (ws +:+ (span_space rest).1, (span_space rest).2).
Proof.
  induction ws as [|c ws IH]; intros H.
  - rewrite !append_empty_l. destruct (span_space rest); reflexivity.
  - simpl in H. apply andb_true_iff in H as [Hc Hws].
    rewrite !append_cons. simpl. rewrite Hc, (IH Hws). reflexivity.
Qed.

Lemma span_space_rest (s : string) : (span_space s).2 = trimStart s.
Proof.
  induction s as [|c s IH]; [reflexivity|]. simpl.
  destruct (is_space c); [|reflexivity].
  destruct (span_space s). exact IH.
Qed.

(** X9: in a command that begins with [sf] and white space, the name and
    the whole run of white space after it give way to the quoted path of
    the executable and one space, when that path holds no dollar sign (a
    dollar sign would be read as a replacement pattern). *)
Theorem leading_sf_becomes_the_quoted_path (sfPath ws rest : string) :
  ws ≠ "" →
  all_space ws = true →
  includes sfPath "$" = false →
  replace_sf sfPath ("sf" +:+ ws +:+ rest)
    = dquote +:+ sfPath +:+ dquote +:+ " " +:+ trimStart rest.
Proof.
  intros Hne Hws Hplain.
  change ("sf" +:+ ws +:+ rest) with (String "s" (String "f" (ws +:+ rest))).
  unfold replace_sf, match_sf_prefix.
  change (Ascii.eqb "s" "s" && Ascii.eqb "f" "f") with true. cbv iota.
  rewrite (span_space_app ws rest Hws), span_space_rest.
  destruct ws as [|c ws]; [congruence|]. rewrite append_cons.
  rewrite GetSubstitution_plain.
  - rewrite !append_assoc. reflexivity.
  - rewrite !chars_app. apply no_dollar_chars in Hplain.
    repeat (apply Forall_app; split); auto; repeat constructor; discriminate.
Qed.

End MoreResolver.

Section RawProjectFailure.
Context `{rt : Runtime}.

(** X10: a failure of the raw project invoker on a command that contains
    [--json] and is no analysis command, with a primary channel that
    parses to an object.  When the failure message contains
    "command not found" or "is not recognized", the promise is rejected
    with the fixed error of a missing CLI, whatever the object holds.
    Otherwise, when the object's [status] or [exitCode] is 1, with a
    non-empty string [message] and plain details, the promise is rejected
    with a new error made of that message, the actions under
    "Suggested actions:" and the stack under "Stack trace:"; and when
    neither field is 1 it is rejected with the error of [exec] as it is. *)
Theorem cli_error_on_stdout_of_the_raw_project_invoker
    (w : World) (st : State) (command projectPath : string)
    (r : ExecResult) (error : ExecException) (props : list (string * JsValue number)) :
  project_child_reports w st command projectPath r →
  exec_error r = Some error →
  includes command "scanner" = false →
  includes command "code-analyzer" = false →
  includes command "--json" = true →
  exec_stdout r ≠ "" →
  JSON_parse (exec_stdout r) = Some (JObject props) →
  (is_not_found error = true →
   (executeSfCommandInProjectRaw w command projectPath st).1
     = Ok (Rejected (Error SF_NOT_FOUND)))
  ∧ (is_not_found error = false →
     is_one (lookup_prop "status" props) || is_one (lookup_prop "exitCode" props) = true →
     plain_details props →
     ∀ m, lookup_prop "message" props = Some (JString m) → m ≠ "" →
     ∃ actions stack,
       (executeSfCommandInProjectRaw w command projectPath st).1
         = Ok (Rejected (Error (m +:+ actions +:+ stack)))
       ∧ (lookup_prop "actions" props = None → actions = "")
       ∧ (∀ l, lookup_prop "actions" props = Some (JArray (map JString l)) →
               actions = newline +:+ "Suggested actions:" +:+ newline +:+ join newline l)
       ∧ (lookup_prop "stack" props = None → stack = "")
       ∧ (∀ s, lookup_prop "stack" props = Some (JString s) →
               stack = if truthy s then newline +:+ "Stack trace:" +:+ newline +:+ s
                       else ""))
  ∧ (is_not_found error = false →
     is_one (lookup_prop "status" props) || is_one (lookup_prop "exitCode" props) = false →
     (executeSfCommandInProjectRaw w command projectPath st).1
       = Ok (Rejected (ExecError error))).
Proof.
  intros Hr Herr Hscan Hanalyzer Hjson Hout Hparse.
  rewrite (executeSfCommandInProjectRaw_outcome _ _ _ _ _ Hr).
  unfold executeSfCommandInProjectRaw_callback, scanner_output.
  rewrite Herr.
  split; [intros ->; reflexivity|].
  split; intros Hfound; rewrite Hfound, Hscan, Hanalyzer, Hjson, Hparse;
    rewrite (truthy_nonempty _ Hout); simpl andb; cbv iota;
    unfold json_failure, get_field, bind_result.
  - intros Hone (_ & Ha & Hs) m Hm Hne. rewrite Hone, Hm.
    unfold or_value. simpl truthy_value. rewrite (truthy_nonempty _ Hne).
    destruct Ha as [Ha | [l Ha]], Hs as [Hs | [s Hs]];
      rewrite Ha, Hs; simpl; rewrite ?join_items_strings;
      try (destruct (truthy s) eqn:Hts; simpl);
      (eexists _, _; split; [reflexivity|]);
      repeat split; intros; simplify_eq; try reflexivity.
    all: try (match goal with H : map JString _ = map JString _ |- _ =>
                apply JString_map_inj in H; subst end); try reflexivity.
    all: try (rewrite Hts; reflexivity).
  - intros ->. reflexivity.
Qed.

End RawProjectFailure.

(** ** More on the command builder *)

Section MoreBuilder.
Context `{rt : Runtime}.

(** X11: [getDefaultUsername] never throws, whatever the file system and
    the parser do: it returns the [defaultusername] of the configuration
    when the file exists, can be read and parses to a value other than
    [null], and [undefined] in every other case.  It runs no command and
    leaves the cache alone. *)
Theorem getDefaultUsername_never_throws
    (w : World) (st : State) (projectPath : string) :
  let configPath := path_join [path_resolve projectPath; ".sfdx"; "sfdx-config.json"] in
  ∃ (v : Value) st',
    getDefaultUsername w projectPath st = (Ok v, st')
    ∧ executed (trace st') = executed (trace st)
    ∧ cachedSfPath st' = cachedSfPath st
    ∧ (config_unavailable w projectPath → v = None)
    ∧ (∀ content config,
         fs_existsSync w configPath = true →
         fs_readFileSync w configPath = Ok content →
         JSON_parse content = Some config →
         v = match get_field config "defaultusername" with
             | Ok field => field
             | Throw _ => None
             end).
Proof.
  intros configPath.
  unfold getDefaultUsername, config_unavailable, try_catch, bind.
  fold configPath. rewrite existsSync_run.
  destruct (fs_existsSync w configPath) eqn:Hex; simpl.
  - unfold readFileSync, bind, emit, lift, ret.
    destruct (fs_readFileSync w configPath) as [content|e] eqn:Hread.
    + unfold JSON_parse_or_throw.
      destruct (JSON_parse content) as [config|] eqn:Hparse.
      * destruct (get_field config "defaultusername") as [field|e] eqn:Hfield;
          (eexists _, _; split; [reflexivity|]); simpl;
          rewrite !executed_app; simpl; rewrite !app_nil_r;
          (split; [reflexivity|]); (split; [reflexivity|]); split.
        -- intros [H | [[e' H] | (c' & H1 & H2)]]; congruence.
        -- intros c' config' _ [= <-] H. rewrite Hparse in H.
           injection H as <-. rewrite Hfield. reflexivity.
        -- reflexivity.
        -- intros c' config' _ [= <-] H. rewrite Hparse in H.
           injection H as <-. rewrite Hfield. reflexivity.
      * eexists _, _; split; [reflexivity|]; simpl.
        rewrite !executed_app; simpl; rewrite !app_nil_r.
        repeat split; auto. intros c' config' _ [= <-] H. congruence.
    + eexists _, _; split; [reflexivity|]; simpl.
      rewrite !executed_app; simpl; rewrite !app_nil_r.
      repeat split; auto. intros c' config' _ H. congruence.
  - eexists _, _; split; [reflexivity|]; simpl.
    rewrite ?executed_app; simpl; rewrite ?app_nil_r.
    repeat split; auto. intros c' config' H. congruence.
Qed.

(** X12: an explicit target (not empty, not blank) is used as it is, white
    space around it included; the project's configuration is not read, the
    file system not touched.  [--json] is appended unless the base command
    or the target already contains it. *)
Theorem buildSfCommand_with_explicit_target
    (w : World) (st : State) (baseCommand target : string)
    (sourcePath : option string) :
  no_target (Some target) = false →
  let command := baseCommand +:+ " --target-org " +:+ target in
  buildSfCommand w baseCommand (Some target) sourcePath st
    = (Ok (if includes command "--json" then command else command +:+ " --json"), st).
Proof.
  intros Hno command. simpl in Hno.
  apply orb_false_iff in Hno as [Hs Ht].
  apply negb_false_iff in Hs, Ht.
  assert (Hno : no_target (Some target) = false).
  { simpl. rewrite Hs, Ht. reflexivity. }
  unfold buildSfCommand, select_org. rewrite Hno.
  destruct sourcePath as [[|c p]|]; unfold bind, ret, lift; simpl;
    rewrite Hs; simpl; rewrite Ht; fold command;
    destruct (includes command "--json"); reflexivity.
Qed.

(** X13: whenever [buildSfCommand] returns, the command it returns begins
    with the base command and contains [--json]. *)
Theorem built_command_requests_json
    (w : World) (st : State) (baseCommand : string)
    (targetOrg sourcePath : option string) (command : string) :
  (buildSfCommand w baseCommand targetOrg sourcePath st).1 = Ok command →
  String.prefix baseCommand command = true ∧ includes command "--json" = true.
Proof.
  destruct (buildSfCommand_cases w st baseCommand targetOrg sourcePath)
    as (orgToUse & st' & _ & ->).
  assert (Hfinish : ∀ c, String.prefix baseCommand c = true →
            String.prefix baseCommand
              (if negb (includes c "--json") then c +:+ " --json" else c) = true
            ∧ includes (if negb (includes c "--json") then c +:+ " --json" else c)
                "--json" = true).
  { intros c Hc. destruct (includes c "--json") eqn:Hj; simpl.
    - auto.
    - split; [apply prefix_app_l, Hc | apply includes_app_r; reflexivity]. }
  assert (Hbase : String.prefix baseCommand baseCommand = true).
  { rewrite <- (append_empty_r baseCommand) at 2. apply prefix_app. }
  destruct (truthy_value orgToUse).
  - destruct orgToUse as [[| b | n | s | items | props]|]; try discriminate.
    destruct (truthy (trim s)); intros [= <-]; apply Hfinish;
      [apply prefix_app | exact Hbase].
  - intros [= <-]. apply Hfinish, Hbase.
Qed.

End MoreBuilder.

(** ** The tools built on the invokers *)

Section MoreTools.
Context `{rt : Runtime}.

Lemma async_await_run {A} (m : M (Promise A)) (st : State) :
  async (await m) st
    = match m st with
      | (Ok p, st') => (Ok p, st')
      | (Throw e, st') => (Ok (Rejected e), st')
      end.
Proof.
  unfold async, await, bind. destruct (m st) as [[[a|e]|e] st']; reflexivity.
Qed.

Lemma async_await_outcome {A} (m : M (Promise A)) (st : State) (p : Promise A) :
  (m st).1 = Ok p → (async (await m) st).1 = Ok p.
Proof.
  rewrite async_await_run. destruct (m st) as [[q|e] st']; simpl; congruence.
Qed.

Lemma append_when_keeps (P : string → Prop) (c : bool) (text command : string) :
  (∀ a b, P a → P (a +:+ b)) → P command → P (append_when c text command).
Proof. intros HP H. destruct c; simpl; auto. Qed.

Lemma append_each_keeps (P : string → Prop) (flag : string) (l : list string)
    (command : string) :
  (∀ a b, P a → P (a +:+ b)) → P command → P (append_each flag l command).
Proof.
  intros HP. unfold append_each. revert command.
  induction l as [|x l IH]; intros command H; simpl; auto.
Qed.

Lemma number_flag_keeps (P : string → Prop) (flag : string) (o : option number)
    (command : string) :
  (∀ a b, P a → P (a +:+ b)) → P command →
  P match o with
    | Some n => command +:+ flag +:+ Number_toString n
    | None => command
    end.
Proof. intros HP H. destruct o; auto. Qed.

Lemma when_items_keeps (P : string → Prop) (flag : string) (o : option (list string))
    (command : string) :
  (∀ a b, P a → P (a +:+ b)) → P command →
  P (if some_items o then append_each flag (items_of o) command else command).
Proof.
  intros HP H. destruct (some_items o); [apply append_each_keeps|]; assumption.
Qed.

Ltac keeps HP :=
  repeat first [ apply (append_when_keeps _ _ _ _ HP)
               | apply (number_flag_keeps _ _ _ _ HP)
               | apply (when_items_keeps _ _ _ _ HP) ].

Lemma scanner_commands (target category engine projectDir : option (list string))
    (eslintConfig pmdConfig tsConfig format outfile sfgeJvmArgs : option string)
    (severityThreshold ruleThreadCount ruleThreadTimeout pathExpLimit : option number)
    (normalizeSeverity verbose verboseViolations withPilot
       ruleDisableWarningViolation : option bool)
    (P : string → Prop) :
  (∀ a b, P a → P (a +:+ b)) →
  (P "sf scanner run" →
   P (runScanner_command target category engine eslintConfig pmdConfig tsConfig
        format outfile severityThreshold normalizeSeverity projectDir verbose
        verboseViolations))
  ∧ (P "sf scanner run dfa" →
     P (runScannerDfa_command target projectDir category format outfile
          severityThreshold normalizeSeverity withPilot verbose ruleThreadCount
          ruleThreadTimeout ruleDisableWarningViolation sfgeJvmArgs pathExpLimit)).
Proof.
  intros HP. split; intros H;
    unfold runScanner_command, runScannerDfa_command; cbv zeta; keeps HP; exact H.
Qed.

Lemma analyzer_commands (workspace target ruleSelector : option (list string))
    (outputFile severity configFile view : option string) (P : string → Prop) :
  (∀ a b, P a → P (a +:+ b)) →
  (P "sf code-analyzer run" →
   P (runCodeAnalyzer_command workspace target outputFile ruleSelector severity
        configFile))
  ∧ (P "sf code-analyzer rules" →
     P (listCodeAnalyzerRules_command workspace target configFile ruleSelector view)).
Proof.
  intros HP. split; intros H;
    unfold runCodeAnalyzer_command, listCodeAnalyzerRules_command; cbv zeta;
    keeps HP; exact H.
Qed.

Lemma analysis_output_resolves (w : World) (st : State) (command sourcePath : string)
    (r : ExecResult) (error : ExecException) :
  includes command "scanner" = true ∨ includes command "code-analyzer" = true →
  exec_error r = Some error → is_not_found error = false → exec_stdout r ≠ "" →
  project_child_reports w st command sourcePath r →
  (async (await (executeSfCommandInProjectRaw w command sourcePath)) st).1
    = Ok (Resolved (exec_stdout r)).
Proof.
  intros Hcmd Herr Hfound Hout Hr. apply async_await_outcome.
  rewrite (executeSfCommandInProjectRaw_outcome _ _ _ _ _ Hr).
  unfold executeSfCommandInProjectRaw_callback.
  rewrite Herr, Hfound, (scanner_output_true _ _ Hcmd Hout). reflexivity.
Qed.

(** X15: the two scanner tools always run a command that begins with
    [sf scanner run], whatever their arguments.  So when the scan exits
    with a failure (violations found) and has printed a report, the tool
    returns the report instead of failing, unless the failure message has
    one of the two not-found phrases. *)
Theorem scanner_tools_return_the_report
    (w : World) (st : State) (sourcePath : string)
    (target category engine projectDir : option (list string))
    (eslintConfig pmdConfig tsConfig format outfile sfgeJvmArgs : option string)
    (severityThreshold ruleThreadCount ruleThreadTimeout pathExpLimit : option number)
    (normalizeSeverity verbose verboseViolations withPilot
       ruleDisableWarningViolation : option bool)
    (r : ExecResult) (error : ExecException) :
  let command :=
    runScanner_command target category engine eslintConfig pmdConfig tsConfig
      format outfile severityThreshold normalizeSeverity projectDir verbose
      verboseViolations in
  let dfa :=
    runScannerDfa_command target projectDir category format outfile
      severityThreshold normalizeSeverity withPilot verbose ruleThreadCount
      ruleThreadTimeout ruleDisableWarningViolation sfgeJvmArgs pathExpLimit in
  exec_error r = Some error →
  is_not_found error = false →
  exec_stdout r ≠ "" →
  (String.prefix "sf scanner run" command = true
   ∧ (project_child_reports w st command sourcePath r →
      (runScanner w sourcePath target category engine eslintConfig pmdConfig
         tsConfig format outfile severityThreshold normalizeSeverity projectDir
         verbose verboseViolations st).1 = Ok (Resolved (exec_stdout r))))
  ∧ (String.prefix "sf scanner run dfa" dfa = true
     ∧ (project_child_reports w st dfa sourcePath r →
        (runScannerDfa w sourcePath target projectDir category format outfile
           severityThreshold normalizeSeverity withPilot verbose ruleThreadCount
           ruleThreadTimeout ruleDisableWarningViolation sfgeJvmArgs pathExpLimit
           st).1 = Ok (Resolved (exec_stdout r)))).
Proof.
  intros command dfa Herr Hfound Hout.
  pose proof (λ P, scanner_commands target category engine projectDir eslintConfig
                pmdConfig tsConfig format outfile sfgeJvmArgs severityThreshold
                ruleThreadCount ruleThreadTimeout pathExpLimit normalizeSeverity
                verbose verboseViolations withPilot ruleDisableWarningViolation P)
    as Hcommands.
  fold command dfa in Hcommands.
  split; split.
  - apply (Hcommands (λ c, String.prefix "sf scanner run" c = true));
      [intros a b; apply prefix_app_l | reflexivity].
  - apply analysis_output_resolves with (error := error); auto. left.
    apply (Hcommands (λ c, includes c "scanner" = true));
      [intros a b; apply includes_app_l | reflexivity].
  - apply (Hcommands (λ c, String.prefix "sf scanner run dfa" c = true));
      [intros a b; apply prefix_app_l | reflexivity].
  - apply analysis_output_resolves with (error := error); auto. left.
    apply (Hcommands (λ c, includes c "scanner" = true));
      [intros a b; apply includes_app_l | reflexivity].
Qed.

(** X16: the two code-analyzer tools always run a command that begins
    with [sf code-analyzer], so a failed run that printed a report returns
    the report, as for the scanner tools. *)
Theorem code_analyzer_tools_return_the_report
    (w : World) (st : State) (sourcePath : string)
    (workspace target ruleSelector : option (list string))
    (outputFile severity configFile view : option string)
    (r : ExecResult) (error : ExecException) :
  let command :=
    runCodeAnalyzer_command workspace target outputFile ruleSelector severity
      configFile in
  let rules :=
    listCodeAnalyzerRules_command workspace target configFile ruleSelector view in
  exec_error r = Some error →
  is_not_found error = false →
  exec_stdout r ≠ "" →
  (String.prefix "sf code-analyzer run" command = true
   ∧ (project_child_reports w st command sourcePath r →
      (runCodeAnalyzer w sourcePath workspace target outputFile ruleSelector
         severity configFile st).1 = Ok (Resolved (exec_stdout r))))
  ∧ (String.prefix "sf code-analyzer rules" rules = true
     ∧ (project_child_reports w st rules sourcePath r →
        (listCodeAnalyzerRules w sourcePath workspace target configFile
           ruleSelector view st).1 = Ok (Resolved (exec_stdout r)))).
Proof.
  intros command rules Herr Hfound Hout.
  pose proof (λ P, analyzer_commands workspace target ruleSelector outputFile
                severity configFile view P) as Hcommands.
  fold command rules in Hcommands.
  split; split.
  - apply (Hcommands (λ c, String.prefix "sf code-analyzer run" c = true));
      [intros a b; apply prefix_app_l | reflexivity].
  - apply analysis_output_resolves with (error := error); auto. right.
    apply (Hcommands (λ c, includes c "code-analyzer" = true));
      [intros a b; apply includes_app_l | reflexivity].
  - apply (Hcommands (λ c, String.prefix "sf code-analyzer rules" c = true));
      [intros a b; apply prefix_app_l | reflexivity].
  - apply analysis_output_resolves with (error := error); auto. right.
    apply (Hcommands (λ c, includes c "code-analyzer" = true));
      [intros a b; apply includes_app_l | reflexivity].
Qed.

(** X17: the analysis tools are async functions: a project path that
    fails validation makes them return a rejected promise carrying the
    validation error (the invoker itself throws it synchronously); no
    command is run. *)
Theorem analysis_tools_reject_an_invalid_project
    (w : World) (st st0 : State) (sourcePath : string) (e : JsError)
    (target category engine projectDir workspace ruleSelector : option (list string))
    (eslintConfig pmdConfig tsConfig format outfile sfgeJvmArgs outputFile severity
       configFile view : option string)
    (severityThreshold ruleThreadCount ruleThreadTimeout pathExpLimit : option number)
    (normalizeSeverity verbose verboseViolations withPilot
       ruleDisableWarningViolation : option bool) :
  validateProjectPath w sourcePath st = (Throw e, st0) →
  runScanner w sourcePath target category engine eslintConfig pmdConfig tsConfig
    format outfile severityThreshold normalizeSeverity projectDir verbose
    verboseViolations st = (Ok (Rejected e), st0)
  ∧ runScannerDfa w sourcePath target projectDir category format outfile
      severityThreshold normalizeSeverity withPilot verbose ruleThreadCount
      ruleThreadTimeout ruleDisableWarningViolation sfgeJvmArgs pathExpLimit st
    = (Ok (Rejected e), st0)
  ∧ runCodeAnalyzer w sourcePath workspace target outputFile ruleSelector severity
      configFile st = (Ok (Rejected e), st0)
  ∧ listCodeAnalyzerRules w sourcePath workspace target configFile ruleSelector
      view st = (Ok (Rejected e), st0)
  ∧ executed (trace st0) = executed (trace st).
Proof.
  intros Hinvalid.
  assert (H : ∀ command,
            async (await (executeSfCommandInProjectRaw w command sourcePath)) st
            = (Ok (Rejected e), st0)).
  { intros command. rewrite async_await_run.
    destruct (executeSfCommandInProject_invalid w command sourcePath st st0 e Hinvalid)
      as [_ ->]. reflexivity. }
  destruct (validateProjectPath_quiet w sourcePath st st0 _ Hinvalid) as [Hquiet _].
  unfold runScanner, runScannerDfa, runCodeAnalyzer, listCodeAnalyzerRules.
  cbv zeta. rewrite !H. auto.
Qed.

End MoreTools.

(** ** The query and search tools *)

Section MoreQueries.
Context `{rt : Runtime}.

(** [try { const result = await executeSfCommandInProject(...);
          return result.result.records || [] } catch (error) { throw error }]
    in an async function whose earlier statements ran to [st1]. *)
Lemma records_tail (w : World) (st1 : State) (sfCommand sourcePath : string)
    (r : ExecResult) :
  project_child_reports w st1 sfCommand sourcePath r →
  (try_catch
     (let* result := await (executeSfCommandInProject w sfCommand sourcePath) in
      lift (records_of result))
     (λ error, throw error) st1).1
  = match executeSfCommandInProject_callback r with
    | Resolved v => records_of v
    | Rejected e => Throw e
    end.
Proof.
  intros Hr. pose proof (executeSfCommandInProject_outcome _ _ _ _ _ Hr) as Hout.
  unfold try_catch, await, bind, lift, throw.
  destruct (executeSfCommandInProject w sfCommand sourcePath st1) as [[p|e] st2];
    simpl in Hout; [|discriminate].
  injection Hout as ->.
  destruct (executeSfCommandInProject_callback r) as [v|e]; simpl; [|reflexivity].
  destruct (records_of v); reflexivity.
Qed.

Lemma async_bind_outcome {A B} (m : M A) (k : A → M B) (st st1 : State) (a : A) :
  m st = (Ok a, st1) →
  (async (let* x := m in k x) st).1
  = match (k a st1).1 with
    | Ok b => Ok (Resolved b)
    | Throw e => Ok (Rejected e)
    end.
Proof.
  intros H. unfold async, bind. rewrite H.
  destruct (k a st1) as [[b|e] st2]; reflexivity.
Qed.

(** X18: [executeSoqlQuery] reads [result.result.records] off whatever the
    CLI printed.  When the output is an object without a [result] field
    (the error payload the CLI prints with --json), the tool fails with a
    TypeError about [records], and the payload is lost; when [result] is an
    object, the tool returns its [records] array, or an empty array when
    there is no such field. *)
Theorem soql_records_or_type_error
    (w : World) (st st1 : State) (sourcePath sObject selectClause : string)
    (targetOrg where_ : option string) (limit : option number)
    (orderBy : option string) (sfCommand : string) (r : ExecResult)
    (props : list (string * JsValue number)) :
  let query := soql_query sObject selectClause where_ limit orderBy in
  let outcome :=
    (executeSoqlQuery w sourcePath sObject selectClause targetOrg where_ limit
       orderBy st).1 in
  buildSfCommand w ("sf data query --query " +:+ dquote +:+ query +:+ dquote)
    targetOrg (Some sourcePath) st = (Ok sfCommand, st1) →
  project_child_reports w st1 sfCommand sourcePath r →
  exec_stdout r ≠ "" →
  JSON_parse (exec_stdout r) = Some (JObject props) →
  (lookup_prop "result" props = None →
     outcome = Ok (Rejected (TypeError
                 "Cannot read properties of undefined (reading 'records')")))
  ∧ (∀ inner items,
       lookup_prop "result" props = Some (JObject inner) →
       lookup_prop "records" inner = Some (JArray items) →
       outcome = Ok (Resolved (Some (JArray items))))
  ∧ (∀ inner,
       lookup_prop "result" props = Some (JObject inner) →
       lookup_prop "records" inner = None →
       outcome = Ok (Resolved (Some (JArray [])))).
Proof.
  intros query outcome Hbuild Hr Hout Hparse.
  assert (Houtcome : outcome = match records_of (JObject props) with
                               | Ok b => Ok (Resolved b)
                               | Throw e => Ok (Rejected e)
                               end).
  { unfold outcome, executeSoqlQuery. cbv zeta. fold query.
    rewrite (async_bind_outcome _ _ _ _ _ Hbuild), (records_tail _ _ _ _ _ Hr).
    unfold executeSfCommandInProject_callback, parsed_stdout.
    rewrite (truthy_nonempty _ Hout), Hparse. reflexivity. }
  rewrite Houtcome. unfold records_of, get_field, bind_result.
  split; [|split].
  - intros ->. reflexivity.
  - intros inner items -> . simpl. intros ->. reflexivity.
  - intros inner -> . simpl. intros ->. reflexivity.
Qed.

(** X19: [executeSoqlQueryRaw] refuses an empty or blank query before
    anything else: the promise is rejected with "Query cannot be empty",
    the configuration is not read and no command is run. *)
Theorem blank_query_is_rejected_at_once
    (w : World) (st : State) (sourcePath query : string) (targetOrg : option string) :
  all_space query = true →
  executeSoqlQueryRaw w sourcePath query targetOrg st
    = (Ok (Rejected (Error "Query cannot be empty")), st).
Proof.
  intros Hblank. unfold executeSoqlQueryRaw, async. rewrite blank_path, Hblank.
  reflexivity.
Qed.

(** X20: [executeSoslQuery] with neither a query nor a file (absent or
    empty) is rejected with "Either query or file must be provided" and
    does nothing else; with both, the query is used and the file ignored. *)
Theorem sosl_needs_a_query_or_a_file
    (w : World) (st : State) (sourcePath : string)
    (targetOrg query file file' : option string) :
  (given query = false → given file = false →
     executeSoslQuery w sourcePath targetOrg query file st
       = (Ok (Rejected (Error "Either query or file must be provided")), st))
  ∧ (given query = true →
     executeSoslQuery w sourcePath targetOrg query file st
       = executeSoslQuery w sourcePath targetOrg query file' st).
Proof.
  unfold executeSoslQuery, async, bind, throw. split.
  - intros -> ->. reflexivity.
  - intros ->. reflexivity.
Qed.

(** X21: output of the search command that is not JSON does not fail
    [executeSoslQuery]: whenever the raw invoker resolves with a text, the
    tool resolves too, with the parsed value, or with
    [{searchRecords: [], rawOutput: text}] when the text does not parse. *)
Theorem sosl_wraps_unparseable_output
    (w : World) (st st1 : State) (sourcePath : string)
    (targetOrg query file : option string) (sfCommand text : string) :
  let base :=
    if given query
    then "sf data search --query " +:+ dquote +:+ text_of query +:+ dquote
    else "sf data search --file " +:+ dquote +:+ text_of file +:+ dquote in
  given query || given file = true →
  buildSfCommand w base targetOrg (Some sourcePath) st = (Ok sfCommand, st1) →
  (executeSfCommandInProjectRaw w sfCommand sourcePath st1).1 = Ok (Resolved text) →
  (executeSoslQuery w sourcePath targetOrg query file st).1
    = Ok (Resolved match JSON_parse text with
                   | Some parsed => parsed
                   | None => JObject [("searchRecords", JArray []);
                                      ("rawOutput", JString text)]
                   end).
Proof.
  intros base Hgiven Hbuild Hraw. unfold executeSoslQuery.
  assert (Hcmd : (if given query then
                    buildSfCommand w
                      ("sf data search --query " +:+ dquote +:+ text_of query +:+ dquote)
                      targetOrg (Some sourcePath)
                  else if given file then
                    buildSfCommand w
                      ("sf data search --file " +:+ dquote +:+ text_of file +:+ dquote)
                      targetOrg (Some sourcePath)
                  else throw (Error "Either query or file must be provided")) st
                 = (Ok sfCommand, st1)).
  { unfold base in Hbuild. destruct (given query); [exact Hbuild|].
    simpl in Hgiven. rewrite Hgiven. exact Hbuild. }
  rewrite (async_bind_outcome _ _ _ _ _ Hcmd).
  unfold try_catch, await, bind, ret.
  destruct (executeSfCommandInProjectRaw w sfCommand sourcePath st1) as [[p|e] st2];
    simpl in Hraw; [|discriminate].
  injection Hraw as ->. simpl.
  destruct (JSON_parse text); reflexivity.
Qed.


End MoreQueries.

(** ** The default org of the project *)

Section MoreDefaults.
Context `{rt : Runtime}.

Lemma getDefaultUsername_configured (w : World) (st : State) (projectPath content : string)
    (config : JsValue number) (field : Value) :
  let configPath := path_join [path_resolve projectPath; ".sfdx"; "sfdx-config.json"] in
  fs_existsSync w configPath = true →
  fs_readFileSync w configPath = Ok content →
  JSON_parse content = Some config →
  get_field config "defaultusername" = Ok field →
  ∃ st', getDefaultUsername w projectPath st = (Ok field, st').
Proof.
  intros configPath Hex Hread Hparse Hfield.
  unfold getDefaultUsername, try_catch, bind. fold configPath.
  rewrite existsSync_run, Hex. simpl.
  unfold readFileSync, bind, emit, lift, ret. rewrite Hread.
  unfold JSON_parse_or_throw. rewrite Hparse, Hfield. eauto.
Qed.

(** X14: without a usable target, and with a project path, the builder
    takes the org from the [defaultusername] field of the project's
    configuration: a string that is not blank is appended as the target,
    as it is; a value that is truthy but not a string makes the builder
    throw a TypeError, since it calls [trim] on it. *)
Theorem buildSfCommand_uses_the_configured_org
    (w : World) (st : State) (baseCommand sourcePath content : string)
    (targetOrg : option string) (props : list (string * JsValue number)) :
  let configPath := path_join [path_resolve sourcePath; ".sfdx"; "sfdx-config.json"] in
  let outcome := (buildSfCommand w baseCommand targetOrg (Some sourcePath) st).1 in
  no_target targetOrg = true →
  sourcePath ≠ "" →
  fs_existsSync w configPath = true →
  fs_readFileSync w configPath = Ok content →
  JSON_parse content = Some (JObject props) →
  (∀ u, lookup_prop "defaultusername" props = Some (JString u) →
        no_target (Some u) = false →
        let command := baseCommand +:+ " --target-org " +:+ u in
        outcome = Ok (if includes command "--json" then command
                      else command +:+ " --json"))
  ∧ (∀ v, lookup_prop "defaultusername" props = Some v →
          truthy_value (Some v) = true →
          (∀ u, v ≠ JString u) →
          outcome = Throw (TypeError "orgToUse.trim is not a function")).
Proof.
  intros configPath outcome Hno Hpath Hex Hread Hparse.
  destruct (buildSfCommand_cases w st baseCommand targetOrg (Some sourcePath))
    as (orgToUse & st' & Hsel & Hcases).
  fold outcome in Hcases.
  assert (Horg : orgToUse = lookup_prop "defaultusername" props).
  { destruct (getDefaultUsername_configured w st sourcePath content (JObject props)
                (lookup_prop "defaultusername" props) Hex Hread Hparse eq_refl)
      as (st'' & Hdefault).
    unfold select_org in Hsel. rewrite Hno in Hsel.
    destruct sourcePath as [|c path]; [congruence|]. congruence. }
  rewrite Hcases, Horg. split.
  - intros u -> Hu command. simpl in Hu. apply orb_false_iff in Hu as [Hs Ht].
    apply negb_false_iff in Hs, Ht. simpl. rewrite Hs, Ht. fold command.
    destruct (includes command "--json"); reflexivity.
  - intros v -> Hv Hother. rewrite Hv.
    destruct v as [| b | n | s | items | props']; try reflexivity.
    destruct (Hother s eq_refl).
Qed.

End MoreDefaults.

(** ** The authenticated orgs *)

Section MoreOrgs.
Import Orgs.

Lemma names_describe (sf : SfCore) (targetOrg : string) (auth : OrgAuthorization) :
  names_org targetOrg (describe sf auth) = names_auth targetOrg auth.
Proof.
  unfold names_org, names_auth, describe.
  destruct (and_then _ _); reflexivity.
Qed.

Lemma existsb_describe (sf : SfCore) (targetOrg : string) (auths : list OrgAuthorization) :
  existsb (names_org targetOrg) (map (describe sf) auths)
  = existsb (names_auth targetOrg) auths.
Proof.
  induction auths as [|a l IH]; simpl; [reflexivity|].
  rewrite names_describe, IH. reflexivity.
Qed.

Lemma find_describe (sf : SfCore) (targetOrg : string) (auths : list OrgAuthorization) :
  List.find (names_org targetOrg) (map (describe sf) auths)
  = describe sf <$> List.find (names_auth targetOrg) auths.
Proof.
  induction auths as [|a l IH]; simpl; [reflexivity|].
  rewrite names_describe. destruct (names_auth targetOrg a); [reflexivity | exact IH].
Qed.

Lemma find_existsb {A} (f : A → bool) (l : list A) :
  existsb f l = match List.find f l with Some _ => true | None => false end.
Proof.
  induction l as [|a l IH]; simpl; [reflexivity|]. destruct (f a); [reflexivity | exact IH].
Qed.

Lemma array_includes_In (l : list string) (x : string) :
  array_includes l x = true ↔ In x l.
Proof.
  unfold array_includes. rewrite existsb_exists. split.
  - intros (y & Hin & Heq). apply String.eqb_eq in Heq. subst. exact Hin.
  - intros Hin. exists x. split; [exact Hin | apply String.eqb_refl].
Qed.

Lemma names_auth_spec (targetOrg : string) (auth : OrgAuthorization) :
  names_auth targetOrg auth = true
  ↔ username auth = targetOrg ∨ ∃ l, aliases auth = Some l ∧ In targetOrg l.
Proof.
  unfold names_auth. rewrite orb_true_iff, String.eqb_eq.
  destruct (aliases auth) as [l|].
  - rewrite array_includes_In. split; (intros [H|H]; [left; exact H | right]).
    + exists l. auto.
    + destruct H as (l' & [= <-] & H). exact H.
  - split; (intros [H|H]; [left; exact H | exfalso]); [discriminate|].
    destruct H as (l' & H & _). discriminate.
Qed.

Lemma listAllOrgs_listed (sf : SfCore) (auths : list OrgAuthorization) :
  listAllAuthorizations sf = Returns auths →
  listAllOrgs sf = Returns (map (describe sf) auths).
Proof. intros H. unfold listAllOrgs. rewrite H. reflexivity. Qed.

Lemma listAllOrgs_failed (sf : SfCore) (e : NamedError) :
  listAllAuthorizations sf = Raises e →
  listAllOrgs sf = if String.eqb (name e) "NoAuthInfoFound" then Returns []
                   else Raises e.
Proof. intros H. unfold listAllOrgs. rewrite H. reflexivity. Qed.


(** X24: [isOrgAuthenticated] never fails, and answers true exactly when
    the library lists an authorization whose username is the given name or
    whose aliases contain it; any failure of the listing gives false. *)
Theorem isOrgAuthenticated_exactly_the_listed (sf : SfCore) (targetOrg : string) :
  ∃ b, isOrgAuthenticated sf targetOrg = Returns b
       ∧ (b = true ↔
          ∃ auths auth,
            listAllAuthorizations sf = Returns auths ∧ In auth auths
            ∧ (username auth = targetOrg
               ∨ ∃ l, aliases auth = Some l ∧ In targetOrg l)).
Proof.
  unfold isOrgAuthenticated.
  destruct (listAllAuthorizations sf) as [auths|e] eqn:Hlist.
  - rewrite (listAllOrgs_listed _ _ Hlist). simpl. eexists. split; [reflexivity|].
    rewrite existsb_describe, existsb_exists. split.
    + intros (auth & Hin & Hname). apply names_auth_spec in Hname. eauto.
    + intros (auths' & auth & [= <-] & Hin & Hname).
      apply names_auth_spec in Hname. eauto.
  - rewrite (listAllOrgs_failed _ _ Hlist).
    destruct (String.eqb (name e) "NoAuthInfoFound"); simpl;
      (eexists; split; [reflexivity|]);
      (split; [discriminate | intros (auths' & auth & H & _); discriminate]).
Qed.

(** X25: [getOrgInfo] never fails; it finds an org exactly when
    [isOrgAuthenticated] says true, and the org it returns is the entry of
    the first authorization, in the library's order, that carries the name. *)
Theorem getOrgInfo_agrees_with_isOrgAuthenticated (sf : SfCore) (targetOrg : string) :
  ∃ found,
    getOrgInfo sf targetOrg = Returns found
    ∧ isOrgAuthenticated sf targetOrg
      = Returns (match found with Some _ => true | None => false end)
    ∧ (∀ auths, listAllAuthorizations sf = Returns auths →
         found = describe sf <$> List.find (names_auth targetOrg) auths).
Proof.
  unfold getOrgInfo, isOrgAuthenticated.
  destruct (listAllAuthorizations sf) as [auths|e] eqn:Hlist.
  - rewrite (listAllOrgs_listed _ _ Hlist). simpl. eexists. split; [reflexivity|].
    split.
    + rewrite find_existsb. reflexivity.
    + intros auths' [= <-]. apply find_describe.
  - rewrite (listAllOrgs_failed _ _ Hlist).
    destruct (String.eqb (name e) "NoAuthInfoFound"); simpl;
      (eexists; split; [reflexivity|]); (split; [reflexivity | discriminate]).
Qed.

(** X26: the two failures [getOrgAccessToken] words itself.  When the
    library reports NoAuthInfoFound the error says that no org is
    authenticated, and any other failure of the listing is passed on as it
    is; when the listing has no authorization with the name, the error
    names it (it is raised inside the [try] and passes its [catch]
    unchanged). *)
Theorem getOrgAccessToken_failures (sf : SfCore) (targetOrg : string) :
  match listAllAuthorizations sf with
  | Raises e =>
      getOrgAccessToken sf targetOrg
      = Raises (if String.eqb (name e) "NoAuthInfoFound"
                then new_Error ("No authenticated orgs found. Please run "
                                +:+ dquote +:+ "sf org login" +:+ dquote
                                +:+ " to authenticate.")
                else e)
  | Returns auths =>
      existsb (names_auth targetOrg) auths = false →
      getOrgAccessToken sf targetOrg
      = Raises (new_Error ("No authenticated org found for '" +:+ targetOrg
                           +:+ "'. Please run 'sf org login' or "
                           +:+ "'sf org create' first."))
  end.
Proof.
  unfold getOrgAccessToken.
  destruct (listAllAuthorizations sf) as [auths|e]; simpl;
    [|destruct (String.eqb (name e) "NoAuthInfoFound"); reflexivity].
  rewrite find_existsb. destruct (List.find _ auths); [discriminate|].
  intros _. reflexivity.
Qed.

(** X27: [getOrgAccessToken] returns a token only for an org that
    [isOrgAuthenticated] accepts: the token is that of the connection made
    for the username of the first authorization carrying the name (not for
    the alias given), and the empty string when the connection has none.
    When [isOrgAuthenticated] says false, [getOrgAccessToken] fails. *)
Theorem access_token_only_for_an_authenticated_org
    (sf : SfCore) (targetOrg : string) :
  (∀ token, getOrgAccessToken sf targetOrg = Returns token →
     isOrgAuthenticated sf targetOrg = Returns true
     ∧ ∃ auths foundOrg authInfo connection,
         listAllAuthorizations sf = Returns auths
         ∧ List.find (names_auth targetOrg) auths = Some foundOrg
         ∧ AuthInfo_create sf (username foundOrg) = Returns authInfo
         ∧ Connection_create sf authInfo = Returns connection
         ∧ token = default "" (accessToken connection))
  ∧ (isOrgAuthenticated sf targetOrg = Returns false →
     ∃ e, getOrgAccessToken sf targetOrg = Raises e).
Proof.
  unfold getOrgAccessToken, isOrgAuthenticated.
  destruct (listAllAuthorizations sf) as [auths|e] eqn:Hlist.
  - rewrite (listAllOrgs_listed _ _ Hlist). simpl.
    rewrite existsb_describe, find_existsb.
    destruct (List.find (names_auth targetOrg) auths) as [foundOrg|] eqn:Hfind.
    + split; [|discriminate]. intros token.
      destruct (AuthInfo_create sf (username foundOrg)) as [authInfo|e] eqn:Hauth; simpl.
      * destruct (Connection_create sf authInfo) as [connection|e] eqn:Hconn; simpl.
        -- intros [= <-]. split; [reflexivity|].
           exists auths, foundOrg, authInfo, connection. repeat split; auto.
           destruct (accessToken connection) as [[|c t]|]; reflexivity.
        -- destruct (String.eqb (name e) "NoAuthInfoFound"); discriminate.
      * destruct (String.eqb (name e) "NoAuthInfoFound"); discriminate.
    + split; [discriminate|]. intros _. eexists. reflexivity.
  - rewrite (listAllOrgs_failed _ _ Hlist). simpl. split.
    + destruct (String.eqb (name e) "NoAuthInfoFound"); discriminate.
    + intros _. destruct (String.eqb (name e) "NoAuthInfoFound"); eexists; reflexivity.
Qed.

(** X28: the summary of [listConnectedSalesforceOrgs] counts every
    authorization once in [totalOrgs].  A dev hub appears in [devHubOrgs]
    only; no org is both a sandbox and a production org; but every other
    org that has an org id is listed under [scratchOrgs], sandboxes and
    production orgs included. *)
Theorem org_categories (sf : SfCore) (summary : OrgSummary) :
  listConnectedSalesforceOrgs sf = Returns summary →
  (∀ auths, listAllAuthorizations sf = Returns auths →
            totalOrgs summary = length auths)
  ∧ (∀ org, In org (devHubOrgs summary) →
            ¬ In org (production summary) ∧ ¬ In org (sandboxes summary)
            ∧ ¬ In org (scratchOrgs summary))
  ∧ (∀ org, In org (sandboxes summary) → ¬ In org (production summary))
  ∧ (∀ org, In org (sandboxes summary) ∨ In org (production summary) →
            org_orgId org ≠ "" → In org (scratchOrgs summary)).
Proof.
  unfold listConnectedSalesforceOrgs.
  destruct (listAllOrgs sf) as [orgs|e] eqn:Horgs; simpl; [|discriminate].
  intros [= <-]. simpl. split; [|split; [|split]].
  - intros auths Hlist. rewrite (listAllOrgs_listed _ _ Hlist) in Horgs.
    injection Horgs as <-. apply length_map.
  - intros org Hin. apply filter_In in Hin as [_ Hhub].
    repeat split; intros Hin; apply filter_In in Hin as [_ H];
      unfold is_production, is_sandbox, is_scratch in H; rewrite Hhub in H;
      discriminate.
  - intros org Hin Hin'. apply filter_In in Hin as [_ H], Hin' as [_ H'].
    unfold is_production, is_sandbox in *.
    destruct (is_hub org), (url_includes org ".sandbox."); discriminate.
  - intros org Hin Hid. apply filter_In.
    assert (Hnot : In org orgs ∧ is_hub org = false).
    { destruct Hin as [Hin|Hin]; apply filter_In in Hin as [Hin H];
        unfold is_production, is_sandbox in H; destruct (is_hub org);
        try discriminate; auto. }
    destruct Hnot as [Hin' Hhub]. split; [exact Hin'|].
    unfold is_scratch. rewrite Hhub. simpl. apply truthy_nonempty, Hid.
Qed.

End MoreOrgs.

(** ** More on validation *)

Section MoreValidator.
Context `{rt : Runtime}.

(** X29: a project path that exists but cannot be inspected ([statSync]
    throws) fails validation with "Cannot access project path: " followed
    by the message of that error; the marker is not probed. *)
Theorem stat_failure_is_reported
    (w : World) (st : State) (projectPath : string) (e : JsError) :
  let resolvedPath := path_resolve projectPath in
  all_space projectPath = false →
  fs_existsSync w resolvedPath = true →
  fs_statSync w resolvedPath = Throw e →
  validateProjectPath w projectPath st
    = (Throw (Error ("Cannot access project path: " +:+ error_message e)),
       {| cachedSfPath := cachedSfPath st;
          trace := trace st ++ [EvExists resolvedPath; EvStat resolvedPath] |}).
Proof.
  intros resolvedPath Hblank Hex Hstat.
  pose proof (validateProjectPath_run w projectPath st) as Hrun.
  cbv zeta in Hrun. fold resolvedPath in Hrun.
  rewrite Hrun, Hblank, Hex, Hstat. simpl negb. cbv iota.
  unfold logged. simpl. rewrite <- List.app_assoc. reflexivity.
Qed.

End MoreValidator.

(** ** The further properties on the example world *)

Module MoreExamples.
Import ExampleWorld ExampleProjects.
#[local] Existing Instance linux_node.

Lemma invalid_project_path_throws_synchronously_witness :
  let w := world project_fs (exiting "" "") in
  let command := "sf org list --json" in
  let e := Error "Project path does not exist: /nowhere" in
  let st0 := logged fresh (EvExists "/nowhere") in
  validateProjectPath w "/nowhere" fresh = (Throw e, st0)
  ∧ executeSfCommandInProject w command "/nowhere" fresh = (Throw e, st0)
  ∧ executeSfCommandInProjectRaw w command "/nowhere" fresh = (Throw e, st0)
  ∧ executed (trace st0) = executed (trace fresh)
  ∧ cachedSfPath st0 = cachedSfPath fresh.
Proof.
  intros w command e st0.
  assert (H : validateProjectPath w "/nowhere" fresh = (Throw e, st0))
    by (vm_compute; reflexivity).
  split; [exact H|].
  exact (invalid_project_path_throws_synchronously (rt := linux_node)
           w fresh st0 command "/nowhere" e H).
Defined.

Lemma missing_cli_is_reported_witness :
  let stderr := "/bin/sh: 1: sf: command not found" in
  let w := world bare_fs (failing "" stderr) in
  let command := "sf org list --json" in
  let r1 := failing "" stderr (q "sf" +:+ " org list --json") in
  let r2 := failing "" stderr
              ("cd " +:+ q "/proj" +:+ " && " +:+ q "sf" +:+ " org list --json") in
  (child_reports w fresh command r1
   ∧ (executeSfCommandRaw w command fresh).1 = Ok (Rejected (Error SF_NOT_FOUND))
   ∧ (executeSfCommand w command fresh).1 = Ok (Rejected (Error SF_NOT_FOUND)))
  ∧ (project_child_reports w fresh command "/proj" r2
     ∧ (executeSfCommandInProjectRaw w command "/proj" fresh).1
       = Ok (Rejected (Error SF_NOT_FOUND))
     ∧ (executeSfCommandInProject w command "/proj" fresh).1
       = Ok (Rejected (Error SF_NOT_FOUND))).
Proof.
  intros stderr w command r1 r2.
  assert (H1 : child_reports w fresh command r1).
  { eexists _, _. split; vm_compute; reflexivity. }
  assert (H2 : project_child_reports w fresh command "/proj" r2).
  { eexists _, _, _. split; [|split]; vm_compute; reflexivity. }
  assert (Hout1 : no_parseable_output r1) by (left; reflexivity).
  assert (Hout2 : no_parseable_output r2) by (left; reflexivity).
  pose proof (proj1 (missing_cli_is_reported (rt := linux_node)
                       w fresh command "/proj" r1 _ eq_refl eq_refl) H1) as [Ha Hb].
  pose proof (proj2 (missing_cli_is_reported (rt := linux_node)
                       w fresh command "/proj" r2 _ eq_refl eq_refl) H2) as [Hc Hd].
  split; (split; [assumption|]); split; auto.
Defined.

Lemma raw_invokers_return_stdout_on_clean_exit_witness :
  let w := world project_fs (exiting "Name  Id" "Warning: old version") in
  let command := "sf org list" in
  let r := exiting "Name  Id" "Warning: old version" "" in
  exec_error r = None
  ∧ (child_reports w fresh command r
     ∧ (executeSfCommandRaw w command fresh).1 = Ok (Resolved "Name  Id"))
  ∧ (project_child_reports w fresh command "/proj" r
     ∧ (executeSfCommandInProjectRaw w command "/proj" fresh).1
       = Ok (Resolved "Name  Id")).
Proof.
  intros w command r.
  assert (H1 : child_reports w fresh command r).
  { eexists _, _. split; vm_compute; reflexivity. }
  assert (H2 : project_child_reports w fresh command "/proj" r).
  { eexists _, _, _. split; [|split]; vm_compute; reflexivity. }
  split; [reflexivity|]. split; (split; [assumption|]).
  - exact (proj1 (raw_invokers_return_stdout_on_clean_exit (rt := linux_node)
                    w fresh command "/proj" r eq_refl) H1).
  - exact (proj2 (raw_invokers_return_stdout_on_clean_exit (rt := linux_node)
                    w fresh command "/proj" r eq_refl) H2).
Defined.

Lemma stderr_without_warning_is_the_error_witness :
  let stderr := "ERROR running org list: no default org" in
  let w := world project_fs (exiting "" stderr) in
  let command := "sf org list --json" in
  let r := exiting "" stderr "" in
  exec_error r = None
  ∧ no_parseable_output r
  ∧ includes (exec_stderr r) "Warning" = false
  ∧ JSON_parse (exec_stderr r) = None
  ∧ (project_child_reports w fresh command "/proj" r
     ∧ (executeSfCommandInProject w command "/proj" fresh).1
       = Ok (Rejected (Error stderr)))
  ∧ (child_reports w fresh command r
     ∧ (executeSfCommand w command fresh).1 = Ok (Rejected (Error stderr))).
Proof.
  intros stderr w command r.
  assert (H1 : child_reports w fresh command r).
  { eexists _, _. split; vm_compute; reflexivity. }
  assert (H2 : project_child_reports w fresh command "/proj" r).
  { eexists _, _, _. split; [|split]; vm_compute; reflexivity. }
  assert (Hout : no_parseable_output r) by (left; reflexivity).
  assert (Hparse : JSON_parse (exec_stderr r) = None) by (vm_compute; reflexivity).
  split; [reflexivity|]. split; [exact Hout|]. split; [reflexivity|].
  split; [exact Hparse|].
  split; (split; [assumption|]).
  - exact (proj1 (stderr_without_warning_is_the_error (rt := linux_node)
                    w fresh command "/proj" r eq_refl Hout
                    ltac:(discriminate) eq_refl) H2).
  - exact (proj2 (stderr_without_warning_is_the_error (rt := linux_node)
                    w fresh command "/proj" r eq_refl Hout
                    ltac:(discriminate) eq_refl) H1 Hparse).
Defined.

Lemma findSfPath_probes_candidates_in_order_witness :
  let w := world project_fs (exiting "" "") in
  let candidates := ["/usr/local/bin/sf"; "/usr/bin/sf";
                     "/opt/salesforce/cli/bin/sf"; "/home/dev/.local/bin/sf"] in
  COMMON_SF_PATHS os_platform = Some candidates
  ∧ cachedSfPath fresh = None
  ∧ ∃ p st' probed, findSfPath w fresh = (Ok p, st')
      ∧ trace st' = trace fresh ++ map EvExists probed
      ∧ cachedSfPath st' = Some p
      ∧ ((∃ before after, probed = before ++ [p] ∧ candidates = probed ++ after)
         ∨ (probed = candidates ∧ p = "sf")).
Proof.
  intros w candidates. split; [reflexivity|]. split; [reflexivity|].
  exact (findSfPath_probes_candidates_in_order (rt := linux_node)
           w fresh candidates eq_refl eq_refl).
Defined.

Lemma leading_sf_becomes_the_quoted_path_witness :
  replace_sf "/usr/bin/sf" ("sf" +:+ "   " +:+ "  org list")
  = dquote +:+ "/usr/bin/sf" +:+ dquote +:+ " " +:+ trimStart "  org list".
Proof.
  exact (leading_sf_becomes_the_quoted_path "/usr/bin/sf" "   " "  org list"
           ltac:(discriminate) eq_refl eq_refl).
Defined.

Lemma cli_error_on_stdout_of_the_raw_project_invoker_witness :
  let command := "sf data query --query " +:+ q "SELECT Id FROM Account" +:+ " --json" in
  let w := world project_fs (failing failure_text "") in
  let r := failing failure_text ""
             ("cd " +:+ q "/proj" +:+ " && " +:+ q "/usr/bin/sf"
              +:+ " data query --query " +:+ q "SELECT Id FROM Account" +:+ " --json") in
  project_child_reports w fresh command "/proj" r
  ∧ JSON_parse (exec_stdout r) = Some (JObject failure_props)
  ∧ plain_details failure_props
  ∧ ∃ actions stack,
      (executeSfCommandInProjectRaw w command "/proj" fresh).1
        = Ok (Rejected (Error ("No org found" +:+ actions +:+ stack)))
      ∧ (lookup_prop "actions" failure_props = None → actions = "")
      ∧ (∀ l, lookup_prop "actions" failure_props = Some (JArray (map JString l)) →
              actions = newline +:+ "Suggested actions:" +:+ newline +:+ join newline l)
      ∧ (lookup_prop "stack" failure_props = None → stack = "")
      ∧ (∀ s, lookup_prop "stack" failure_props = Some (JString s) →
              stack = if truthy s then newline +:+ "Stack trace:" +:+ newline +:+ s
                      else "").
Proof.
  intros command w r.
  assert (Hr : project_child_reports w fresh command "/proj" r).
  { eexists _, _, _. split; [|split]; vm_compute; reflexivity. }
  assert (Hparse : JSON_parse (exec_stdout r) = Some (JObject failure_props))
    by (vm_compute; reflexivity).
  assert (Hplain : plain_details failure_props).
  { split; [right; exists "No org found"; reflexivity|].
    split; [right; exists ["Run sf org login"]; reflexivity | left; reflexivity]. }
  split; [exact Hr|]. split; [exact Hparse|]. split; [exact Hplain|].
  exact (proj1 (proj2 (cli_error_on_stdout_of_the_raw_project_invoker
                         (rt := linux_node)
                         w fresh command "/proj" r _ failure_props Hr eq_refl
                         eq_refl eq_refl eq_refl ltac:(discriminate) Hparse))
           eq_refl eq_refl Hplain "No org found" eq_refl ltac:(discriminate)).
Defined.

Lemma buildSfCommand_with_explicit_target_witness :
  let w := world configured_fs (exiting "" "") in
  buildSfCommand w "sf data query" (Some "my-org") (Some "/proj") fresh
  = (Ok "sf data query --target-org my-org --json", fresh).
Proof.
  intros w.
  exact (buildSfCommand_with_explicit_target (rt := linux_node)
           w fresh "sf data query" "my-org" (Some "/proj") eq_refl).
Defined.

Lemma built_command_requests_json_witness :
  let w := world configured_fs (exiting "" "") in
  let command := "sf org display --target-org dev@corp.example --json" in
  (buildSfCommand w "sf org display" None (Some "/proj") fresh).1 = Ok command
  ∧ String.prefix "sf org display" command = true
  ∧ includes command "--json" = true.
Proof.
  intros w command.
  assert (H : (buildSfCommand w "sf org display" None (Some "/proj") fresh).1
              = Ok command) by (vm_compute; reflexivity).
  split; [exact H|].
  exact (built_command_requests_json (rt := linux_node)
           w fresh "sf org display" None (Some "/proj") command H).
Defined.

Lemma buildSfCommand_uses_the_configured_org_witness :
  let w := world configured_fs (exiting "" "") in
  let props := [("defaultusername", JString "dev@corp.example")] in
  fs_readFileSync w "/proj/.sfdx/sfdx-config.json" = Ok config_text
  ∧ JSON_parse config_text = Some (JObject props)
  ∧ (buildSfCommand w "sf org display" (Some "  ") (Some "/proj") fresh).1
    = Ok "sf org display --target-org dev@corp.example --json".
Proof.
  intros w props.
  assert (Hread : fs_readFileSync w "/proj/.sfdx/sfdx-config.json" = Ok config_text)
    by (vm_compute; reflexivity).
  assert (Hparse : JSON_parse config_text = Some (JObject props))
    by (vm_compute; reflexivity).
  split; [exact Hread|]. split; [exact Hparse|].
  exact (proj1 (buildSfCommand_uses_the_configured_org (rt := linux_node)
                  w fresh "sf org display" "/proj" config_text (Some "  ") props
                  eq_refl ltac:(discriminate) ltac:(vm_compute; reflexivity)
                  Hread Hparse)
           "dev@corp.example" eq_refl eq_refl).
Defined.

Lemma scanner_tools_return_the_report_witness :
  let report := "2 violations found" in
  let r := {| exec_error := Some (failed "sf scanner run" "" 1);
              exec_stdout := report; exec_stderr := "" |} in
  let w := world project_fs (λ _, r) in
  let target := Some ["src"; "lib"] in
  let format := Some "json" in
  let command := "sf scanner run --target " +:+ q "src,lib" +:+ " --format json" in
  let dfa := "sf scanner run dfa --target " +:+ q "src,lib" +:+ " --format json" in
  (project_child_reports w fresh command "/proj" r
   ∧ String.prefix "sf scanner run" command = true
   ∧ (runScanner w "/proj" target None None None None None format None None None
        None None None fresh).1 = Ok (Resolved report))
  ∧ (project_child_reports w fresh dfa "/proj" r
     ∧ String.prefix "sf scanner run dfa" dfa = true
     ∧ (runScannerDfa w "/proj" target None None format None None None None None
          None None None None None fresh).1 = Ok (Resolved report)).
Proof.
  intros report r w target format command dfa.
  assert (H1 : project_child_reports w fresh command "/proj" r).
  { eexists _, _, _. split; [|split]; vm_compute; reflexivity. }
  assert (H2 : project_child_reports w fresh dfa "/proj" r).
  { eexists _, _, _. split; [|split]; vm_compute; reflexivity. }
  pose proof (scanner_tools_return_the_report (rt := linux_node)
                w fresh "/proj" target None None None None None None format None
                None None None None None None None None None None r _
                eq_refl eq_refl ltac:(discriminate)) as [[Ha Hb] [Hc Hd]].
  split; (split; [assumption|]); split; auto.
Defined.

Lemma code_analyzer_tools_return_the_report_witness :
  let report := "Found 3 violations" in
  let r := {| exec_error := Some (failed "sf code-analyzer" "" 1);
              exec_stdout := report; exec_stderr := "" |} in
  let w := world project_fs (λ _, r) in
  let workspace := Some ["force-app"; "lib"] in
  let command := "sf code-analyzer run --workspace " +:+ q "force-app"
                 +:+ " --workspace " +:+ q "lib" +:+ " --severity-threshold High" in
  let rules := "sf code-analyzer rules --workspace " +:+ q "force-app"
               +:+ " --workspace " +:+ q "lib" +:+ " --view detail" in
  (project_child_reports w fresh command "/proj" r
   ∧ String.prefix "sf code-analyzer run" command = true
   ∧ (runCodeAnalyzer w "/proj" workspace None None None (Some "High") None
        fresh).1 = Ok (Resolved report))
  ∧ (project_child_reports w fresh rules "/proj" r
     ∧ String.prefix "sf code-analyzer rules" rules = true
     ∧ (listCodeAnalyzerRules w "/proj" workspace None None None (Some "detail")
          fresh).1 = Ok (Resolved report)).
Proof.
  intros report r w workspace command rules.
  assert (H1 : project_child_reports w fresh command "/proj" r).
  { eexists _, _, _. split; [|split]; vm_compute; reflexivity. }
  assert (H2 : project_child_reports w fresh rules "/proj" r).
  { eexists _, _, _. split; [|split]; vm_compute; reflexivity. }
  pose proof (code_analyzer_tools_return_the_report (rt := linux_node)
                w fresh "/proj" workspace None None None (Some "High") None
                (Some "detail") r _ eq_refl eq_refl ltac:(discriminate))
    as [[Ha Hb] [Hc Hd]].
  split; (split; [assumption|]); split; auto.
Defined.

Lemma analysis_tools_reject_an_invalid_project_witness :
  let w := world marker_file_fs (exiting "" "") in
  let e := Error "Project path cannot be empty" in
  validateProjectPath w "  " fresh = (Throw e, fresh)
  ∧ runScanner w "  " (Some ["src"]) None None None None None None None None None
      None None None fresh = (Ok (Rejected e), fresh)
  ∧ runScannerDfa w "  " (Some ["src"]) None None None None None None None None
      None None None None None fresh = (Ok (Rejected e), fresh)
  ∧ runCodeAnalyzer w "  " None (Some ["src"]) None None None None fresh
    = (Ok (Rejected e), fresh)
  ∧ listCodeAnalyzerRules w "  " None (Some ["src"]) None None None fresh
    = (Ok (Rejected e), fresh)
  ∧ executed (trace fresh) = executed (trace fresh).
Proof.
  intros w e.
  assert (H : validateProjectPath w "  " fresh = (Throw e, fresh))
    by (vm_compute; reflexivity).
  split; [exact H|].
  exact (analysis_tools_reject_an_invalid_project (rt := linux_node)
           w fresh fresh "  " e (Some ["src"]) None None None None None None None
           None None None None None None None None None None None None None None
           None None None H).
Defined.

Lemma soql_records_or_type_error_witness :
  let r := {| exec_error := Some (failed "sf data query" "" 1);
              exec_stdout := failure_text; exec_stderr := "" |} in
  let w := world project_fs (λ _, r) in
  let sfCommand := "sf data query --query " +:+ q "SELECT Id FROM Account"
                   +:+ " --target-org my-org --json" in
  project_child_reports w fresh sfCommand "/proj" r
  ∧ JSON_parse (exec_stdout r) = Some (JObject failure_props)
  ∧ lookup_prop "result" failure_props = None
  ∧ (executeSoqlQuery w "/proj" "Account" "Id" (Some "my-org") None None None
       fresh).1
    = Ok (Rejected (TypeError
            "Cannot read properties of undefined (reading 'records')")).
Proof.
  intros r w sfCommand.
  assert (Hr : project_child_reports w fresh sfCommand "/proj" r).
  { eexists _, _, _. split; [|split]; vm_compute; reflexivity. }
  assert (Hparse : JSON_parse (exec_stdout r) = Some (JObject failure_props))
    by (vm_compute; reflexivity).
  split; [exact Hr|]. split; [exact Hparse|]. split; [reflexivity|].
  exact (proj1 (soql_records_or_type_error (rt := linux_node)
                  w fresh fresh "/proj" "Account" "Id" (Some "my-org") None None
                  None sfCommand r failure_props
                  ltac:(vm_compute; reflexivity) Hr ltac:(discriminate) Hparse)
           eq_refl).
Defined.

Lemma blank_query_is_rejected_at_once_witness :
  let w := world configured_fs (exiting "" "") in
  executeSoqlQueryRaw w "/proj" "   " None fresh
  = (Ok (Rejected (Error "Query cannot be empty")), fresh).
Proof.
  intros w.
  exact (blank_query_is_rejected_at_once (rt := linux_node)
           w fresh "/proj" "   " None eq_refl).
Defined.

Lemma sosl_wraps_unparseable_output_witness :
  let text := "No records found" in
  let w := world project_fs (exiting text "") in
  let sfCommand := "sf data search --query " +:+ q "FIND {acme}"
                   +:+ " --target-org my-org --json" in
  (executeSfCommandInProjectRaw w sfCommand "/proj" fresh).1 = Ok (Resolved text)
  ∧ JSON_parse text = None
  ∧ (executeSoslQuery w "/proj" (Some "my-org") (Some "FIND {acme}") None fresh).1
    = Ok (Resolved (JObject [("searchRecords", JArray []);
                             ("rawOutput", JString text)])).
Proof.
  intros text w sfCommand.
  assert (Hraw : (executeSfCommandInProjectRaw w sfCommand "/proj" fresh).1
                 = Ok (Resolved text)) by (vm_compute; reflexivity).
  assert (Hparse : JSON_parse text = None) by (vm_compute; reflexivity).
  split; [exact Hraw|]. split; [exact Hparse|].
  pose proof (sosl_wraps_unparseable_output (rt := linux_node)
                w fresh fresh "/proj" (Some "my-org") (Some "FIND {acme}") None
                sfCommand text eq_refl ltac:(vm_compute; reflexivity) Hraw) as H.
  rewrite Hparse in H. exact H.
Defined.

Lemma stat_failure_is_reported_witness :
  let w := locked (exiting "" "") in
  validateProjectPath w "/proj" fresh
  = (Throw (Error ("Cannot access project path: "
                   +:+ "EACCES: permission denied, stat '/proj'")),
     {| cachedSfPath := None; trace := [EvExists "/proj"; EvStat "/proj"] |}).
Proof.
  intros w.
  exact (stat_failure_is_reported (rt := linux_node)
           w fresh "/proj" (Error "EACCES: permission denied, stat '/proj'")
           eq_refl eq_refl eq_refl).
Defined.

End MoreExamples.

Module MoreOrgExamples.
Import Orgs ExampleOrgs.


(** The three orgs of the example: the sandbox and the production org are
    both listed under [scratchOrgs] as well. *)
Lemma org_categories_witness :
  let summary := {| devHubOrgs := [describe three hub];
                    production := [describe three prod];
                    sandboxes := [describe three sandbox];
                    scratchOrgs := [describe three sandbox; describe three prod];
                    totalOrgs := 3 |} in
  listConnectedSalesforceOrgs three = Returns summary
  ∧ (∀ auths, listAllAuthorizations three = Returns auths →
              totalOrgs summary = length auths)
  ∧ (∀ org, In org (devHubOrgs summary) →
            ¬ In org (production summary) ∧ ¬ In org (sandboxes summary)
            ∧ ¬ In org (scratchOrgs summary))
  ∧ (∀ org, In org (sandboxes summary) → ¬ In org (production summary))
  ∧ (∀ org, In org (sandboxes summary) ∨ In org (production summary) →
            org_orgId org ≠ "" → In org (scratchOrgs summary)).
Proof.
  intros summary.
  assert (H : listConnectedSalesforceOrgs three = Returns summary)
    by (vm_compute; reflexivity).
  split; [exact H|].
  exact (org_categories three summary H).
Defined.

End MoreOrgExamples.
